(** * Cat's emu: the CHIP-8 interpreter core of [catemuhdr.cpp]

    A shallow embedding of class [Chip8]: its state, [Reset], [LoadROM],
    [Cycle] with the sixteen opcode handlers, [UpdateTimers] and [SetKey],
    followed by the properties of the interpreter stated in the repository's
    specification.

    Conventions.
    - [uint8_t] and [uint16_t] values are integers in [Z]; every store into
      such a variable writes the wrap-around out ([u8], [u16]).
    - The arrays are lists.  An access whose index is computed from machine
      data ([memory], [stack], [keypad]) goes through [get]/[put], which
      answer [None] outside the array: the C++ program has no defined
      behaviour there, and [None] is that branch of the embedding.
    - [V] is only ever indexed by a 4-bit field of the instruction word or by
      a loop counter below 16, and [display] only behind the two clip tests
      of the draw loop; these use the total list operations.
    - [rand()] is an input of [Cycle]. *)

From Stdlib Require Import ZArith Lia Bool List.
From stdpp Require Import base tactics option numbers list.

Local Open Scope Z_scope.

(** ** Constants *)

Definition MEMORY_SIZE : Z := 4096.
Definition START_ADDR : Z := 0x200.
Definition FONTSET_ADDR : Z := 0x000.
Definition FONTSET_SIZE : Z := 80.
Definition DISPLAY_WIDTH : Z := 64.
Definition DISPLAY_HEIGHT : Z := 32.

Definition fontset : list Z :=
  [ 0xF0; 0x90; 0x90; 0x90; 0xF0;
    0x20; 0x60; 0x20; 0x20; 0x70;
    0xF0; 0x10; 0xF0; 0x80; 0xF0;
    0xF0; 0x10; 0xF0; 0x10; 0xF0;
    0x90; 0x90; 0xF0; 0x10; 0x10;
    0xF0; 0x80; 0xF0; 0x10; 0xF0;
    0xF0; 0x80; 0xF0; 0x90; 0xF0;
    0xF0; 0x10; 0x20; 0x40; 0x40;
    0xF0; 0x90; 0xF0; 0x90; 0xF0;
    0xF0; 0x90; 0xF0; 0x10; 0xF0;
    0xF0; 0x90; 0xF0; 0x90; 0x90;
    0xE0; 0x90; 0xE0; 0x90; 0xE0;
    0xF0; 0x80; 0x80; 0x80; 0xF0;
    0xE0; 0x90; 0x90; 0x90; 0xE0;
    0xF0; 0x80; 0xF0; 0x80; 0xF0;
    0xF0; 0x80; 0xF0; 0x80; 0x80 ].

(** ** Machine integers and arrays *)

Definition u8 (x : Z) : Z := x mod 256.
Definition u16 (x : Z) : Z := x mod 65536.

Definition get (a : list Z) (i : Z) : option Z :=
  if 0 <=? i then a !! Z.to_nat i else None.

Definition put (a : list Z) (i v : Z) : option (list Z) :=
  if (0 <=? i) && (i <? Z.of_nat (length a))
  then Some (<[Z.to_nat i := v]> a) else None.

(** [memset(a, 0, sizeof a)] *)
Definition zeros (n : Z) : list Z := replicate (Z.to_nat n) 0.

(** [memcpy(&dst[off], src, length src)], for a source that fits. *)
Definition memcpy (dst : list Z) (off : Z) (src : list Z) : list Z :=
  take (Z.to_nat off) dst ++ src ++ drop (Z.to_nat off + length src)%nat dst.

(** ** The state of [class Chip8] *)

Record Chip8 : Type := mkChip8 {
  memory : list Z;
  V : list Z;
  I : Z;
  pc : Z;
  sp : Z;
  stack : list Z;
  delay_timer : Z;
  sound_timer : Z;
  keypad : list Z;
  display : list Z;
  drawFlag : bool
}.

Definition set_memory (m : list Z) (s : Chip8) : Chip8 :=
  mkChip8 m (V s) (I s) (pc s) (sp s) (stack s) (delay_timer s)
          (sound_timer s) (keypad s) (display s) (drawFlag s).
Definition set_V (v : list Z) (s : Chip8) : Chip8 :=
  mkChip8 (memory s) v (I s) (pc s) (sp s) (stack s) (delay_timer s)
          (sound_timer s) (keypad s) (display s) (drawFlag s).
Definition set_I (i : Z) (s : Chip8) : Chip8 :=
  mkChip8 (memory s) (V s) i (pc s) (sp s) (stack s) (delay_timer s)
          (sound_timer s) (keypad s) (display s) (drawFlag s).
Definition set_pc (p : Z) (s : Chip8) : Chip8 :=
  mkChip8 (memory s) (V s) (I s) p (sp s) (stack s) (delay_timer s)
          (sound_timer s) (keypad s) (display s) (drawFlag s).
Definition set_sp (p : Z) (s : Chip8) : Chip8 :=
  mkChip8 (memory s) (V s) (I s) (pc s) p (stack s) (delay_timer s)
          (sound_timer s) (keypad s) (display s) (drawFlag s).
Definition set_stack (k : list Z) (s : Chip8) : Chip8 :=
  mkChip8 (memory s) (V s) (I s) (pc s) (sp s) k (delay_timer s)
          (sound_timer s) (keypad s) (display s) (drawFlag s).
Definition set_delay_timer (t : Z) (s : Chip8) : Chip8 :=
  mkChip8 (memory s) (V s) (I s) (pc s) (sp s) (stack s) t
          (sound_timer s) (keypad s) (display s) (drawFlag s).
Definition set_sound_timer (t : Z) (s : Chip8) : Chip8 :=
  mkChip8 (memory s) (V s) (I s) (pc s) (sp s) (stack s) (delay_timer s)
          t (keypad s) (display s) (drawFlag s).
Definition set_keypad (k : list Z) (s : Chip8) : Chip8 :=
  mkChip8 (memory s) (V s) (I s) (pc s) (sp s) (stack s) (delay_timer s)
          (sound_timer s) k (display s) (drawFlag s).
Definition set_display (d : list Z) (s : Chip8) : Chip8 :=
  mkChip8 (memory s) (V s) (I s) (pc s) (sp s) (stack s) (delay_timer s)
          (sound_timer s) (keypad s) d (drawFlag s).
Definition set_drawFlag (b : bool) (s : Chip8) : Chip8 :=
  mkChip8 (memory s) (V s) (I s) (pc s) (sp s) (stack s) (delay_timer s)
          (sound_timer s) (keypad s) (display s) b.

(** [V[r]] and [V[r] = v]; a store truncates to [uint8_t]. *)
Definition Vget (s : Chip8) (r : Z) : Z := V s !!! Z.to_nat r.
Definition Vset (r v : Z) (s : Chip8) : Chip8 :=
  set_V (<[Z.to_nat r := u8 v]> (V s)) s.

(** [display[idx]] and [display[idx] = v] *)
Definition dget (s : Chip8) (idx : Z) : Z := display s !!! Z.to_nat idx.
Definition dset (idx v : Z) (s : Chip8) : Chip8 :=
  set_display (<[Z.to_nat idx := u8 v]> (display s)) s.

(** [pc += 2] *)
Definition skip (s : Chip8) : Chip8 := set_pc (u16 (pc s + 2)) s.

(** ** Reset, LoadROM, SetKey, UpdateTimers *)

Definition Reset (s : Chip8) : Chip8 :=
  let s := set_memory (zeros MEMORY_SIZE) s in
  let s := set_V (zeros 16) s in
  let s := set_stack (zeros 16) s in
  let s := set_keypad (zeros 16) s in
  let s := set_display (zeros (DISPLAY_WIDTH * DISPLAY_HEIGHT)) s in
  let s := set_memory (memcpy (memory s) FONTSET_ADDR fontset) s in
  let s := set_pc START_ADDR s in
  let s := set_I 0 s in
  let s := set_sp 0 s in
  let s := set_delay_timer 0 s in
  let s := set_sound_timer 0 s in
  set_drawFlag false s.

(** The constructor initialises six members and calls [Reset]. *)
Definition Chip8_new : Chip8 :=
  Reset (mkChip8 [] [] 0 START_ADDR 0 [] 0 0 [] [] false).

(** What [LoadROM] reports: nothing, or one of its two messages on
    [std::cerr]. *)
Inductive load_result : Type :=
| Loaded
| CouldNotOpen
| RomTooLarge.

(** [file] is the content of the file called [filename], or [None] when it
    cannot be opened. *)
Definition LoadROM (file : option (list Z)) (s : Chip8)
  : Chip8 * load_result :=
  let s := Reset s in
  match file with
  | None => (s, CouldNotOpen)
  | Some bytes =>
      let size := Z.of_nat (length bytes) in
      if size >? MEMORY_SIZE - START_ADDR then (s, RomTooLarge)
      else (set_memory (memcpy (memory s) START_ADDR bytes) s, Loaded)
  end.

Definition SetKey (key : Z) (pressed : bool) (s : Chip8) : option Chip8 :=
  k ← put (keypad s) key (if pressed then 1 else 0);
  Some (set_keypad k s).

Definition UpdateTimers (s : Chip8) : Chip8 :=
  let s := if delay_timer s >? 0
           then set_delay_timer (u8 (delay_timer s - 1)) s else s in
  if sound_timer s >? 0
  then set_sound_timer (u8 (sound_timer s - 1)) s else s.

Definition GetSoundState (s : Chip8) : bool := sound_timer s >? 0.
Definition NeedsRedraw (s : Chip8) : bool := drawFlag s.
Definition ClearDrawFlag (s : Chip8) : Chip8 := set_drawFlag false s.

(** ** The opcode handlers

    Each takes the state after the fetch has advanced [pc]. *)

Definition Opcode0xxx (opcode : Z) (s : Chip8) : option Chip8 :=
  if opcode =? 0x00E0 then
    Some (set_drawFlag true
            (set_display (zeros (DISPLAY_WIDTH * DISPLAY_HEIGHT)) s))
  else if opcode =? 0x00EE then
    let s := set_sp (u8 (sp s - 1)) s in
    a ← get (stack s) (sp s);
    Some (set_pc a s)
  else Some s.

Definition Opcode1xxx (addr : Z) (s : Chip8) : option Chip8 :=
  Some (set_pc addr s).

Definition Opcode2xxx (addr : Z) (s : Chip8) : option Chip8 :=
  k ← put (stack s) (sp s) (pc s);
  let s := set_sp (u8 (sp s + 1)) (set_stack k s) in
  Some (set_pc addr s).

Definition Opcode3xxx (reg val : Z) (s : Chip8) : option Chip8 :=
  Some (if Vget s reg =? val then skip s else s).

Definition Opcode4xxx (reg val : Z) (s : Chip8) : option Chip8 :=
  Some (if Vget s reg =? val then s else skip s).

Definition Opcode5xxx (regX regY : Z) (s : Chip8) : option Chip8 :=
  Some (if Vget s regX =? Vget s regY then skip s else s).

Definition Opcode6xxx (reg val : Z) (s : Chip8) : option Chip8 :=
  Some (Vset reg val s).

Definition Opcode7xxx (reg val : Z) (s : Chip8) : option Chip8 :=
  Some (Vset reg (Vget s reg + val) s).

Definition OpcodeAxxx (addr : Z) (s : Chip8) : option Chip8 :=
  Some (set_I addr s).

Definition OpcodeBxxx (addr : Z) (s : Chip8) : option Chip8 :=
  Some (set_pc (u16 (addr + Vget s 0)) s).

Definition OpcodeCxxx (rnd : Z) (reg val : Z) (s : Chip8) : option Chip8 :=
  Some (Vset reg (Z.land (rnd mod 256) val) s).

Definition Opcode8xxx (regX regY nib : Z) (s : Chip8) : option Chip8 :=
  if nib =? 0x0 then Some (Vset regX (Vget s regY) s)
  else if nib =? 0x1 then Some (Vset regX (Z.lor (Vget s regX) (Vget s regY)) s)
  else if nib =? 0x2 then Some (Vset regX (Z.land (Vget s regX) (Vget s regY)) s)
  else if nib =? 0x3 then Some (Vset regX (Z.lxor (Vget s regX) (Vget s regY)) s)
  else if nib =? 0x4 then
    let sum := u16 (Vget s regX + Vget s regY) in
    let s := Vset 0xF (if sum >? 0xFF then 1 else 0) s in
    Some (Vset regX (Z.land sum 0xFF) s)
  else if nib =? 0x5 then
    let s := Vset 0xF (if Vget s regX >? Vget s regY then 1 else 0) s in
    Some (Vset regX (Vget s regX - Vget s regY) s)
  else if nib =? 0x6 then
    let s := Vset 0xF (Z.land (Vget s regY) 0x01) s in
    Some (Vset regX (Z.shiftr (Vget s regY) 1) s)
  else if nib =? 0x7 then
    let s := Vset 0xF (if Vget s regY >? Vget s regX then 1 else 0) s in
    Some (Vset regX (Vget s regY - Vget s regX) s)
  else if nib =? 0xE then
    let s := Vset 0xF (Z.shiftr (Z.land (Vget s regY) 0x80) 7) s in
    Some (Vset regX (Z.shiftl (Vget s regY) 1) s)
  else Some s.

Definition Opcode9xxx (regX regY : Z) (s : Chip8) : option Chip8 :=
  Some (if Vget s regX =? Vget s regY then s else skip s).

(** The inner loop of [OpcodeDxxx]: [fuel] iterations from column [col]. *)
Fixpoint draw_cols (fuel : nat) (col x y row sprite_byte : Z) (s : Chip8)
  : Chip8 :=
  match fuel with
  | O => s
  | S fuel' =>
      if x + col >=? DISPLAY_WIDTH then s
      else
        let sprite_pixel := Z.land (Z.shiftr sprite_byte (7 - col)) 0x01 in
        let idx := (y + row) * DISPLAY_WIDTH + (x + col) in
        let s :=
          if sprite_pixel =? 0 then s
          else
            let s := if dget s idx =? 1 then Vset 0xF 1 s else s in
            dset idx (Z.lxor (dget s idx) 1) s in
        draw_cols fuel' (col + 1) x y row sprite_byte s
  end.

(** The outer loop: [fuel] iterations from row [row]. *)
Fixpoint draw_rows (fuel : nat) (row x y : Z) (s : Chip8) : option Chip8 :=
  match fuel with
  | O => Some s
  | S fuel' =>
      if y + row >=? DISPLAY_HEIGHT then Some s
      else
        sprite_byte ← get (memory s) (I s + row);
        draw_rows fuel' (row + 1) x y (draw_cols 8 0 x y row sprite_byte s)
  end.

Definition OpcodeDxxx (regX regY nib : Z) (s : Chip8) : option Chip8 :=
  let x := u8 (Vget s regX mod DISPLAY_WIDTH) in
  let y := u8 (Vget s regY mod DISPLAY_HEIGHT) in
  let s := Vset 0xF 0 s in
  s ← draw_rows (Z.to_nat nib) 0 x y s;
  Some (set_drawFlag true s).

Definition OpcodeExxx (reg nib : Z) (s : Chip8) : option Chip8 :=
  c ← (if nib =? 0x9E
       then k ← get (keypad s) (Vget s reg); Some (negb (k =? 0))
       else Some false);
  if c : bool then Some (skip s)
  else
    c ← (if nib =? 0xA1
         then k ← get (keypad s) (Vget s reg); Some (k =? 0)
         else Some false);
    if c : bool then Some (skip s) else Some s.

(** The scan of [0xFX0A]: the state, and [key_pressed]. *)
Fixpoint scan_keys (fuel : nat) (i : Z) (reg : Z) (s : Chip8)
  : option (Chip8 * bool) :=
  match fuel with
  | O => Some (s, false)
  | S fuel' =>
      k ← get (keypad s) i;
      if k =? 0 then scan_keys fuel' (i + 1) reg s
      else Some (Vset reg i s, true)
  end.

(** [for (i = ...; i <= reg; ++i) memory[I + i] = V[i]] *)
Fixpoint store_regs (fuel : nat) (i : Z) (s : Chip8) : option Chip8 :=
  match fuel with
  | O => Some s
  | S fuel' =>
      m ← put (memory s) (I s + i) (Vget s i);
      store_regs fuel' (i + 1) (set_memory m s)
  end.

(** [for (i = ...; i <= reg; ++i) V[i] = memory[I + i]] *)
Fixpoint load_regs (fuel : nat) (i : Z) (s : Chip8) : option Chip8 :=
  match fuel with
  | O => Some s
  | S fuel' =>
      b ← get (memory s) (I s + i);
      load_regs fuel' (i + 1) (Vset i b s)
  end.

Definition OpcodeFxxx (reg nib : Z) (s : Chip8) : option Chip8 :=
  if nib =? 0x07 then Some (Vset reg (delay_timer s) s)
  else if nib =? 0x0A then
    r ← scan_keys 16 0 reg s;
    let '(s, key_pressed) := r in
    Some (if key_pressed : bool then s else set_pc (u16 (pc s - 2)) s)
  else if nib =? 0x15 then Some (set_delay_timer (Vget s reg) s)
  else if nib =? 0x18 then Some (set_sound_timer (Vget s reg) s)
  else if nib =? 0x1E then Some (set_I (u16 (I s + Vget s reg)) s)
  else if nib =? 0x29 then Some (set_I (u16 (FONTSET_ADDR + Vget s reg * 5)) s)
  else if nib =? 0x33 then
    m ← put (memory s) (I s) (Vget s reg / 100);
    let s := set_memory m s in
    m ← put (memory s) (I s + 1) ((Vget s reg / 10) mod 10);
    let s := set_memory m s in
    m ← put (memory s) (I s + 2) (Vget s reg mod 10);
    Some (set_memory m s)
  else if nib =? 0x55 then store_regs (Z.to_nat (reg + 1)) 0 s
  else if nib =? 0x65 then load_regs (Z.to_nat (reg + 1)) 0 s
  else Some s.

(** ** Fetch, decode, dispatch *)

Definition fetch (s : Chip8) : option Z :=
  hi ← get (memory s) (pc s);
  lo ← get (memory s) (pc s + 1);
  Some (u16 (Z.lor (Z.shiftl hi 8) lo)).

Definition nib1_of (opcode : Z) : Z := Z.shiftr (Z.land opcode 0xF000) 12.
Definition regX_of (opcode : Z) : Z := Z.shiftr (Z.land opcode 0x0F00) 8.
Definition regY_of (opcode : Z) : Z := Z.shiftr (Z.land opcode 0x00F0) 4.
Definition nib4_of (opcode : Z) : Z := Z.land opcode 0x000F.
Definition addr_of (opcode : Z) : Z := Z.land opcode 0x0FFF.
Definition val_of (opcode : Z) : Z := u8 (Z.land opcode 0x00FF).

Definition dispatch (rnd : Z) (opcode : Z) (s : Chip8) : option Chip8 :=
  let nib1 := nib1_of opcode in
  let regX := regX_of opcode in
  let regY := regY_of opcode in
  let nib4 := nib4_of opcode in
  let addr := addr_of opcode in
  let val := val_of opcode in
  if nib1 =? 0x0 then Opcode0xxx opcode s
  else if nib1 =? 0x1 then Opcode1xxx addr s
  else if nib1 =? 0x2 then Opcode2xxx addr s
  else if nib1 =? 0x3 then Opcode3xxx regX val s
  else if nib1 =? 0x4 then Opcode4xxx regX val s
  else if nib1 =? 0x5 then Opcode5xxx regX regY s
  else if nib1 =? 0x6 then Opcode6xxx regX val s
  else if nib1 =? 0x7 then Opcode7xxx regX val s
  else if nib1 =? 0x8 then Opcode8xxx regX regY nib4 s
  else if nib1 =? 0x9 then Opcode9xxx regX regY s
  else if nib1 =? 0xA then OpcodeAxxx addr s
  else if nib1 =? 0xB then OpcodeBxxx addr s
  else if nib1 =? 0xC then OpcodeCxxx rnd regX val s
  else if nib1 =? 0xD then OpcodeDxxx regX regY nib4 s
  else if nib1 =? 0xE then OpcodeExxx regX val s
  else if nib1 =? 0xF then OpcodeFxxx regX val s
  else Some s.

(** One [Cycle]; [rnd] is what [rand()] answers if it is called. *)
Definition Cycle (rnd : Z) (s : Chip8) : option Chip8 :=
  opcode ← fetch s;
  dispatch rnd opcode (skip s).

(** [n] cycles in a row, all with the same [rnd]. *)
Fixpoint Cycles (rnd : Z) (n : nat) (s : Chip8) : option Chip8 :=
  match n with
  | O => Some s
  | S n' => s' ← Cycle rnd s; Cycles rnd n' s'
  end.

(** ** Well-formed states

    What the C++ types of the members guarantee, plus the one invariant the
    code maintains on [display]: a cell is 0 or 1 ([Reset] zeroes, the draw
    opcode XORs with 1, nothing else writes). *)

Definition byte (x : Z) : Prop := 0 <= x < 256.
Definition word (x : Z) : Prop := 0 <= x < 65536.
Definition bit (x : Z) : Prop := 0 <= x < 2.

Definition wf (s : Chip8) : Prop :=
  (length (memory s) = 4096%nat ∧ Forall byte (memory s)) ∧
  (length (V s) = 16%nat ∧ Forall byte (V s)) ∧
  (word (I s) ∧ word (pc s) ∧ byte (sp s)) ∧
  (length (stack s) = 16%nat ∧ Forall word (stack s)) ∧
  (byte (delay_timer s) ∧ byte (sound_timer s)) ∧
  (length (keypad s) = 16%nat ∧ Forall byte (keypad s)) ∧
  (length (display s) = 2048%nat ∧ Forall bit (display s)).

#[global] Instance wf_dec s : Decision (wf s).
Proof. unfold wf, byte, word, bit. apply _. Defined.

(** A program for the examples: the post-reset machine with [bytes] at
    [START_ADDR]. *)
Definition boot (bytes : list Z) : Chip8 := (LoadROM (Some bytes) Chip8_new).1.

(** ** Definitions used to state the properties *)

(** The encodings the specification's opcode table lists: [0x00E0], [0x00EE],
    [1NNN], [2NNN], [3XNN], [4XNN], [5XY0], [6XNN], [7XNN], [8XY0]-[8XY7],
    [8XYE], [9XY0], [ANNN], [BNNN], [CXNN], [DXYN], [EX9E], [EXA1] and the
    nine [FX..] words.  This follows the specification, not the code. *)
Definition recognized (op : Z) : bool :=
  let n := nib1_of op in
  if n =? 0x0 then (op =? 0x00E0) || (op =? 0x00EE)
  else if n =? 0x5 then nib4_of op =? 0
  else if n =? 0x8 then (nib4_of op <=? 7) || (nib4_of op =? 0xE)
  else if n =? 0x9 then nib4_of op =? 0
  else if n =? 0xE then (val_of op =? 0x9E) || (val_of op =? 0xA1)
  else if n =? 0xF then
    (val_of op =? 0x07) || (val_of op =? 0x0A) || (val_of op =? 0x15) ||
    (val_of op =? 0x18) || (val_of op =? 0x1E) || (val_of op =? 0x29) ||
    (val_of op =? 0x33) || (val_of op =? 0x55) || (val_of op =? 0x65)
  else true.

(** The state with [V] and [display] blanked: two states that agree on it
    differ at most in [V] and [display]. *)
Definition frameVD (s : Chip8) : Chip8 := set_display [] (set_V [] s).
Definition frameV (s : Chip8) : Chip8 := set_V [] s.
Definition frameM (s : Chip8) : Chip8 := set_memory [] s.

(** The sprite as the specification describes it: whether the sprite whose
    [n] rows start at [memory[I]], put with its top left corner on cell
    ([x], [y]), has a set bit on cell ([cx], [cy]).  Asked of the cells of
    the 64x32 grid only, this clips and never wraps. *)
Definition sprite_bit (s : Chip8) (n x y cx cy : Z) : bool :=
  (y <=? cy) && (cy <? y + n) && (x <=? cx) && (cx <? x + 8) &&
  Z.testbit (memory s !!! Z.to_nat (I s + (cy - y))) (7 - (cx - x)).

(** The part of row [row] that [n] iterations of the inner loop, started at
    column [col], cover. *)
Definition cols_bit (b x y row col n cx cy : Z) : bool :=
  (cy =? y + row) && (x + col <=? cx) && (cx <? x + col + n) &&
  Z.testbit b (7 - (cx - x)).

(** The rows from [row] on that [n] iterations of the outer loop cover. *)
Definition rows_bit (s : Chip8) (x y row n cx cy : Z) : bool :=
  (y + row <=? cy) && (cy <? y + row + n) && (x <=? cx) && (cx <? x + 8) &&
  Z.testbit (memory s !!! Z.to_nat (I s + (cy - y))) (7 - (cx - x)).

(** [V[0] = V[1] = V[2] = V[3] = 0] *)
Definition zero_V03 (s : Chip8) : Chip8 :=
  Vset 3 0 (Vset 2 0 (Vset 1 0 (Vset 0 0 s))).

(** The program of the specification's draw example: [V[0] := 60],
    [V[1] := 0], [I := 0x20A], draw 8x2 at ([V[0]], [V[1]]) twice; the sprite,
    two rows of [0xFF], follows the code. *)
Definition sprite_rom : list Z :=
  [0x60; 0x3C; 0x61; 0x00; 0xA2; 0x0A; 0xD0; 0x12; 0xD0; 0x12; 0xFF; 0xFF].

(** The machine in front of the first draw. *)
Definition sprite_ready : Chip8 :=
  set_I 0x20A (Vset 0 60 (set_pc 0x206 (boot sprite_rom))).

(** A row of the display with columns 60-63 lit. *)
Definition row_60_63 : list Z := replicate 60 0 ++ replicate 4 1.

(** The machine after the first draw, in front of the second. *)
Definition sprite_drawn : Chip8 :=
  set_drawFlag true
    (set_display (row_60_63 ++ row_60_63 ++ zeros (30 * 64))
       (set_pc 0x208 sprite_ready)).

(** ** The rest of the program: driver, keyboard, audio, screen *)

(** [n] calls of [UpdateTimers] in a row, as the main loop makes them. *)
Fixpoint Ticks (n : nat) (s : Chip8) : Chip8 :=
  match n with
  | O => s
  | S n' => Ticks n' (UpdateTimers s)
  end.

(** The states the program can put its [Chip8] object in: the constructor,
    then any sequence of the public methods that change it.  A ROM file holds
    bytes. *)
Inductive reachable : Chip8 → Prop :=
| reach_new : reachable Chip8_new
| reach_Reset s : reachable s → reachable (Reset s)
| reach_LoadROM s bytes :
    reachable s → Forall byte bytes → reachable (LoadROM (Some bytes) s).1
| reach_LoadROM_fail s : reachable s → reachable (LoadROM None s).1
| reach_Cycle s rnd s' : reachable s → Cycle rnd s = Some s' → reachable s'
| reach_UpdateTimers s : reachable s → reachable (UpdateTimers s)
| reach_SetKey s key pressed s' :
    reachable s → SetKey key pressed s = Some s' → reachable s'
| reach_ClearDrawFlag s : reachable s → reachable (ClearDrawFlag s).

(** The key symbols [GUI::HandleEvents] tells apart; [SDLK_other] is its
    [default] case. *)
Inductive keysym : Type :=
| SDLK_1 | SDLK_2 | SDLK_3 | SDLK_4
| SDLK_q | SDLK_w | SDLK_e | SDLK_r
| SDLK_a | SDLK_s | SDLK_d | SDLK_f
| SDLK_z | SDLK_x | SDLK_c | SDLK_v
| SDLK_F1 | SDLK_F5 | SDLK_other.

(** What [GUI::HandleEvents] does to the machine for one key-down
    ([pressed = true]) or key-up event. *)
Definition HandleKey (sym : keysym) (pressed : bool) (s : Chip8)
  : option Chip8 :=
  match sym with
  | SDLK_1 => SetKey 0x1 pressed s
  | SDLK_2 => SetKey 0x2 pressed s
  | SDLK_3 => SetKey 0x3 pressed s
  | SDLK_4 => SetKey 0xC pressed s
  | SDLK_q => SetKey 0x4 pressed s
  | SDLK_w => SetKey 0x5 pressed s
  | SDLK_e => SetKey 0x6 pressed s
  | SDLK_r => SetKey 0xD pressed s
  | SDLK_a => SetKey 0x7 pressed s
  | SDLK_s => SetKey 0x8 pressed s
  | SDLK_d => SetKey 0x9 pressed s
  | SDLK_f => SetKey 0xE pressed s
  | SDLK_z => SetKey 0xA pressed s
  | SDLK_x => SetKey 0x0 pressed s
  | SDLK_c => SetKey 0xB pressed s
  | SDLK_v => SetKey 0xF pressed s
  | SDLK_F1 => Some s
  | SDLK_F5 => Some (Reset s)
  | SDLK_other => Some s
  end.

(** The loop of [audio_callback]: the samples written to [stream] and the
    value of the static [phase] afterwards, from the value it had.  [phase]
    is an [int]; incrementing it at [INT_MAX] has no defined behaviour.
    [beep_active] is taken not to change during one call. *)
Fixpoint audio_loop (fuel : nat) (beep_active : bool) (phase : Z)
  : option (list Z * Z) :=
  match fuel with
  | O => Some ([], phase)
  | S fuel' =>
      if beep_active then
        if phase >=? 2147483647 then None
        else
          let sample := if Z.rem (Z.quot phase 50) 2 =? 0 then 0 else 255 in
          r ← audio_loop fuel' beep_active (phase + 1);
          Some (sample :: r.1, r.2)
      else
        r ← audio_loop fuel' beep_active phase;
        Some (0 :: r.1, r.2)
  end.

Definition audio_callback (beep_active : bool) (len : Z) (phase : Z)
  : option (list Z * Z) :=
  audio_loop (Z.to_nat len) beep_active phase.

Definition WINDOW_WIDTH : Z := 800.
Definition WINDOW_HEIGHT : Z := 600.
Definition SCALE_FACTOR : Z := 8.
Definition GAME_WIDTH : Z := DISPLAY_WIDTH * SCALE_FACTOR.
Definition GAME_HEIGHT : Z := DISPLAY_HEIGHT * SCALE_FACTOR.
Definition TOP_BAR_HEIGHT : Z := 40.
Definition BOTTOM_BAR_HEIGHT : Z := 30.
Definition GAME_Y_OFFSET : Z := TOP_BAR_HEIGHT.
Definition GAME_X_OFFSET : Z := (WINDOW_WIDTH - GAME_WIDTH) / 2.

Record SDL_Rect : Type := mkRect {
  rect_x : Z;
  rect_y : Z;
  rect_w : Z;
  rect_h : Z
}.

(** The "draw game screen" loops of [GUI::Render]: the rectangles handed to
    [SDL_RenderFillRect], in order. *)
Fixpoint render_cols (fuel : nat) (x y : Z) (d : list Z) : list SDL_Rect :=
  match fuel with
  | O => []
  | S fuel' =>
      (if d !!! Z.to_nat (y * DISPLAY_WIDTH + x) =? 0 then []
       else [mkRect (GAME_X_OFFSET + x * SCALE_FACTOR)
                    (GAME_Y_OFFSET + y * SCALE_FACTOR)
                    SCALE_FACTOR SCALE_FACTOR])
      ++ render_cols fuel' (x + 1) y d
  end.

Fixpoint render_rows (fuel : nat) (y : Z) (d : list Z) : list SDL_Rect :=
  match fuel with
  | O => []
  | S fuel' =>
      render_cols (Z.to_nat DISPLAY_WIDTH) 0 y d ++ render_rows fuel' (y + 1) d
  end.

Definition Render_screen (s : Chip8) : list SDL_Rect :=
  render_rows (Z.to_nat DISPLAY_HEIGHT) 0 (display s).

(** The keypad index [GUI::HandleEvents] binds a key symbol to, read off its
    [switch]; [None] for the symbols that are no keypad keys. *)
Definition key_of (sym : keysym) : option Z :=
  match sym with
  | SDLK_1 => Some 0x1 | SDLK_2 => Some 0x2 | SDLK_3 => Some 0x3
  | SDLK_4 => Some 0xC
  | SDLK_q => Some 0x4 | SDLK_w => Some 0x5 | SDLK_e => Some 0x6
  | SDLK_r => Some 0xD
  | SDLK_a => Some 0x7 | SDLK_s => Some 0x8 | SDLK_d => Some 0x9
  | SDLK_f => Some 0xE
  | SDLK_z => Some 0xA | SDLK_x => Some 0x0 | SDLK_c => Some 0xB
  | SDLK_v => Some 0xF
  | SDLK_F1 | SDLK_F5 | SDLK_other => None
  end.

(** The sample [audio_callback] writes at phase [p] while the beep is on. *)
Definition square_wave (p : Z) : Z := if (p / 50) mod 2 =? 0 then 0 else 255.

(** The rectangle [GUI::Render] fills for cell ([cx], [cy]). *)
Definition cell_rect (cx cy : Z) : SDL_Rect :=
  mkRect (144 + 8 * cx) (40 + 8 * cy) 8 8.

Definition block_demo : Chip8 :=
  set_I 0x300 (Vset 1 22 (Vset 0 11 (boot [0xF1; 0x55; 0xF0; 0x65]))).

(** ** Tactics *)

(** Reduce the projections of updated states, and nothing else. *)
Ltac fields :=
  cbn [memory V I pc sp stack delay_timer sound_timer keypad display drawFlag
       set_memory set_V set_I set_pc set_sp set_stack set_delay_timer
       set_sound_timer set_keypad set_display set_drawFlag] in *.

Ltac eqb_false :=
  repeat match goal with
         | |- context [?a =? ?b] => rewrite (proj2 (Z.eqb_neq a b)) by lia
         end.

Ltac orb_false H :=
  repeat match type of H with
         | _ || _ = false =>
             let H' := fresh H in
             apply orb_false_iff in H; destruct H as [H H']
         end.

Ltac bools :=
  repeat match goal with
         | |- context [?a =? ?b] => destruct (Z.eqb_spec a b)
         | |- context [?a <=? ?b] => destruct (Z.leb_spec a b)
         | |- context [?a <? ?b] => destruct (Z.ltb_spec a b)
         end; cbn [andb orb negb]; try lia; try done.

(** ** Basic facts: machine integers, arrays, registers *)

Lemma u8_byte x : byte (u8 x).
Proof. unfold byte, u8. apply Z.mod_pos_bound. lia. Qed.

Lemma u16_word x : word (u16 x).
Proof. unfold word, u16. apply Z.mod_pos_bound. lia. Qed.

Lemma u8_small x : byte x → u8 x = x.
Proof. unfold byte, u8. intros. by apply Z.mod_small. Qed.

Lemma u16_small x : word x → u16 x = x.
Proof. unfold word, u16. intros. by apply Z.mod_small. Qed.

Lemma get_Some_lt a i v : get a i = Some v → 0 <= i < Z.of_nat (length a).
Proof.
  unfold get. destruct (Z.leb_spec 0 i) as [Hi|Hi]; [|done].
  intros Hv. apply lookup_lt_Some in Hv. lia.
Qed.

Lemma get_is_Some a i : is_Some (get a i) ↔ 0 <= i < Z.of_nat (length a).
Proof.
  split.
  - intros [v Hv]. by eapply get_Some_lt.
  - intros [H0 H1]. unfold get.
    destruct (Z.leb_spec 0 i); [|lia].
    apply lookup_lt_is_Some. lia.
Qed.

Lemma get_total a i :
  0 <= i < Z.of_nat (length a) → get a i = Some (a !!! Z.to_nat i).
Proof.
  intros [H0 H1]. unfold get. destruct (Z.leb_spec 0 i); [|lia].
  apply list_lookup_lookup_total_lt. lia.
Qed.

Lemma get_None a i : ¬ (0 <= i < Z.of_nat (length a)) → get a i = None.
Proof.
  intros H. destruct (get a i) eqn:E; [|done].
  apply get_Some_lt in E. lia.
Qed.

Lemma put_Some a i v :
  0 <= i < Z.of_nat (length a) → put a i v = Some (<[Z.to_nat i := v]> a).
Proof.
  intros [H0 H1]. unfold put.
  destruct (Z.leb_spec 0 i); [|lia].
  destruct (Z.ltb_spec i (Z.of_nat (length a))); [done|lia].
Qed.

Lemma put_None a i v : ¬ (0 <= i < Z.of_nat (length a)) → put a i v = None.
Proof.
  intros H. unfold put.
  destruct (Z.leb_spec 0 i); [|done].
  destruct (Z.ltb_spec i (Z.of_nat (length a))); [lia|done].
Qed.

Lemma Forall_total (P : Z → Prop) (l : list Z) (i : nat) :
  Forall P l → (i < length l)%nat → P (l !!! i).
Proof.
  intros HP Hi. eapply Forall_lookup_1; [exact HP|].
  by apply list_lookup_lookup_total_lt.
Qed.

Lemma Vget_Vset_eq r v s :
  0 <= r < Z.of_nat (length (V s)) → Vget (Vset r v s) r = u8 v.
Proof.
  intros Hr. unfold Vget, Vset. simpl.
  apply list_lookup_total_insert_eq. lia.
Qed.

Lemma Vget_Vset_ne r r' v s :
  0 <= r → 0 <= r' → r ≠ r' → Vget (Vset r v s) r' = Vget s r'.
Proof.
  intros H0 H1 Hne. unfold Vget, Vset. simpl.
  apply list_lookup_total_insert_ne. lia.
Qed.

Lemma Vget_byte s r : wf s → 0 <= r < 16 → byte (Vget s r).
Proof.
  intros (_ & [HL HV] & _) Hr. unfold Vget.
  apply Forall_total; [done|lia].
Qed.

(** ** Decoding *)

Lemma nib1_of_spec op : nib1_of op = (op / 4096) mod 16.
Proof.
  unfold nib1_of. rewrite Z.shiftr_land.
  change (Z.shiftr 0xF000 12) with (Z.ones 4).
  rewrite Z.land_ones by lia. by rewrite Z.shiftr_div_pow2 by lia.
Qed.

Lemma regX_of_spec op : regX_of op = (op / 256) mod 16.
Proof.
  unfold regX_of. rewrite Z.shiftr_land.
  change (Z.shiftr 0x0F00 8) with (Z.ones 4).
  rewrite Z.land_ones by lia. by rewrite Z.shiftr_div_pow2 by lia.
Qed.

Lemma regY_of_spec op : regY_of op = (op / 16) mod 16.
Proof.
  unfold regY_of. rewrite Z.shiftr_land.
  change (Z.shiftr 0x00F0 4) with (Z.ones 4).
  rewrite Z.land_ones by lia. by rewrite Z.shiftr_div_pow2 by lia.
Qed.

Lemma nib4_of_spec op : nib4_of op = op mod 16.
Proof. unfold nib4_of. change 0x000F with (Z.ones 4). by rewrite Z.land_ones by lia. Qed.

Lemma addr_of_spec op : addr_of op = op mod 4096.
Proof. unfold addr_of. change 0x0FFF with (Z.ones 12). by rewrite Z.land_ones by lia. Qed.

Lemma val_of_spec op : val_of op = op mod 256.
Proof.
  unfold val_of, u8. change 0x00FF with (Z.ones 8).
  rewrite Z.land_ones by lia. change (2 ^ 8) with 256.
  by rewrite Z.mod_mod by lia.
Qed.

Lemma nib1_of_range op : 0 <= nib1_of op < 16.
Proof. rewrite nib1_of_spec. apply Z.mod_pos_bound. lia. Qed.

Lemma regX_of_range op : 0 <= regX_of op < 16.
Proof. rewrite regX_of_spec. apply Z.mod_pos_bound. lia. Qed.

Lemma regY_of_range op : 0 <= regY_of op < 16.
Proof. rewrite regY_of_spec. apply Z.mod_pos_bound. lia. Qed.

Lemma nib4_of_range op : 0 <= nib4_of op < 16.
Proof. rewrite nib4_of_spec. apply Z.mod_pos_bound. lia. Qed.

Lemma addr_of_range op : 0 <= addr_of op < 4096.
Proof. rewrite addr_of_spec. apply Z.mod_pos_bound. lia. Qed.

Lemma val_of_range op : 0 <= val_of op < 256.
Proof. rewrite val_of_spec. apply Z.mod_pos_bound. lia. Qed.

(** ** Fetch *)

Lemma fetch_Some s op :
  wf s → fetch s = Some op → 0 <= pc s ∧ pc s + 1 < 4096.
Proof.
  intros ([HL _] & _) Hf. unfold fetch in Hf.
  destruct (get (memory s) (pc s)) as [hi|] eqn:E1; [|done]. simpl in Hf.
  destruct (get (memory s) (pc s + 1)) as [lo|] eqn:E2; [|done].
  apply get_Some_lt in E1, E2. lia.
Qed.

Lemma fetch_total s :
  wf s → 0 <= pc s → pc s + 1 < 4096 → is_Some (fetch s).
Proof.
  intros ([HL _] & _) H0 H1. unfold fetch.
  rewrite !get_total by lia. simpl. eauto.
Qed.

Lemma skip_pc s op : wf s → fetch s = Some op → pc (skip s) = pc s + 2.
Proof.
  intros Hwf Hf. destruct (fetch_Some s op Hwf Hf).
  unfold skip. simpl. apply u16_small. unfold word. lia.
Qed.

(** ** Timers *)

(** C7. One [UpdateTimers] call takes 1 off the delay timer when it is
    nonzero and leaves it at 0 otherwise, does the same, independently, for
    the sound timer, leaves both timers non-negative, and changes no other
    member of the state. *)
Theorem UpdateTimers_spec (s : Chip8) :
  byte (delay_timer s) → byte (sound_timer s) →
  let d := if delay_timer s =? 0 then 0 else delay_timer s - 1 in
  let t := if sound_timer s =? 0 then 0 else sound_timer s - 1 in
  UpdateTimers s =
    mkChip8 (memory s) (V s) (I s) (pc s) (sp s) (stack s) d t
            (keypad s) (display s) (drawFlag s)
  ∧ 0 <= d ∧ 0 <= t.
Proof.
  intros Hd Ht. destruct s as [m v i p k st d t kp dp df].
  unfold byte in *. simpl in *. unfold UpdateTimers. simpl.
  destruct (Z.eqb_spec d 0) as [->|Hd0], (Z.eqb_spec t 0) as [->|Ht0]; simpl.
  - repeat split; lia.
  - destruct (Z.gtb_spec t 0); [|lia]. simpl.
    rewrite u8_small by (unfold byte; lia). repeat split; lia.
  - destruct (Z.gtb_spec d 0); [|lia]. simpl.
    rewrite u8_small by (unfold byte; lia). repeat split; lia.
  - destruct (Z.gtb_spec d 0); [|lia]. simpl.
    destruct (Z.gtb_spec t 0); [|lia]. simpl.
    rewrite !u8_small by (unfold byte; lia). repeat split; lia.
Qed.

Lemma UpdateTimers_spec_witness :
  let s := set_sound_timer 0 (set_delay_timer 5 Chip8_new) in
  delay_timer (UpdateTimers s) = 4 ∧ sound_timer (UpdateTimers s) = 0.
Proof.
  intros s.
  destruct (UpdateTimers_spec s) as (E & _ & _); [by compute| by compute|].
  rewrite E. split; reflexivity.
Defined.

(** ** Reset and LoadROM *)

Lemma Reset_memory s : memory (Reset s) = fontset ++ zeros 4016.
Proof. by vm_compute. Qed.

Lemma Reset_wf s : wf (Reset s).
Proof. compute_done. Qed.

Lemma Reset_fields s :
  Reset s = mkChip8 (fontset ++ zeros 4016) (zeros 16) 0 START_ADDR 0
                    (zeros 16) 0 0 (zeros 16) (zeros 2048) false.
Proof. by vm_compute. Qed.

(** C3. An image of more than 3584 bytes makes [LoadROM] stop after its
    [Reset] with the "ROM too large" report: the state is the post-reset
    state, nothing of the image is in memory.  An image of at most 3584 bytes
    is loaded: memory from 0x200 on is the image followed by zeros, memory
    below 0x200 and every other member are as after [Reset]. *)
Theorem LoadROM_spec (img : list Z) (s : Chip8) :
  (Z.of_nat (length img) > 3584 →
     LoadROM (Some img) s = (Reset s, RomTooLarge)) ∧
  (Z.of_nat (length img) <= 3584 →
     ∃ s', LoadROM (Some img) s = (s', Loaded) ∧
       drop 512 (memory s') = img ++ zeros (3584 - Z.of_nat (length img)) ∧
       take 512 (memory s') = take 512 (memory (Reset s)) ∧
       (∀ i, (i < length img)%nat → memory s' !! (512 + i)%nat = img !! i) ∧
       s' = set_memory (memory s') (Reset s)).
Proof.
  split; intros Hlen; unfold LoadROM.
  - destruct (Z.gtb_spec (Z.of_nat (length img)) (MEMORY_SIZE - START_ADDR))
      as [_|Hle]; [done|].
    unfold MEMORY_SIZE, START_ADDR in Hle. lia.
  - destruct (Z.gtb_spec (Z.of_nat (length img)) (MEMORY_SIZE - START_ADDR))
      as [Hgt|_].
    { unfold MEMORY_SIZE, START_ADDR in Hgt. lia. }
    eexists. split; [reflexivity|].
    assert (Hdrop : drop 512 (memcpy (memory (Reset s)) START_ADDR img)
                    = img ++ zeros (3584 - Z.of_nat (length img))).
    { rewrite Reset_memory. unfold memcpy, START_ADDR.
      change (Z.to_nat 0x200) with 512%nat.
      rewrite drop_app_length'.
      2:{ rewrite length_take, length_app. unfold zeros.
          rewrite length_replicate. change (length fontset) with 80%nat. lia. }
      f_equal. rewrite drop_app_ge by (change (length fontset) with 80%nat; lia).
      unfold zeros. rewrite drop_replicate. f_equal.
      change (length fontset) with 80%nat. lia. }
    assert (Htake : take 512 (memcpy (memory (Reset s)) START_ADDR img)
                    = take 512 (memory (Reset s))).
    { unfold memcpy, START_ADDR. change (Z.to_nat 0x200) with 512%nat.
      rewrite take_app_length'; [done|].
      rewrite length_take, Reset_memory, length_app. unfold zeros.
      rewrite length_replicate. change (length fontset) with 80%nat. lia. }
    cbn [memory set_memory fst].
    split; [exact Hdrop|]. split; [exact Htake|]. split; [|done].
    intros i Hi. rewrite <- lookup_drop, Hdrop. by apply lookup_app_l.
Qed.

Lemma LoadROM_spec_witness :
  (LoadROM (Some (replicate 3585 7)) Chip8_new).2 = RomTooLarge ∧
  ∃ s', LoadROM (Some [0x12; 0x00]) Chip8_new = (s', Loaded) ∧
        memory s' !! 512%nat = Some 0x12 ∧ memory s' !! 513%nat = Some 0x00.
Proof.
  destruct (LoadROM_spec (replicate 3585 7) Chip8_new) as [Hbig _].
  destruct (LoadROM_spec [0x12; 0x00] Chip8_new) as [_ Hsmall].
  split.
  - rewrite Hbig; [done|]. rewrite length_replicate. lia.
  - destruct Hsmall as (s' & E & _ & _ & Hi & _); [simpl; lia|].
    exists s'. split; [exact E|].
    split; [apply (Hi 0%nat)|apply (Hi 1%nat)]; simpl; lia.
Defined.

(** ** Dispatch *)

Lemma Cycle_dispatch rnd s op :
  fetch s = Some op → Cycle rnd s = dispatch rnd op (skip s).
Proof. intros Hf. unfold Cycle. by rewrite Hf. Qed.

Lemma dispatch_0 rnd op s :
  nib1_of op = 0x0 → dispatch rnd op s = Opcode0xxx op s.
Proof. intros H. unfold dispatch. by rewrite H. Qed.

Lemma dispatch_5 rnd op s :
  nib1_of op = 0x5 → dispatch rnd op s = Opcode5xxx (regX_of op) (regY_of op) s.
Proof. intros H. unfold dispatch. by rewrite H. Qed.

Lemma dispatch_8 rnd op s :
  nib1_of op = 0x8 →
  dispatch rnd op s = Opcode8xxx (regX_of op) (regY_of op) (nib4_of op) s.
Proof. intros H. unfold dispatch. by rewrite H. Qed.

Lemma dispatch_9 rnd op s :
  nib1_of op = 0x9 → dispatch rnd op s = Opcode9xxx (regX_of op) (regY_of op) s.
Proof. intros H. unfold dispatch. by rewrite H. Qed.

Lemma dispatch_D rnd op s :
  nib1_of op = 0xD →
  dispatch rnd op s = OpcodeDxxx (regX_of op) (regY_of op) (nib4_of op) s.
Proof. intros H. unfold dispatch. by rewrite H. Qed.

Lemma dispatch_E rnd op s :
  nib1_of op = 0xE → dispatch rnd op s = OpcodeExxx (regX_of op) (val_of op) s.
Proof. intros H. unfold dispatch. by rewrite H. Qed.

Lemma dispatch_F rnd op s :
  nib1_of op = 0xF → dispatch rnd op s = OpcodeFxxx (regX_of op) (val_of op) s.
Proof. intros H. unfold dispatch. by rewrite H. Qed.

Lemma Vset_length r v s : length (V (Vset r v s)) = length (V s).
Proof. unfold Vset. simpl. apply length_insert. Qed.

Lemma wf_V_length s : wf s → length (V s) = 16%nat.
Proof. by intros (_ & [H _] & _). Qed.

(** ** Add with carry, [0x8XY4] *)

(** C6 (as the code has it).  [0x8XY4] stores [(V[X] + V[Y]) mod 256] in
    [V[X]] for every X and Y; when X is not 0xF the flag register [V[0xF]]
    ends as 1 if the sum exceeds 255 and as 0 otherwise; no other register
    and nothing else but [pc] (advanced by 2) changes.  When X is 0xF the
    sum, stored second, replaces the carry in [V[0xF]]. *)
Theorem add_carry_spec (rnd : Z) (s : Chip8) (op : Z) :
  wf s → fetch s = Some op → nib1_of op = 0x8 → nib4_of op = 0x4 →
  let X := regX_of op in
  let Y := regY_of op in
  let sum := Vget s X + Vget s Y in
  ∃ s', Cycle rnd s = Some s' ∧
    Vget s' X = sum mod 256 ∧
    (X ≠ 0xF → Vget s' 0xF = if sum >? 255 then 1 else 0) ∧
    (∀ r, 0 <= r < 16 → r ≠ X → r ≠ 0xF → Vget s' r = Vget s r) ∧
    s' = set_V (V s') (set_pc (pc s + 2) s).
Proof.
  intros Hwf Hf H1 H4 X Y sum.
  pose proof (regX_of_range op) as HX. fold X in HX.
  pose proof (regY_of_range op) as HY. fold Y in HY.
  pose proof (Vget_byte s X Hwf HX) as HvX.
  pose proof (Vget_byte s Y Hwf HY) as HvY.
  pose proof (wf_V_length s Hwf) as HL.
  pose proof (skip_pc s op Hwf Hf) as Hpc.
  rewrite (Cycle_dispatch _ _ _ Hf), dispatch_8 by done.
  unfold Opcode8xxx. rewrite H4. cbv beta iota delta [Z.eqb Pos.eqb].
  fold X Y. change (Vget (skip s) X) with (Vget s X).
  change (Vget (skip s) Y) with (Vget s Y). fold sum.
  unfold byte in HvX, HvY.
  assert (Hs16 : u16 sum = sum) by (apply u16_small; unfold word, sum; lia).
  assert (Hland : Z.land sum 0xFF = sum mod 256)
    by (change 0xFF with (Z.ones 8); by rewrite Z.land_ones by lia).
  rewrite Hs16, Hland.
  eexists. split; [reflexivity|].
  split; [|split; [|split]].
  - rewrite Vget_Vset_eq
      by (rewrite Vset_length; change (V (skip s)) with (V s); lia).
    unfold u8. by rewrite Z.mod_mod by lia.
  - intros HXF. rewrite Vget_Vset_ne by lia.
    rewrite Vget_Vset_eq by (change (V (skip s)) with (V s); lia).
    destruct (sum >? 255); by compute.
  - intros r Hr HrX HrF. rewrite !Vget_Vset_ne by lia. done.
  - rewrite <- Hpc. reflexivity.
Qed.

(** The instance of the specification: [V[0] = 0xFF], [V[1] = 0x01],
    opcode [0x8014]. *)
Lemma add_carry_spec_witness :
  let s := Vset 1 0x01 (Vset 0 0xFF (boot [0x80; 0x14])) in
  ∃ s', Cycle 0 s = Some s' ∧ Vget s' 0 = 0x00 ∧ Vget s' 0xF = 1.
Proof.
  intros s.
  destruct (add_carry_spec 0 s 0x8014) as (s' & E & HX & HF & _);
    [compute_done|by vm_compute|by vm_compute|by vm_compute|].
  exists s'. split; [exact E|]. split.
  - exact HX.
  - apply HF. by vm_compute.
Defined.

(** C6, where it fails: with X = 0xF the register that receives the sum is
    the flag register.  [V[0xF] = 0xFF], [V[0] = 0x01], opcode [0x8F04]: the
    sum is 256, above 255, and the flag register ends as 0. *)
Lemma add_carry_flag_overwritten :
  let s := Vset 0xF 0xFF (Vset 0 0x01 (boot [0x8F; 0x04])) in
  wf s ∧ fetch s = Some 0x8F04 ∧
  Vget s 0xF + Vget s 0 = 256 ∧
  ∃ s', Cycle 0 s = Some s' ∧ Vget s' 0xF = 0.
Proof.
  intros s. split; [compute_done|]. split; [by vm_compute|].
  split; [by vm_compute|]. eexists. split; [by vm_compute|]. by vm_compute.
Qed.

(** ** Instruction words outside the opcode table *)

Lemma skip_eq s op :
  wf s → fetch s = Some op → skip s = set_pc (pc s + 2) s.
Proof. intros Hwf Hf. rewrite <- (skip_pc s op Hwf Hf). reflexivity. Qed.

Lemma skip_skip_eq s op :
  wf s → fetch s = Some op → skip (skip s) = set_pc (pc s + 4) s.
Proof.
  intros Hwf Hf. destruct (fetch_Some s op Hwf Hf).
  rewrite (skip_eq s op Hwf Hf). unfold skip, set_pc. simpl.
  rewrite u16_small by (unfold word; lia). f_equal. lia.
Qed.

(** C1 (as the code has it).  A word outside the opcode table is a no-op
    that only advances [pc] by 2, except in classes 5 and 9: the handlers
    of [5XYN] and [9XYN] never look at the low nibble, so these words are
    the skip instructions [5XY0] and [9XY0] whatever N is, and advance [pc]
    by 4 when the skip is taken.  In every case nothing but [pc] changes. *)
Theorem unrecognized_spec (rnd : Z) (s : Chip8) (op : Z) :
  wf s → fetch s = Some op → recognized op = false →
  let X := regX_of op in
  let Y := regY_of op in
  (nib1_of op ≠ 0x5 → nib1_of op ≠ 0x9 →
     Cycle rnd s = Some (set_pc (pc s + 2) s)) ∧
  (nib1_of op = 0x5 →
     Cycle rnd s =
       Some (set_pc (pc s + (if Vget s X =? Vget s Y then 4 else 2)) s)) ∧
  (nib1_of op = 0x9 →
     Cycle rnd s =
       Some (set_pc (pc s + (if Vget s X =? Vget s Y then 2 else 4)) s)).
Proof.
  intros Hwf Hf Hrec X Y.
  pose proof (skip_eq s op Hwf Hf) as Hs2.
  pose proof (skip_skip_eq s op Hwf Hf) as Hs4.
  rewrite (Cycle_dispatch _ _ _ Hf).
  split; [|split].
  - intros H5 H9. pose proof (nib1_of_range op) as Hn.
    unfold recognized in Hrec.
    destruct (Z.eqb_spec (nib1_of op) 0x0) as [E|_].
    { rewrite dispatch_0 by done. unfold Opcode0xxx. orb_false Hrec.
      rewrite Hrec, Hrec0. by rewrite Hs2. }
    destruct (Z.eqb_spec (nib1_of op) 0x5) as [E|_]; [done|].
    destruct (Z.eqb_spec (nib1_of op) 0x8) as [E|_].
    { rewrite dispatch_8 by done. unfold Opcode8xxx. orb_false Hrec.
      apply Z.leb_gt in Hrec. apply Z.eqb_neq in Hrec0.
      eqb_false. by rewrite Hs2. }
    destruct (Z.eqb_spec (nib1_of op) 0x9) as [E|_]; [done|].
    destruct (Z.eqb_spec (nib1_of op) 0xE) as [E|_].
    { rewrite dispatch_E by done. unfold OpcodeExxx. orb_false Hrec.
      rewrite Hrec, Hrec0. simpl. by rewrite Hs2. }
    destruct (Z.eqb_spec (nib1_of op) 0xF) as [E|_]; [|done].
    rewrite dispatch_F by done. unfold OpcodeFxxx. orb_false Hrec.
    rewrite Hrec, Hrec0, Hrec1, Hrec2, Hrec3, Hrec4, Hrec5, Hrec6, Hrec7.
    by rewrite Hs2.
  - intros H5. rewrite dispatch_5 by done. unfold Opcode5xxx. fold X Y.
    change (Vget (skip s) X) with (Vget s X).
    change (Vget (skip s) Y) with (Vget s Y).
    destruct (Vget s X =? Vget s Y); by rewrite ?Hs4, ?Hs2.
  - intros H9. rewrite dispatch_9 by done. unfold Opcode9xxx. fold X Y.
    change (Vget (skip s) X) with (Vget s X).
    change (Vget (skip s) Y) with (Vget s Y).
    destruct (Vget s X =? Vget s Y); by rewrite ?Hs4, ?Hs2.
Qed.

Lemma unrecognized_spec_witness :
  Cycle 0 (boot [0x81; 0x28]) = Some (set_pc 0x202 (boot [0x81; 0x28])) ∧
  Cycle 0 (boot [0x50; 0x01]) = Some (set_pc 0x204 (boot [0x50; 0x01])).
Proof.
  split.
  - destruct (unrecognized_spec 0 (boot [0x81; 0x28]) 0x8128) as (H & _ & _);
      [compute_done|by vm_compute|by vm_compute|].
    apply H; by vm_compute.
  - destruct (unrecognized_spec 0 (boot [0x50; 0x01]) 0x5001) as (_ & H & _);
      [compute_done|by vm_compute|by vm_compute|].
    apply H; by vm_compute.
Defined.

(** C1, where it fails: [0x5001] is outside the opcode table, and on the
    post-reset machine, where [V[0] = V[0]], one [Cycle] advances [pc] by 4,
    from 0x200 to 0x204. *)
Lemma unrecognized_5XY1_skips :
  let s := boot [0x50; 0x01] in
  wf s ∧ fetch s = Some 0x5001 ∧ recognized 0x5001 = false ∧
  pc s = 0x200 ∧
  ∃ s', Cycle 0 s = Some s' ∧ pc s' = 0x204 ∧ s' ≠ set_pc (pc s + 2) s.
Proof.
  intros s. split; [compute_done|]. do 3 (split; [by vm_compute|]).
  eexists. split; [by vm_compute|]. split; [by vm_compute|].
  intros E. apply (f_equal pc) in E. vm_compute in E. discriminate.
Qed.

(** ** Well-formedness is preserved *)

Lemma wf_set_pc p s : word p → wf s → wf (set_pc p s).
Proof. unfold wf. simpl. tauto. Qed.

Lemma wf_set_I i s : word i → wf s → wf (set_I i s).
Proof. unfold wf. simpl. tauto. Qed.

Lemma wf_set_sp p s : byte p → wf s → wf (set_sp p s).
Proof. unfold wf. simpl. tauto. Qed.

Lemma wf_set_delay_timer t s : byte t → wf s → wf (set_delay_timer t s).
Proof. unfold wf. simpl. tauto. Qed.

Lemma wf_set_sound_timer t s : byte t → wf s → wf (set_sound_timer t s).
Proof. unfold wf. simpl. tauto. Qed.

Lemma wf_set_drawFlag b s : wf s → wf (set_drawFlag b s).
Proof. unfold wf. simpl. tauto. Qed.

Lemma wf_skip s : wf s → wf (skip s).
Proof. intros. apply wf_set_pc; [apply u16_word|done]. Qed.

Lemma wf_Vset r v s : wf s → wf (Vset r v s).
Proof.
  unfold wf, Vset. simpl. intros (Hm & [HL HV] & Hrest).
  split; [done|]. split; [|done]. split.
  - by rewrite length_insert.
  - apply Forall_insert; [done|apply u8_byte].
Qed.

Lemma wf_dset idx v s : bit v → wf s → wf (dset idx v s).
Proof.
  unfold wf, dset. simpl.
  intros Hv (Hm & HV' & Hr & Hst & Ht & Hk & [HL HD]).
  do 6 (split; [done|]). split.
  - by rewrite length_insert.
  - apply Forall_insert; [done|].
    rewrite u8_small; [done|]. unfold bit, byte in *. lia.
Qed.

Lemma wf_put_memory s i v m :
  wf s → byte v → put (memory s) i v = Some m → wf (set_memory m s).
Proof.
  unfold wf, put. simpl. intros ([HL HM] & Hrest) Hv Hp.
  destruct ((0 <=? i) && (i <? Z.of_nat (length (memory s)))); [|done].
  injection Hp as <-. split; [|done]. split.
  - by rewrite length_insert.
  - by apply Forall_insert.
Qed.

Lemma wf_put_stack s i v k :
  wf s → word v → put (stack s) i v = Some k → wf (set_stack k s).
Proof.
  unfold wf, put. simpl. intros (Hm & HV' & Hr & [HL HS] & Hrest) Hv Hp.
  destruct ((0 <=? i) && (i <? Z.of_nat (length (stack s)))); [|done].
  injection Hp as <-. do 3 (split; [done|]). split; [|done]. split.
  - by rewrite length_insert.
  - by apply Forall_insert.
Qed.

Lemma wf_zero_display s :
  wf s → wf (set_display (zeros (DISPLAY_WIDTH * DISPLAY_HEIGHT)) s).
Proof.
  unfold wf. fields. intros (Hm & HV' & Hr & Hst & Ht & Hk & _).
  do 6 (split; [done|]). split.
  - unfold zeros. by rewrite length_replicate.
  - unfold zeros. apply Forall_replicate. unfold bit. lia.
Qed.

Lemma wf_word_pc s : wf s → word (pc s).
Proof. by intros (_ & _ & (_ & H & _) & _). Qed.

Lemma wf_word_I s : wf s → word (I s).
Proof. by intros (_ & _ & (H & _ & _) & _). Qed.

Lemma wf_memory_length s : wf s → length (memory s) = 4096%nat.
Proof. by intros ([H _] & _). Qed.

Lemma wf_keypad_length s : wf s → length (keypad s) = 16%nat.
Proof. by intros (_ & _ & _ & _ & _ & [H _] & _). Qed.

Lemma wf_display_length s : wf s → length (display s) = 2048%nat.
Proof. by intros (_ & _ & _ & _ & _ & _ & [H _]). Qed.

Lemma wf_get_memory s i b : wf s → get (memory s) i = Some b → byte b.
Proof.
  intros ([_ HM] & _). unfold get. destruct (0 <=? i); [|done].
  intros Hb. by eapply Forall_lookup_1.
Qed.

Lemma wf_get_stack s i a : wf s → get (stack s) i = Some a → word a.
Proof.
  intros (_ & _ & _ & [_ HS] & _). unfold get. destruct (0 <=? i); [|done].
  intros Ha. by eapply Forall_lookup_1.
Qed.

Lemma dget_bit s idx :
  wf s → 0 <= idx < 2048 → dget s idx = 0 ∨ dget s idx = 1.
Proof.
  intros (_ & _ & _ & _ & _ & _ & [HL HD]) Hi.
  assert (bit (dget s idx)) as Hb
    by (unfold dget; apply Forall_total; [done|lia]).
  unfold bit in Hb. lia.
Qed.

Lemma Vget_byte_any s r : wf s → 0 <= Vget s r < 256.
Proof.
  intros Hwf. destruct (decide (0 <= r < 16)) as [Hr|Hr].
  - by apply Vget_byte.
  - pose proof (wf_V_length s Hwf) as HL. unfold Vget.
    destruct (Z.to_nat r <? length (V s))%nat eqn:E.
    + apply Nat.ltb_lt in E.
      destruct Hwf as (_ & [_ HV] & _).
      by apply (Forall_total byte).
    + apply Nat.ltb_ge in E.
      rewrite list_lookup_total_alt, lookup_ge_None_2 by lia.
      simpl. lia.
Qed.

(** ** What the loops leave alone *)

Lemma frameVD_eq s s' :
  frameVD s' = frameVD s → s' = set_display (display s') (set_V (V s') s).
Proof. destruct s, s'. unfold frameVD. fields. by intros [= -> -> -> -> -> -> -> -> ->]. Qed.

Lemma frameV_eq s s' : frameV s' = frameV s → s' = set_V (V s') s.
Proof. destruct s, s'. unfold frameV. fields. by intros [= -> -> -> -> -> -> -> -> -> ->]. Qed.

Lemma frameM_eq s s' : frameM s' = frameM s → s' = set_memory (memory s') s.
Proof. destruct s, s'. unfold frameM. fields. by intros [= -> -> -> -> -> -> -> -> -> ->]. Qed.

Lemma frameVD_I s s' : frameVD s' = frameVD s → I s' = I s.
Proof. intros H. by apply (f_equal I) in H. Qed.

Lemma frameVD_memory s s' : frameVD s' = frameVD s → memory s' = memory s.
Proof. intros H. by apply (f_equal memory) in H. Qed.

Lemma draw_cols_frame n col x y row b s :
  frameVD (draw_cols n col x y row b s) = frameVD s.
Proof.
  revert col s. induction n as [|n IH]; intros col s; [done|].
  cbn [draw_cols]. destruct (x + col >=? DISPLAY_WIDTH); [done|].
  destruct (Z.land (Z.shiftr b (7 - col)) 1 =? 0); [apply IH|].
  rewrite IH. by destruct (dget s _ =? 1).
Qed.

Lemma draw_rows_frame n row x y s s' :
  draw_rows n row x y s = Some s' → frameVD s' = frameVD s.
Proof.
  revert row s. induction n as [|n IH]; intros row s; cbn [draw_rows].
  { by intros [= ->]. }
  destruct (y + row >=? DISPLAY_HEIGHT); [by intros [= ->]|].
  destruct (get (memory s) (I s + row)) as [b|]; [|done]. cbn [mbind option_bind].
  intros H. apply IH in H. rewrite H. apply draw_cols_frame.
Qed.

Lemma store_regs_frame n i s s' :
  store_regs n i s = Some s' → frameM s' = frameM s.
Proof.
  revert i s. induction n as [|n IH]; intros i s; cbn [store_regs].
  { by intros [= ->]. }
  destruct (put (memory s) (I s + i) (Vget s i)) as [m|]; [|done].
  cbn [mbind option_bind]. intros H. by apply IH in H.
Qed.

Lemma load_regs_frame n i s s' :
  load_regs n i s = Some s' → frameV s' = frameV s.
Proof.
  revert i s. induction n as [|n IH]; intros i s; cbn [load_regs].
  { by intros [= ->]. }
  destruct (get (memory s) (I s + i)) as [b|]; [|done].
  cbn [mbind option_bind]. intros H. by apply IH in H.
Qed.

Lemma scan_keys_frame n i reg s s' b :
  scan_keys n i reg s = Some (s', b) → frameV s' = frameV s.
Proof.
  revert i. induction n as [|n IH]; intros i; cbn [scan_keys].
  { by intros [= -> _]. }
  destruct (get (keypad s) i) as [k|]; [|done]. cbn [mbind option_bind].
  destruct (k =? 0); [apply IH|]. by intros [= <- _].
Qed.

(** ** The loops preserve well-formedness *)

Lemma lxor_bit d : d = 0 ∨ d = 1 → bit (Z.lxor d 1).
Proof. intros [-> | ->]; compute; split; congruence. Qed.

Lemma draw_cols_wf n col x y row b s :
  wf s → 0 <= x → 0 <= col → 0 <= y + row < 32 →
  wf (draw_cols n col x y row b s).
Proof.
  revert col s. induction n as [|n IH]; intros col s Hwf Hx Hc Hy; [done|].
  cbn [draw_cols]. unfold DISPLAY_WIDTH.
  destruct (Z.geb_spec (x + col) 64) as [|Hlt]; [done|].
  apply IH; [|lia..].
  destruct (Z.land (Z.shiftr b (7 - col)) 1 =? 0); [done|].
  set (idx := (y + row) * 64 + (x + col)).
  assert (0 <= idx < 2048) as Hidx by (unfold idx; lia).
  apply wf_dset.
  - apply lxor_bit.
    destruct (dget s idx =? 1).
    + change (dget (Vset 15 1 s) idx) with (dget s idx). by apply dget_bit.
    + by apply dget_bit.
  - destruct (dget s idx =? 1); [by apply wf_Vset|done].
Qed.

Lemma draw_rows_wf n row x y s s' :
  wf s → 0 <= x → 0 <= y → 0 <= row →
  draw_rows n row x y s = Some s' → wf s'.
Proof.
  revert row s. induction n as [|n IH]; intros row s Hwf Hx Hy Hr;
    cbn [draw_rows].
  { by intros [= <-]. }
  unfold DISPLAY_HEIGHT.
  destruct (Z.geb_spec (y + row) 32) as [|Hlt]; [by intros [= <-]|].
  destruct (get (memory s) (I s + row)) as [b|]; [|done].
  cbn [mbind option_bind]. apply IH; [|lia..].
  apply draw_cols_wf; [done|lia..].
Qed.

Lemma store_regs_wf n i s s' :
  wf s → store_regs n i s = Some s' → wf s'.
Proof.
  revert i s. induction n as [|n IH]; intros i s Hwf; cbn [store_regs].
  { by intros [= <-]. }
  destruct (put (memory s) (I s + i) (Vget s i)) as [m|] eqn:E; [|done].
  cbn [mbind option_bind]. apply IH.
  eapply wf_put_memory; [done| |exact E]. by apply Vget_byte_any.
Qed.

Lemma load_regs_wf n i s s' :
  wf s → load_regs n i s = Some s' → wf s'.
Proof.
  revert i s. induction n as [|n IH]; intros i s Hwf; cbn [load_regs].
  { by intros [= <-]. }
  destruct (get (memory s) (I s + i)) as [b|]; [|done].
  cbn [mbind option_bind]. apply IH. by apply wf_Vset.
Qed.

Lemma scan_keys_wf n i reg s s' b :
  wf s → scan_keys n i reg s = Some (s', b) → wf s'.
Proof.
  intros Hwf. revert i. induction n as [|n IH]; intros i; cbn [scan_keys].
  { by intros [= <- _]. }
  destruct (get (keypad s) i) as [k|]; [|done]. cbn [mbind option_bind].
  destruct (k =? 0); [apply IH|]. intros [= <- _]. by apply wf_Vset.
Qed.

(** ** Every handler preserves well-formedness *)

Lemma Opcode0xxx_wf op s s' : wf s → Opcode0xxx op s = Some s' → wf s'.
Proof.
  intros Hwf. unfold Opcode0xxx.
  destruct (op =? 224).
  { intros [= <-]. by apply wf_set_drawFlag, wf_zero_display. }
  destruct (op =? 238); [|by intros [= <-]].
  fields.
  destruct (get (stack s) (u8 (sp s - 1))) as [a|] eqn:E; [|done].
  cbn [mbind option_bind]. intros [= <-].
  apply wf_set_pc; [by eapply wf_get_stack|].
  apply wf_set_sp; [apply u8_byte|done].
Qed.

Lemma Opcode2xxx_wf addr s s' :
  wf s → 0 <= addr < 4096 → Opcode2xxx addr s = Some s' → wf s'.
Proof.
  intros Hwf Ha. unfold Opcode2xxx.
  destruct (put (stack s) (sp s) (pc s)) as [k|] eqn:E; [|done].
  cbn [mbind option_bind]. intros [= <-].
  apply wf_set_pc; [unfold word; lia|].
  apply wf_set_sp; [apply u8_byte|].
  eapply wf_put_stack; [done| |exact E]. by apply wf_word_pc.
Qed.

Lemma Opcode8xxx_wf x y n s s' : wf s → Opcode8xxx x y n s = Some s' → wf s'.
Proof.
  intros Hwf. unfold Opcode8xxx.
  repeat match goal with
         | |- context [if ?c then _ else _] =>
             destruct c; [intros [= <-]; by repeat apply wf_Vset|]
         end.
  by intros [= <-].
Qed.

Lemma OpcodeDxxx_wf x y n s s' : wf s → OpcodeDxxx x y n s = Some s' → wf s'.
Proof.
  intros Hwf. unfold OpcodeDxxx.
  destruct (draw_rows _ _ _ _ _) as [s1|] eqn:E; [|done].
  cbn [mbind option_bind]. intros [= <-]. apply wf_set_drawFlag.
  eapply draw_rows_wf; [by apply wf_Vset| | | |exact E];
    [apply u8_byte|apply u8_byte|lia].
Qed.

Lemma OpcodeExxx_wf r n s s' : wf s → OpcodeExxx r n s = Some s' → wf s'.
Proof.
  intros Hwf. unfold OpcodeExxx.
  destruct (n =? 158).
  - destruct (get (keypad s) (Vget s r)) as [k|]; [|done].
    cbn [mbind option_bind]. destruct (negb (k =? 0)).
    + intros [= <-]. by apply wf_skip.
    + destruct (n =? 161); cbn [mbind option_bind].
      * destruct (k =? 0); intros [= <-]; [by apply wf_skip|done].
      * by intros [= <-].
  - cbn [mbind option_bind]. destruct (n =? 161).
    + destruct (get (keypad s) (Vget s r)) as [k|]; [|done].
      cbn [mbind option_bind].
      destruct (k =? 0); intros [= <-]; [by apply wf_skip|done].
    + cbn [mbind option_bind]. by intros [= <-].
Qed.

Lemma OpcodeFxxx_wf r n s s' : wf s → OpcodeFxxx r n s = Some s' → wf s'.
Proof.
  intros Hwf. unfold OpcodeFxxx.
  pose proof (Vget_byte_any s r Hwf) as Hv.
  destruct (n =? 7); [intros [= <-]; by apply wf_Vset|].
  destruct (n =? 10).
  { destruct (scan_keys 16 0 r s) as [[s1 b]|] eqn:E; [|done].
    cbn [mbind option_bind]. intros [= <-].
    apply scan_keys_wf in E; [|done].
    destruct b; [done|]. apply wf_set_pc; [apply u16_word|done]. }
  destruct (n =? 21); [intros [= <-]; by apply wf_set_delay_timer|].
  destruct (n =? 24); [intros [= <-]; by apply wf_set_sound_timer|].
  destruct (n =? 30); [intros [= <-]; apply wf_set_I; [apply u16_word|done]|].
  destruct (n =? 41); [intros [= <-]; apply wf_set_I; [apply u16_word|done]|].
  destruct (n =? 51).
  { destruct (put (memory s) (I s) _) as [m1|] eqn:E1; [|done].
    cbn [mbind option_bind].
    assert (wf (set_memory m1 s)) as Hwf1.
    { eapply wf_put_memory; [done| |exact E1].
      unfold byte. split; [apply Z.div_pos; lia|].
      apply Z.div_lt_upper_bound; lia. }
    destruct (put (memory (set_memory m1 s)) _ _) as [m2|] eqn:E2; [|done].
    cbn [mbind option_bind].
    assert (wf (set_memory m2 (set_memory m1 s))) as Hwf2.
    { eapply wf_put_memory; [done| |exact E2].
      unfold byte. pose proof (Z.mod_pos_bound (Vget (set_memory m1 s) r / 10) 10).
      lia. }
    destruct (put (memory (set_memory m2 _)) _ _) as [m3|] eqn:E3; [|done].
    cbn [mbind option_bind]. intros [= <-].
    eapply wf_put_memory; [exact Hwf2| |exact E3].
    unfold byte.
    pose proof (Z.mod_pos_bound (Vget (set_memory m2 (set_memory m1 s)) r) 10).
    lia. }
  destruct (n =? 85); [by apply store_regs_wf|].
  destruct (n =? 101); [by apply load_regs_wf|].
  by intros [= <-].
Qed.

Lemma dispatch_wf rnd op s s' : wf s → dispatch rnd op s = Some s' → wf s'.
Proof.
  intros Hwf. unfold dispatch.
  pose proof (addr_of_range op) as Ha.
  destruct (nib1_of op =? 0); [by apply Opcode0xxx_wf|].
  destruct (nib1_of op =? 1).
  { intros [= <-]. apply wf_set_pc; [unfold word; lia|done]. }
  destruct (nib1_of op =? 2); [by apply Opcode2xxx_wf|].
  destruct (nib1_of op =? 3).
  { unfold Opcode3xxx. intros [= <-].
    destruct (_ =? _); [by apply wf_skip|done]. }
  destruct (nib1_of op =? 4).
  { unfold Opcode4xxx. intros [= <-].
    destruct (_ =? _); [done|by apply wf_skip]. }
  destruct (nib1_of op =? 5).
  { unfold Opcode5xxx. intros [= <-].
    destruct (_ =? _); [by apply wf_skip|done]. }
  destruct (nib1_of op =? 6); [intros [= <-]; by apply wf_Vset|].
  destruct (nib1_of op =? 7); [intros [= <-]; by apply wf_Vset|].
  destruct (nib1_of op =? 8); [by apply Opcode8xxx_wf|].
  destruct (nib1_of op =? 9).
  { unfold Opcode9xxx. intros [= <-].
    destruct (_ =? _); [done|by apply wf_skip]. }
  destruct (nib1_of op =? 10).
  { intros [= <-]. apply wf_set_I; [unfold word; lia|done]. }
  destruct (nib1_of op =? 11).
  { intros [= <-]. apply wf_set_pc; [apply u16_word|done]. }
  destruct (nib1_of op =? 12); [intros [= <-]; by apply wf_Vset|].
  destruct (nib1_of op =? 13); [by apply OpcodeDxxx_wf|].
  destruct (nib1_of op =? 14); [by apply OpcodeExxx_wf|].
  destruct (nib1_of op =? 15); [by apply OpcodeFxxx_wf|].
  by intros [= <-].
Qed.

(** The invariant of the interpreter: a defined [Cycle] of a well-formed
    state is well-formed. *)
Lemma Cycle_wf rnd s s' : wf s → Cycle rnd s = Some s' → wf s'.
Proof.
  intros Hwf. unfold Cycle. destruct (fetch s) as [op|]; [|done].
  cbn [mbind option_bind]. apply dispatch_wf. by apply wf_skip.
Qed.

(** ** Width of the address registers *)

(** C2 (as the code has it).  [pc] and [I] are [uint16_t] and nothing masks
    them to 12 bits: after every defined [Cycle] of a well-formed state both
    lie in 0x0000-0xFFFF; the fetch-time advance computes [pc + 2] modulo
    0x10000 and [0xFX1E] computes [I + V[X]] modulo 0x10000. *)
Theorem address_width_spec (rnd : Z) (s : Chip8) :
  wf s →
  (∀ s', Cycle rnd s = Some s' →
         0 <= pc s' <= 0xFFFF ∧ 0 <= I s' <= 0xFFFF) ∧
  pc (skip s) = (pc s + 2) mod 0x10000 ∧
  (∀ op, fetch s = Some op → nib1_of op = 0xF → val_of op = 0x1E →
         Cycle rnd s =
           Some (set_I ((I s + Vget s (regX_of op)) mod 0x10000)
                       (set_pc (pc s + 2) s))).
Proof.
  intros Hwf. split; [|split].
  - intros s' Hc. pose proof (Cycle_wf _ _ _ Hwf Hc) as Hwf'.
    pose proof (wf_word_pc s' Hwf'). pose proof (wf_word_I s' Hwf').
    unfold word in *. lia.
  - reflexivity.
  - intros op Hf H1 Hv.
    rewrite (Cycle_dispatch _ _ _ Hf), dispatch_F by done.
    unfold OpcodeFxxx. rewrite Hv. cbn [Z.eqb Pos.eqb].
    by rewrite (skip_eq s op Hwf Hf).
Qed.

Lemma address_width_spec_witness :
  let s := set_I 0xFFFF (Vset 0 2 (boot [0xF0; 0x1E])) in
  ∃ s', Cycle 0 s = Some s' ∧ I s' = 1 ∧ pc s' = 0x202.
Proof.
  intros s.
  destruct (address_width_spec 0 s) as (_ & _ & H); [compute_done|].
  eexists. split; [apply (H 0xF01E); by vm_compute|].
  split; by vm_compute.
Defined.

(** C2, where it fails.  The program [AFFF 6001 F01E] sets [I] to 0xFFF and
    adds 1: [I] ends as 0x1000.  The program [1FFE] jumps to 0xFFE, where
    memory holds [0000]: after that word [pc] is 0x1000.  Both are above
    0xFFF. *)
Lemma address_above_0xFFF :
  (∃ s', Cycles 0 3 (boot [0xAF; 0xFF; 0x60; 0x01; 0xF0; 0x1E]) = Some s'
         ∧ I s' = 0x1000 ∧ ¬ I s' <= 0xFFF) ∧
  (∃ s', Cycles 0 2 (boot [0x1F; 0xFE]) = Some s'
         ∧ pc s' = 0x1000 ∧ ¬ pc s' <= 0xFFF).
Proof.
  split; eexists; (split; [by vm_compute|]); split; by vm_compute.
Qed.

(** ** The keypad: key wait and key skips *)

Lemma scan_keys_none n i reg s :
  wf s → 0 <= i → i + Z.of_nat n <= 16 →
  (∀ j, i <= j < i + Z.of_nat n → keypad s !!! Z.to_nat j = 0) →
  scan_keys n i reg s = Some (s, false).
Proof.
  intros Hwf. pose proof (wf_keypad_length s Hwf) as HL.
  revert i. induction n as [|n IH]; intros i Hi Hn Hz; [done|].
  cbn [scan_keys]. rewrite get_total by lia. cbn [mbind option_bind].
  rewrite Hz by lia. cbn [Z.eqb]. apply IH; [lia..|].
  intros j Hj. apply Hz. lia.
Qed.

Lemma scan_keys_first n i k reg s :
  wf s → 0 <= i → i <= k < i + Z.of_nat n → i + Z.of_nat n <= 16 →
  keypad s !!! Z.to_nat k ≠ 0 →
  (∀ j, i <= j < k → keypad s !!! Z.to_nat j = 0) →
  scan_keys n i reg s = Some (Vset reg k s, true).
Proof.
  intros Hwf. pose proof (wf_keypad_length s Hwf) as HL.
  revert i. induction n as [|n IH]; intros i Hi Hk Hn Hnz Hz; [lia|].
  cbn [scan_keys]. rewrite get_total by lia. cbn [mbind option_bind].
  destruct (decide (i = k)) as [->|Hne].
  - by rewrite (proj2 (Z.eqb_neq _ _) Hnz).
  - rewrite Hz by lia. cbn [Z.eqb]. apply IH; [lia..|done|].
    intros j Hj. apply Hz. lia.
Qed.

Lemma scan_keys_total n i reg s :
  wf s → 0 <= i → i + Z.of_nat n <= 16 → is_Some (scan_keys n i reg s).
Proof.
  intros Hwf. pose proof (wf_keypad_length s Hwf) as HL.
  revert i. induction n as [|n IH]; intros i Hi Hn; [by eexists|].
  cbn [scan_keys]. rewrite get_total by lia. cbn [mbind option_bind].
  destruct (_ =? 0); [apply IH; lia|by eexists].
Qed.

Lemma Cycles_fixed rnd s n : Cycle rnd s = Some s → Cycles rnd n s = Some s.
Proof.
  intros Hc. induction n as [|n IH]; [done|].
  cbn [Cycles]. rewrite Hc. exact IH.
Qed.

Lemma set_pc_skip_back s op :
  wf s → fetch s = Some op → set_pc (u16 (pc (skip s) - 2)) (skip s) = s.
Proof.
  intros Hwf Hf. rewrite (skip_pc s op Hwf Hf).
  destruct (fetch_Some s op Hwf Hf).
  replace (pc s + 2 - 2) with (pc s) by lia.
  rewrite u16_small by (unfold word; lia). by destruct s.
Qed.

Lemma fetch_set_keypad k s : fetch (set_keypad k s) = fetch s.
Proof. reflexivity. Qed.

(** C5.  Let [pc] address a [0xFX0A] word.  While every key of the keypad
    is up, [Cycle] returns the state it was given, so any number of cycles
    leaves the state, [pc] included, where it was.  When some key is down,
    one [Cycle] stores the index of the lowest such key in [V[X]] and leaves
    [pc] 2 past the instruction, changing nothing else; in particular this
    is what the first [Cycle] after a [SetKey] that ends the wait does. *)
Theorem key_wait_spec (rnd : Z) (s : Chip8) (op : Z) :
  wf s → fetch s = Some op → nib1_of op = 0xF → val_of op = 0x0A →
  let X := regX_of op in
  ((∀ i, 0 <= i < 16 → keypad s !!! Z.to_nat i = 0) →
     Cycle rnd s = Some s ∧ ∀ n, Cycles rnd n s = Some s) ∧
  (∀ k, 0 <= k < 16 → keypad s !!! Z.to_nat k ≠ 0 →
        (∀ i, 0 <= i < k → keypad s !!! Z.to_nat i = 0) →
        Cycle rnd s = Some (Vset X k (set_pc (pc s + 2) s))) ∧
  ((∀ i, 0 <= i < 16 → keypad s !!! Z.to_nat i = 0) →
     ∀ n k, 0 <= k < 16 →
       ∃ s1 s2, Cycles rnd n s = Some s ∧ SetKey k true s = Some s1 ∧
                Cycle rnd s1 = Some s2 ∧
                Vget s2 X = k ∧ pc s2 = pc s + 2).
Proof.
  intros Hwf Hf H1 Hv X.
  assert (Hspin : (∀ i, 0 <= i < 16 → keypad s !!! Z.to_nat i = 0) →
                  Cycle rnd s = Some s).
  { intros Hup.
    rewrite (Cycle_dispatch _ _ _ Hf), dispatch_F by done.
    unfold OpcodeFxxx. rewrite Hv. cbn [Z.eqb Pos.eqb].
    rewrite scan_keys_none; [|by apply wf_skip|lia|simpl; lia|].
    - cbn [mbind option_bind]. by rewrite (set_pc_skip_back s op).
    - intros j Hj. apply Hup. simpl in Hj. lia. }
  assert (Hkey : ∀ s, wf s → fetch s = Some op →
            ∀ k, 0 <= k < 16 → keypad s !!! Z.to_nat k ≠ 0 →
            (∀ i, 0 <= i < k → keypad s !!! Z.to_nat i = 0) →
            Cycle rnd s = Some (Vset X k (set_pc (pc s + 2) s))).
  { clear dependent s. intros s Hwf Hf k Hk Hdown Hup.
    rewrite (Cycle_dispatch _ _ _ Hf), dispatch_F by done.
    unfold OpcodeFxxx. rewrite Hv. cbn [Z.eqb Pos.eqb].
    rewrite (scan_keys_first 16 0 k); [|by apply wf_skip|lia|simpl; lia|simpl; lia|done|].
    - cbn [mbind option_bind]. by rewrite (skip_eq s op Hwf Hf).
    - intros j Hj. apply Hup. lia. }
  split; [|split].
  - intros Hup. split; [by apply Hspin|].
    intros n. by apply Cycles_fixed, Hspin.
  - by apply Hkey.
  - intros Hup n k Hk.
    pose proof (wf_keypad_length s Hwf) as HL.
    assert (SetKey k true s
            = Some (set_keypad (<[Z.to_nat k := 1]> (keypad s)) s)) as Hset.
    { unfold SetKey. by rewrite put_Some by lia. }
    set (s1 := set_keypad (<[Z.to_nat k := 1]> (keypad s)) s) in *.
    assert (wf s1) as Hwf1.
    { destruct Hwf as (Hm & HV' & Hr & Hst & Ht & [HkL HkB] & Hd).
      unfold wf, s1. fields. do 5 (split; [done|]). split; [|done]. split.
      - by rewrite length_insert.
      - apply Forall_insert; [done|]. unfold byte. lia. }
    exists s1, (Vset X k (set_pc (pc s1 + 2) s1)).
    split; [by apply Cycles_fixed, Hspin|]. split; [done|]. split.
    + apply Hkey; [done|done|done| |].
      * unfold s1. fields.
        rewrite list_lookup_total_insert_eq by lia. done.
      * intros i Hi. unfold s1. fields.
        rewrite list_lookup_total_insert_ne by lia. apply Hup. lia.
    + pose proof (regX_of_range op) as HX. fold X in HX. split.
      * rewrite Vget_Vset_eq.
        -- apply u8_small. unfold byte. lia.
        -- unfold s1. fields. rewrite (wf_V_length s Hwf). lia.
      * reflexivity.
Qed.

Lemma key_wait_spec_witness :
  let s := boot [0xF3; 0x0A] in
  Cycles 0 7 s = Some s ∧
  ∃ s1 s2, SetKey 5 true s = Some s1 ∧ Cycle 0 s1 = Some s2 ∧
           Vget s2 3 = 5 ∧ pc s2 = 0x202.
Proof.
  intros s.
  destruct (key_wait_spec 0 s 0xF30A) as (Hspin & _ & Hend);
    [compute_done|by vm_compute|by vm_compute|by vm_compute|].
  assert (∀ i, 0 <= i < 16 → keypad s !!! Z.to_nat i = 0) as Hup.
  { intros i Hi.
    assert (i = 0 ∨ i = 1 ∨ i = 2 ∨ i = 3 ∨ i = 4 ∨ i = 5 ∨ i = 6 ∨ i = 7 ∨
            i = 8 ∨ i = 9 ∨ i = 10 ∨ i = 11 ∨ i = 12 ∨ i = 13 ∨ i = 14 ∨
            i = 15) as Hcases by lia.
    repeat destruct Hcases as [->|Hcases]; try subst i; by vm_compute. }
  split; [by apply Hspin|].
  destruct (Hend Hup 0%nat 5) as (s1 & s2 & _ & E1 & E2 & HV' & Hpc); [lia|].
  exists s1, s2. by repeat split.
Defined.

(** C10.  [0xEX9E] and [0xEXA1] read [keypad[V[X]]] with all eight bits of
    [V[X]]: the [Cycle] is defined exactly when [V[X] <= 0xF].  [0xFX0A]
    reads [keypad[0]] to [keypad[15]] at most and is defined in every
    well-formed state. *)
Theorem keypad_bounds_spec (rnd : Z) (s : Chip8) (op : Z) :
  wf s → fetch s = Some op →
  (nib1_of op = 0xE → val_of op = 0x9E ∨ val_of op = 0xA1 →
     (is_Some (Cycle rnd s) ↔ Vget s (regX_of op) <= 0xF) ∧
     (Vget s (regX_of op) <= 0xF →
        is_Some (get (keypad s) (Vget s (regX_of op))))) ∧
  (nib1_of op = 0xF → val_of op = 0x0A → is_Some (Cycle rnd s)).
Proof.
  intros Hwf Hf. pose proof (wf_keypad_length s Hwf) as HL.
  rewrite (Cycle_dispatch _ _ _ Hf). split.
  - intros H1 Hv. rewrite dispatch_E by done.
    pose proof (Vget_byte s _ Hwf (regX_of_range op)) as Hb. unfold byte in Hb.
    set (X := regX_of op) in *.
    assert (Hget : Vget s X <= 15 → is_Some (get (keypad s) (Vget s X)))
      by (intros; apply get_is_Some; lia).
    split; [|done].
    unfold OpcodeExxx. change (Vget (skip s) X) with (Vget s X).
    change (keypad (skip s)) with (keypad s).
    destruct (decide (Vget s X <= 15)) as [Hin|Hout].
    + destruct (Hget Hin) as [k Hk]. rewrite Hk.
      split; [done|]. intros _.
      destruct Hv as [-> | ->]; cbn [Z.eqb Pos.eqb mbind option_bind];
        repeat (destruct (_ : bool); cbn [mbind option_bind negb]);
        by eexists.
    + rewrite get_None by lia.
      split; [|lia]. intros [s' Hs']. exfalso.
      destruct Hv as [Hv|Hv]; rewrite Hv in Hs'; by vm_compute in Hs'.
  - intros H1 Hv. rewrite dispatch_F by done.
    unfold OpcodeFxxx. rewrite Hv. cbn [Z.eqb Pos.eqb].
    destruct (scan_keys_total 16 0 (regX_of op) (skip s)) as [[s1 b] E];
      [by apply wf_skip|lia|simpl; lia|].
    rewrite E. cbn [mbind option_bind]. by eexists.
Qed.

Lemma keypad_bounds_spec_witness :
  let s := Vset 2 0x10 (boot [0xE2; 0x9E]) in
  Cycle 0 s = None ∧ is_Some (Cycle 0 (boot [0xE2; 0xA1])) ∧
  is_Some (Cycle 0 (boot [0xF2; 0x0A])).
Proof.
  intros s. split; [|split].
  - destruct (keypad_bounds_spec 0 s 0xE29E) as [H _];
      [compute_done|by vm_compute|].
    destruct H as [[H _] _]; [by vm_compute|left; by vm_compute|].
    destruct (Cycle 0 s) as [s'|] eqn:E; [|done].
    exfalso. assert (Vget s (regX_of 0xE29E) <= 15) as Hle by (apply H; eauto).
    by vm_compute in Hle.
  - destruct (keypad_bounds_spec 0 (boot [0xE2; 0xA1]) 0xE2A1) as [H _];
      [compute_done|by vm_compute|].
    destruct H as [[_ H] _]; [by vm_compute|right; by vm_compute|].
    apply H. by vm_compute.
  - destruct (keypad_bounds_spec 0 (boot [0xF2; 0x0A]) 0xF20A) as [_ H];
      [compute_done|by vm_compute|].
    apply H; by vm_compute.
Defined.

(** ** The draw opcode, [0xDXYN] *)

Lemma pixel_testbit b k :
  0 <= k → (Z.land (Z.shiftr b k) 1 =? 0) = negb (Z.testbit b k).
Proof.
  intros Hk. change 1 with (Z.ones 1) at 1. rewrite Z.land_ones by lia.
  change (2 ^ 1) with 2. rewrite <- Z.bit0_mod, Z.shiftr_spec by lia.
  rewrite Z.add_0_l. by destruct (Z.testbit b k).
Qed.

Lemma dget_dset idx v k s :
  0 <= idx < Z.of_nat (length (display s)) → 0 <= k →
  dget (dset idx v s) k = if decide (k = idx) then u8 v else dget s k.
Proof.
  intros Hi Hk. unfold dget, dset. fields.
  destruct (decide (k = idx)) as [->|Hne].
  - apply list_lookup_total_insert_eq. lia.
  - apply list_lookup_total_insert_ne. lia.
Qed.

Lemma cols_bit_empty b x y row col cx cy :
  cols_bit b x y row col 0 cx cy = false.
Proof. unfold cols_bit. bools. Qed.

Lemma cols_bit_clipped b x y row col n cx cy :
  cx < 64 → 64 <= x + col → cols_bit b x y row col n cx cy = false.
Proof. intros. unfold cols_bit. bools. Qed.

Lemma cols_bit_here b x y row col n :
  0 < n → cols_bit b x y row col n (x + col) (y + row)
          = Z.testbit b (7 - col).
Proof.
  intros. unfold cols_bit. replace (x + col - x) with col by lia. bools.
Qed.

Lemma cols_bit_next b x y row col n cx cy :
  ¬ (cx = x + col ∧ cy = y + row) →
  cols_bit b x y row col (n + 1) cx cy = cols_bit b x y row (col + 1) n cx cy.
Proof. intros. unfold cols_bit. bools. Qed.

Lemma cols_bit_past b x y row col n :
  cols_bit b x y row (col + 1) n (x + col) (y + row) = false.
Proof. unfold cols_bit. bools. Qed.

(** What the inner loop does to the cells and to the flag register. *)
Lemma draw_cols_spec n col x y row b s :
  wf s → 0 <= x < 64 → 0 <= col → col + Z.of_nat n <= 8 →
  0 <= y + row < 32 →
  let s' := draw_cols n col x y row b s in
  let lit := cols_bit b x y row col (Z.of_nat n) in
  (∀ cx cy, 0 <= cx < 64 → 0 <= cy < 32 →
     dget s' (cy * 64 + cx)
     = Z.lxor (dget s (cy * 64 + cx)) (Z.b2z (lit cx cy))) ∧
  (Vget s' 0xF = 1 ↔
     Vget s 0xF = 1 ∨
     ∃ cx cy, 0 <= cx < 64 ∧ 0 <= cy < 32 ∧ lit cx cy = true ∧
              dget s (cy * 64 + cx) = 1) ∧
  (∀ r, 0 <= r → r ≠ 0xF → Vget s' r = Vget s r).
Proof.
  revert col s. induction n as [|n IH]; intros col s Hwf Hx Hc Hn Hy s' lit.
  { subst s' lit. cbn [draw_cols]. split; [|split; [|done]].
    - intros cx cy _ _. by rewrite cols_bit_empty, Z.lxor_0_r.
    - split; [by left|]. intros [H|(cx & cy & _ & _ & H & _)]; [done|].
      by rewrite cols_bit_empty in H. }
  subst s'. cbn [draw_cols]. unfold DISPLAY_WIDTH.
  destruct (Z.geb_spec (x + col) 64) as [Hclip|Hin].
  { subst lit. split; [|split; [|done]].
    - intros cx cy Hcx _. rewrite cols_bit_clipped by lia.
      by rewrite Z.lxor_0_r.
    - split; [by left|]. intros [H|(cx & cy & Hcx & _ & H & _)]; [done|].
      by rewrite cols_bit_clipped in H by lia. }
  set (idx := (y + row) * 64 + (x + col)).
  assert (0 <= idx < 2048) as Hidx by (unfold idx; lia).
  pose proof (wf_display_length s Hwf) as HL.
  assert (Hnext : ∀ cx cy, ¬ (cx = x + col ∧ cy = y + row) →
            lit cx cy = cols_bit b x y row (col + 1) (Z.of_nat n) cx cy).
  { intros cx cy Hne. subst lit. rewrite Nat2Z.inj_succ, <- Z.add_1_r.
    by apply cols_bit_next. }
  assert (Hhere : lit (x + col) (y + row) = Z.testbit b (7 - col)).
  { subst lit. apply cols_bit_here. lia. }
  rewrite pixel_testbit by lia.
  destruct (Z.testbit b (7 - col)) eqn:Hpix; cbn [negb].
  - (* the sprite bit is set: the cell is flipped *)
    set (s0 := if dget s idx =? 1 then Vset 15 1 s else s).
    assert (wf s0) as Hwf0 by (unfold s0; destruct (_ =? 1); [by apply wf_Vset|done]).
    assert (dget s0 idx = dget s idx) as Hd0 by (unfold s0; by destruct (_ =? 1)).
    assert (display s0 = display s) as Hs0d by (unfold s0; by destruct (_ =? 1)).
    set (s1 := dset idx (Z.lxor (dget s0 idx) 1) s0).
    assert (bit (Z.lxor (dget s idx) 1)) as Hbit
      by (apply lxor_bit; by apply dget_bit).
    assert (wf s1) as Hwf1 by (apply wf_dset; [by rewrite Hd0|done]).
    assert (Hd1 : ∀ k, 0 <= k →
              dget s1 k = if decide (k = idx) then Z.lxor (dget s idx) 1
                          else dget s k).
    { intros k Hk. unfold s1. rewrite dget_dset; [|rewrite Hs0d, HL; lia|done].
      rewrite Hd0. destruct (decide (k = idx)).
      - apply u8_small. unfold bit, byte in *. lia.
      - unfold s0. by destruct (_ =? 1). }
    assert (HV1 : ∀ r, 0 <= r → r ≠ 15 → Vget s1 r = Vget s r).
    { intros r Hr Hne. unfold s1, s0. destruct (_ =? 1); [|done].
      change (Vget (dset ?i ?v ?t) r) with (Vget t r).
      by rewrite Vget_Vset_ne by lia. }
    assert (HF1 : Vget s1 15 = 1 ↔ Vget s 15 = 1 ∨ dget s idx = 1).
    { unfold s1, s0. destruct (Z.eqb_spec (dget s idx) 1) as [E|E].
      - change (Vget (dset ?i ?v ?t) 15) with (Vget t 15).
        rewrite Vget_Vset_eq by (rewrite (wf_V_length s Hwf); lia).
        split; [by right|done].
      - change (Vget (dset ?i ?v ?t) 15) with (Vget t 15). tauto. }
    destruct (IH (col + 1) s1 Hwf1 Hx ltac:(lia) ltac:(lia) Hy) as (IHd & IHf & IHv).
    split; [|split].
    + intros cx cy Hcx Hcy. rewrite IHd, Hd1 by lia.
      destruct (decide (cy * 64 + cx = idx)) as [E|E].
      * assert (cx = x + col ∧ cy = y + row) as [-> ->] by (unfold idx in E; lia).
        rewrite cols_bit_past, Hhere. by rewrite Z.lxor_0_r.
      * rewrite Hnext; [done|]. intros [-> ->]. by apply E.
    + rewrite IHf, HF1. split.
      * intros [[H|H]|(cx & cy & Hcx & Hcy & Hl & Hd)].
        -- by left.
        -- right. exists (x + col), (y + row). rewrite Hhere. by repeat split; try lia.
        -- right. exists cx, cy.
           assert (¬ (cx = x + col ∧ cy = y + row)) as Hne.
           { intros [-> ->]. by rewrite cols_bit_past in Hl. }
           rewrite Hd1 in Hd by lia.
           destruct (decide (cy * 64 + cx = idx)) as [E|E];
             [exfalso; apply Hne; unfold idx in E; lia|].
           by rewrite Hnext.
      * intros [H|(cx & cy & Hcx & Hcy & Hl & Hd)]; [by left; left|].
        destruct (decide (cx = x + col ∧ cy = y + row)) as [[-> ->]|Hne].
        -- left. by right.
        -- right. exists cx, cy. rewrite <- Hnext by done.
           rewrite Hd1 by lia.
           destruct (decide (cy * 64 + cx = idx)) as [E|E];
             [exfalso; apply Hne; unfold idx in E; lia|done].
    + intros r Hr Hne. by rewrite IHv, HV1.
  - (* the sprite bit is clear: nothing happens to the cell *)
    destruct (IH (col + 1) s Hwf Hx ltac:(lia) ltac:(lia) Hy) as (IHd & IHf & IHv).
    assert (Hsame : ∀ cx cy,
              lit cx cy = cols_bit b x y row (col + 1) (Z.of_nat n) cx cy).
    { intros cx cy. destruct (decide (cx = x + col ∧ cy = y + row)) as [[-> ->]|Hne].
      - by rewrite Hhere, cols_bit_past.
      - by apply Hnext. }
    split; [|split; [|done]].
    + intros cx cy Hcx Hcy. by rewrite IHd, Hsame.
    + rewrite IHf. split.
      * intros [H|(cx & cy & Hcx & Hcy & Hl & Hd)]; [by left|].
        right. exists cx, cy. by rewrite Hsame.
      * intros [H|(cx & cy & Hcx & Hcy & Hl & Hd)]; [by left|].
        right. exists cx, cy. by rewrite <- Hsame.
Qed.

Lemma rows_bit_empty s x y row cx cy : rows_bit s x y row 0 cx cy = false.
Proof. unfold rows_bit. bools. Qed.

Lemma rows_bit_clipped s x y row n cx cy :
  cy < 32 → 32 <= y + row → rows_bit s x y row n cx cy = false.
Proof. intros. unfold rows_bit. bools. Qed.

Lemma rows_bit_here s x y row n cx :
  0 <= n →
  rows_bit s x y row (n + 1) cx (y + row)
  = cols_bit (memory s !!! Z.to_nat (I s + row)) x y row 0 8 cx (y + row).
Proof.
  intros. unfold rows_bit, cols_bit.
  replace (y + row - y) with row by lia. bools.
Qed.

Lemma rows_bit_next s x y row n cx cy :
  cy ≠ y + row →
  rows_bit s x y row (n + 1) cx cy = rows_bit s x y (row + 1) n cx cy.
Proof. intros. unfold rows_bit. bools. Qed.

Lemma rows_bit_past s x y row n cx :
  rows_bit s x y (row + 1) n cx (y + row) = false.
Proof. unfold rows_bit. bools. Qed.

Lemma cols_bit_other_row b x y row col n cx cy :
  cy ≠ y + row → cols_bit b x y row col n cx cy = false.
Proof. intros. unfold cols_bit. bools. Qed.

Lemma rows_bit_frame s s1 x y row n cx cy :
  frameVD s1 = frameVD s → rows_bit s1 x y row n cx cy = rows_bit s x y row n cx cy.
Proof.
  intros H. unfold rows_bit.
  change (memory s1) with (memory (frameVD s1)).
  change (I s1) with (I (frameVD s1)). by rewrite H.
Qed.

(** What the outer loop does, when the sprite rows it reads are in memory. *)
Lemma draw_rows_spec n row x y s :
  wf s → 0 <= x < 64 → 0 <= y → 0 <= row →
  (∀ r, row <= r < row + Z.of_nat n → y + r < 32 → I s + r < 4096) →
  ∃ s', draw_rows n row x y s = Some s' ∧
    let lit := rows_bit s x y row (Z.of_nat n) in
    (∀ cx cy, 0 <= cx < 64 → 0 <= cy < 32 →
       dget s' (cy * 64 + cx)
       = Z.lxor (dget s (cy * 64 + cx)) (Z.b2z (lit cx cy))) ∧
    (Vget s' 0xF = 1 ↔
       Vget s 0xF = 1 ∨
       ∃ cx cy, 0 <= cx < 64 ∧ 0 <= cy < 32 ∧ lit cx cy = true ∧
                dget s (cy * 64 + cx) = 1) ∧
    (∀ r, 0 <= r → r ≠ 0xF → Vget s' r = Vget s r).
Proof.
  revert row s. induction n as [|n IH]; intros row s Hwf Hx Hy Hr Hmem.
  { exists s. split; [done|]. cbn zeta. split; [|split; [|done]].
    - intros cx cy _ _. by rewrite rows_bit_empty, Z.lxor_0_r.
    - split; [by left|]. intros [H|(cx & cy & _ & _ & H & _)]; [done|].
      by rewrite rows_bit_empty in H. }
  cbn [draw_rows]. unfold DISPLAY_HEIGHT.
  destruct (Z.geb_spec (y + row) 32) as [Hclip|Hin].
  { exists s. split; [done|]. cbn zeta. split; [|split; [|done]].
    - intros cx cy _ Hcy. rewrite rows_bit_clipped by lia.
      by rewrite Z.lxor_0_r.
    - split; [by left|]. intros [H|(cx & cy & _ & Hcy & H & _)]; [done|].
      by rewrite rows_bit_clipped in H by lia. }
  pose proof (wf_word_I s Hwf) as HI. unfold word in HI.
  pose proof (wf_memory_length s Hwf) as HL.
  rewrite get_total by (rewrite HL; specialize (Hmem row); lia).
  cbn [mbind option_bind].
  set (b := memory s !!! Z.to_nat (I s + row)).
  pose proof (draw_cols_frame 8 0 x y row b s) as Hfr.
  assert (wf (draw_cols 8 0 x y row b s)) as Hwf1
    by (apply draw_cols_wf; [done|lia..]).
  destruct (draw_cols_spec 8 0 x y row b s Hwf Hx) as (Cd & Cf & Cv);
    [lia|simpl; lia|lia|].
  change (Z.of_nat 8) with 8 in Cd, Cf.
  generalize dependent (draw_cols 8 0 x y row b s). intros s1 Hfr Hwf1 Cd Cf Cv.
  destruct (IH (row + 1) s1 Hwf1 Hx Hy) as (s' & Hs' & IHd & IHf & IHv); [lia| |].
  { intros r Hrr Hyr. rewrite (frameVD_I s s1 Hfr). apply Hmem; lia. }
  exists s'. split; [exact Hs'|]. cbn zeta.
  rewrite Nat2Z.inj_succ, <- Z.add_1_r.
  assert (Hsplit : ∀ cx cy,
            rows_bit s x y row (Z.of_nat n + 1) cx cy
            = if decide (cy = y + row) then cols_bit b x y row 0 8 cx cy
              else rows_bit s1 x y (row + 1) (Z.of_nat n) cx cy).
  { intros cx cy. destruct (decide (cy = y + row)) as [->|Hne].
    - apply rows_bit_here. lia.
    - rewrite (rows_bit_frame s s1) by done. by apply rows_bit_next. }
  split; [|split].
  - intros cx cy Hcx Hcy. rewrite IHd, Cd, Hsplit by done.
    destruct (decide (cy = y + row)) as [->|Hne].
    + by rewrite rows_bit_past, Z.lxor_0_r.
    + by rewrite cols_bit_other_row, Z.lxor_0_r by done.
  - rewrite IHf, Cf. split.
    + intros [[H|(cx & cy & Hcx & Hcy & Hl & Hd)]|(cx & cy & Hcx & Hcy & Hl & Hd)].
      * by left.
      * right. exists cx, cy. rewrite Hsplit.
        destruct (decide (cy = y + row)) as [->|Hne]; [done|].
        by rewrite cols_bit_other_row in Hl.
      * right. exists cx, cy. rewrite Hsplit.
        destruct (decide (cy = y + row)) as [->|Hne].
        { by rewrite rows_bit_past in Hl. }
        rewrite Cd, cols_bit_other_row, Z.lxor_0_r in Hd by done. done.
    + intros [H|(cx & cy & Hcx & Hcy & Hl & Hd)]; [by left; left|].
      rewrite Hsplit in Hl.
      destruct (decide (cy = y + row)) as [->|Hne].
      * left. right. by exists cx, (y + row).
      * right. exists cx, cy.
        rewrite Cd, cols_bit_other_row, Z.lxor_0_r by done. done.
  - intros r Hr0 Hne. by rewrite IHv, Cv.
Qed.


Lemma draw_cols_V_length n col x y row b s :
  length (V (draw_cols n col x y row b s)) = length (V s).
Proof.
  revert col s. induction n as [|n IH]; intros col s; [done|].
  cbn [draw_cols]. destruct (_ >=? _); [done|].
  destruct (_ =? 0); [by apply IH|]. rewrite IH.
  destruct (_ =? 1); [|done]. unfold dset, Vset. fields.
  by rewrite length_insert.
Qed.

(** The loops only ever raise the flag register. *)
Lemma draw_cols_flag n col x y row b s :
  length (V s) = 16%nat →
  Vget (draw_cols n col x y row b s) 0xF = Vget s 0xF ∨
  Vget (draw_cols n col x y row b s) 0xF = 1.
Proof.
  revert col s. induction n as [|n IH]; intros col s HL; [by left|].
  cbn [draw_cols]. destruct (_ >=? _); [by left|].
  destruct (_ =? 0); [by apply IH|].
  destruct (dget s _ =? 1).
  - right. match goal with |- Vget (draw_cols _ _ _ _ _ _ ?t) _ = _ =>
             destruct (IH (col + 1) t) as [E|E] end.
    + unfold dset, Vset. fields. by rewrite length_insert.
    + rewrite E. change (Vget (dset ?i ?v ?t) 15) with (Vget t 15).
      rewrite Vget_Vset_eq by lia. done.
    + done.
  - match goal with |- Vget (draw_cols _ _ _ _ _ _ ?t) _ = _ ∨ _ =>
             destruct (IH (col + 1) t) as [E|E] end; [done|by left|by right].
Qed.

Lemma draw_rows_flag n row x y s s' :
  length (V s) = 16%nat → draw_rows n row x y s = Some s' →
  Vget s' 0xF = Vget s 0xF ∨ Vget s' 0xF = 1.
Proof.
  revert row s. induction n as [|n IH]; intros row s HL; cbn [draw_rows].
  { intros [= <-]. by left. }
  destruct (_ >=? _); [intros [= <-]; by left|].
  destruct (get _ _) as [b|]; [|done]. cbn [mbind option_bind].
  pose proof (draw_cols_flag 8 0 x y row b s HL) as Hc.
  assert (length (V (draw_cols 8 0 x y row b s)) = 16%nat) as HL1.
  { by rewrite draw_cols_V_length. }
  generalize dependent (draw_cols 8 0 x y row b s). intros s1 Hc HL1 Hs'.
  apply IH in Hs'; [|done]. destruct Hs' as [E|E]; [|by right].
  rewrite E. exact Hc.
Qed.

Lemma rows_bit_sprite s n x y cx cy :
  rows_bit s x y 0 n cx cy = sprite_bit s n x y cx cy.
Proof. unfold rows_bit, sprite_bit. by rewrite Z.add_0_r. Qed.

(** C4.  For a draw word [0xDXYN] whose sprite rows are in memory, with
    [x = V[X] mod 64] and [y = V[Y] mod 32]: [Cycle] is defined; every cell
    of the 64x32 grid ends as its old value XOR the sprite bit that falls on
    it, where a sprite put at ([x], [y]) reaches cells of the grid only (rows
    and columns beyond the edge are dropped, nothing wraps); the flag
    register ends as 1 if some cell that was on has a set sprite bit on it
    (and so goes off) and as 0 otherwise; the other registers keep their
    values; the draw flag is set; apart from [V], [display], [drawFlag] and
    [pc], which is 2 further, the state is unchanged. *)
Theorem draw_spec (rnd : Z) (s : Chip8) (op : Z) :
  wf s → fetch s = Some op → nib1_of op = 0xD →
  let N := nib4_of op in
  let x := Vget s (regX_of op) mod 64 in
  let y := Vget s (regY_of op) mod 32 in
  let collision :=
    ∃ cx cy, 0 <= cx < 64 ∧ 0 <= cy < 32 ∧
             sprite_bit s N x y cx cy = true ∧ dget s (cy * 64 + cx) = 1 in
  (∀ r, 0 <= r < N → y + r < 32 → I s + r < 4096) →
  ∃ s', Cycle rnd s = Some s' ∧
    (∀ cx cy, 0 <= cx < 64 → 0 <= cy < 32 →
       dget s' (cy * 64 + cx)
       = Z.lxor (dget s (cy * 64 + cx)) (Z.b2z (sprite_bit s N x y cx cy))) ∧
    (collision → Vget s' 0xF = 1) ∧
    (¬ collision → Vget s' 0xF = 0) ∧
    (∀ r, 0 <= r < 0xF → Vget s' r = Vget s r) ∧
    drawFlag s' = true ∧
    s' = set_drawFlag true
           (set_display (display s') (set_V (V s') (set_pc (pc s + 2) s))).
Proof.
  intros Hwf Hf H1 N x y collision Hmem.
  pose proof (Vget_byte s _ Hwf (regX_of_range op)) as HbX.
  pose proof (Vget_byte s _ Hwf (regY_of_range op)) as HbY.
  pose proof (Z.mod_pos_bound (Vget s (regX_of op)) 64 ltac:(lia)) as Hx.
  pose proof (Z.mod_pos_bound (Vget s (regY_of op)) 32 ltac:(lia)) as Hy.
  fold x in Hx. fold y in Hy.
  pose proof (nib4_of_range op) as HN. fold N in HN.
  rewrite (Cycle_dispatch _ _ _ Hf), dispatch_D by done.
  unfold OpcodeDxxx, DISPLAY_WIDTH, DISPLAY_HEIGHT. fold N.
  change (Vget (skip s) ?r) with (Vget s r). fold x y.
  rewrite !u8_small by (unfold byte; lia).
  set (s0 := Vset 15 0 (skip s)).
  assert (wf s0) as Hwf0 by (by apply wf_Vset, wf_skip).
  destruct (draw_rows_spec (Z.to_nat N) 0 x y s0 Hwf0 Hx)
    as (s1 & Hs1 & Hd & Hflag & Hv); [lia|lia| |].
  { intros r Hr Hyr. change (I s0) with (I s). apply Hmem; lia. }
  cbn zeta in Hd, Hflag. rewrite Z2Nat.id in Hd, Hflag by lia.
  pose proof (draw_rows_frame _ _ _ _ _ _ Hs1) as Hfr.
  pose proof (draw_rows_flag _ _ _ _ _ _ (wf_V_length _ Hwf0) Hs1) as Hmono.
  assert (Vget s0 15 = 0) as H0.
  { unfold s0. rewrite Vget_Vset_eq; [done|].
    change (V (skip s)) with (V s). rewrite (wf_V_length s Hwf). lia. }
  rewrite Hs1. cbn [mbind option_bind]. eexists. split; [reflexivity|].
  assert (Hbits : ∀ cx cy, rows_bit s0 x y 0 N cx cy = sprite_bit s N x y cx cy)
    by (intros; rewrite <- rows_bit_sprite; reflexivity).
  split; [|split; [|split; [|split; [|split]]]].
  - intros cx cy Hcx Hcy.
    change (dget (set_drawFlag true s1) ?k) with (dget s1 k).
    by rewrite Hd, Hbits.
  - intros (cx & cy & Hcx & Hcy & Hb & Hon).
    change (Vget (set_drawFlag true s1) 15) with (Vget s1 15).
    apply Hflag. right. exists cx, cy. by rewrite Hbits.
  - intros Hno. change (Vget (set_drawFlag true s1) 15) with (Vget s1 15).
    destruct Hmono as [E|E]; [by rewrite E|].
    exfalso. apply Hno. apply Hflag in E as [E|(cx & cy & Hcx & Hcy & Hb & Hon)].
    + rewrite H0 in E. discriminate.
    + exists cx, cy. by rewrite <- Hbits.
  - intros r Hr. change (Vget (set_drawFlag true s1) r) with (Vget s1 r).
    rewrite Hv by lia. unfold s0. by rewrite Vget_Vset_ne by lia.
  - reflexivity.
  - apply frameVD_eq in Hfr. rewrite Hfr at 1.
    rewrite <- (skip_pc s op Hwf Hf). reflexivity.
Qed.

(** The example of the specification, run: the first draw lights columns
    60-63 of rows 0 and 1 and nothing else ([sprite_drawn]), with the flag
    register 0; the second draw puts every cell out again, with the flag
    register 1. *)
Lemma draw_clip_example :
  Cycles 0 3 (boot sprite_rom) = Some sprite_ready ∧
  Cycle 0 sprite_ready = Some sprite_drawn ∧
  Vget sprite_drawn 0xF = 0 ∧
  ∃ s5,
    Cycle 0 sprite_drawn = Some s5 ∧
    display s5 = zeros (32 * 64) ∧
    Vget s5 0xF = 1 ∧ drawFlag s5 = true.
Proof.
  split; [by vm_compute|]. split; [by vm_compute|]. split; [by vm_compute|].
  eexists. split; [by vm_compute|]. repeat split; by vm_compute.
Qed.

Lemma draw_spec_witness :
  (∃ s', Cycle 0 sprite_ready = Some s' ∧
         dget s' 59 = 0 ∧ dget s' 60 = 1 ∧ dget s' 63 = 1 ∧
         dget s' 64 = 0 ∧ dget s' (64 + 63) = 1 ∧ dget s' (2 * 64 + 63) = 0 ∧
         Vget s' 0xF = 0 ∧ drawFlag s' = true) ∧
  (∃ s', Cycle 0 sprite_drawn = Some s' ∧
         dget s' 60 = 0 ∧ dget s' (64 + 63) = 0 ∧ Vget s' 0xF = 1).
Proof.
  split.
  - destruct (draw_spec 0 sprite_ready 0xD012)
      as (s' & E & Hd & _ & Hno & _ & Hfl & _);
      [compute_done|by vm_compute|by vm_compute| |].
    { intros r Hr _. change (nib4_of 0xD012) with 2 in Hr.
      change (I sprite_ready) with 0x20A. lia. }
    exists s'. split; [exact E|].
    repeat split.
    + change (dget s' 59) with (dget s' (0 * 64 + 59)).
      rewrite Hd by lia. by vm_compute.
    + change (dget s' 60) with (dget s' (0 * 64 + 60)).
      rewrite Hd by lia. by vm_compute.
    + change (dget s' 63) with (dget s' (0 * 64 + 63)).
      rewrite Hd by lia. by vm_compute.
    + change (dget s' 64) with (dget s' (1 * 64 + 0)).
      rewrite Hd by lia. by vm_compute.
    + change (dget s' (64 + 63)) with (dget s' (1 * 64 + 63)).
      rewrite Hd by lia. by vm_compute.
    + rewrite Hd by lia. by vm_compute.
    + apply Hno. intros (cx & cy & Hcx & Hcy & _ & Hon).
      assert (display sprite_ready = replicate 2048 0) as Hz by (by vm_compute).
      unfold dget in Hon. rewrite Hz, lookup_total_replicate_2 in Hon by lia.
      discriminate.
    + exact Hfl.
  - destruct (draw_spec 0 sprite_drawn 0xD012)
      as (s' & E & Hd & Hyes & _);
      [compute_done|by vm_compute|by vm_compute| |].
    { intros r Hr _. change (nib4_of 0xD012) with 2 in Hr.
      change (I sprite_drawn) with 0x20A. lia. }
    exists s'. split; [exact E|].
    repeat split.
    + change (dget s' 60) with (dget s' (0 * 64 + 60)).
      rewrite Hd by lia. by vm_compute.
    + change (dget s' (64 + 63)) with (dget s' (1 * 64 + 63)).
      rewrite Hd by lia. by vm_compute.
    + apply Hyes. exists 60, 0.
      split; [lia|]. split; [lia|]. split; by vm_compute.
Defined.

(** C4, where it fails.  The program [AFFF D012] sets [I] to 0xFFF and
    draws a sprite of N = 2 rows at ([0], [0]).  Both rows are on the
    screen, so the second one is read from [memory[0x1000]], past the end of
    the 4096-byte memory: the [Cycle] has no result. *)
Lemma draw_rows_outside_memory :
  ∃ s1, Cycles 0 1 (boot [0xAF; 0xFF; 0xD0; 0x12]) = Some s1 ∧
        wf s1 ∧ fetch s1 = Some 0xD012 ∧ nib1_of 0xD012 = 0xD ∧
        I s1 = 0xFFF ∧ Vget s1 (regY_of 0xD012) mod 32 = 0 ∧
        nib4_of 0xD012 = 2 ∧
        Cycle 0 s1 = None.
Proof.
  eexists. split; [by vm_compute|]. split; [compute_done|].
  do 5 (split; [by vm_compute|]). by vm_compute.
Qed.

(** ** Register block store and load, [0xFX55] and [0xFX65] *)

Lemma store_regs_spec n i s :
  wf s → 0 <= i → I s + i + Z.of_nat n <= 4096 →
  ∃ s', store_regs n i s = Some s' ∧
    ∀ a, 0 <= a →
      memory s' !!! Z.to_nat a
      = if decide (I s + i <= a < I s + i + Z.of_nat n)
        then Vget s (a - I s) else memory s !!! Z.to_nat a.
Proof.
  revert i s. induction n as [|n IH]; intros i s Hwf Hi Hn.
  { exists s. split; [done|]. intros a Ha. by rewrite decide_False by lia. }
  pose proof (wf_word_I s Hwf) as HI. unfold word in HI.
  pose proof (wf_memory_length s Hwf) as HL.
  cbn [store_regs]. rewrite put_Some by lia. cbn [mbind option_bind].
  set (s1 := set_memory (<[Z.to_nat (I s + i) := Vget s i]> (memory s)) s).
  assert (wf s1) as Hwf1.
  { eapply (wf_put_memory s (I s + i) (Vget s i)); [done| |by apply put_Some; lia].
    by apply Vget_byte_any. }
  destruct (IH (i + 1) s1 Hwf1) as (s' & Hs' & Hm);
    [lia|change (I s1) with (I s); lia|].
  exists s'. split; [exact Hs'|]. intros a Ha. rewrite Hm by done.
  change (I s1) with (I s). change (Vget s1 ?r) with (Vget s r).
  destruct (decide (I s + (i + 1) <= a < I s + (i + 1) + Z.of_nat n)).
  - by rewrite decide_True by lia.
  - unfold s1. fields. destruct (decide (a = I s + i)) as [->|Hne].
    + rewrite decide_True by lia.
      rewrite list_lookup_total_insert_eq by lia. f_equal. lia.
    + rewrite decide_False by lia.
      rewrite list_lookup_total_insert_ne by lia. done.
Qed.

Lemma load_regs_spec n i s :
  wf s → 0 <= i → i + Z.of_nat n <= 16 → I s + i + Z.of_nat n <= 4096 →
  ∃ s', load_regs n i s = Some s' ∧
    ∀ r, 0 <= r < 16 →
      Vget s' r
      = if decide (i <= r < i + Z.of_nat n)
        then memory s !!! Z.to_nat (I s + r) else Vget s r.
Proof.
  revert i s. induction n as [|n IH]; intros i s Hwf Hi Hr Hn.
  { exists s. split; [done|]. intros r _. by rewrite decide_False by lia. }
  pose proof (wf_word_I s Hwf) as HI. unfold word in HI.
  pose proof (wf_memory_length s Hwf) as HL.
  pose proof (wf_V_length s Hwf) as HVL.
  cbn [load_regs]. rewrite get_total by lia. cbn [mbind option_bind].
  set (b := memory s !!! Z.to_nat (I s + i)).
  assert (byte b) as Hb.
  { destruct Hwf as ([_ HM] & _). apply Forall_total; [done|lia]. }
  destruct (IH (i + 1) (Vset i b s)) as (s' & Hs' & HV');
    [by apply wf_Vset|lia|lia|change (I (Vset i b s)) with (I s); lia|].
  exists s'. split; [exact Hs'|]. intros r Hr16. rewrite HV' by done.
  change (I (Vset i b s)) with (I s).
  change (memory (Vset i b s)) with (memory s).
  destruct (decide (i + 1 <= r < i + 1 + Z.of_nat n)).
  - by rewrite decide_True by lia.
  - destruct (decide (r = i)) as [->|Hne].
    + rewrite decide_True by lia. rewrite Vget_Vset_eq by lia.
      by apply u8_small.
    + rewrite decide_False by lia. by rewrite Vget_Vset_ne by lia.
Qed.

(** Outside memory the loops have no result. *)
Lemma store_regs_oob n i s :
  wf s → 0 <= i → (0 < n)%nat → 4096 < I s + i + Z.of_nat n →
  store_regs n i s = None.
Proof.
  revert i s. induction n as [|n IH]; intros i s Hwf Hi Hpos Hn; [lia|].
  pose proof (wf_word_I s Hwf) as HI. unfold word in HI.
  pose proof (wf_memory_length s Hwf) as HL.
  cbn [store_regs].
  destruct (decide (I s + i < 4096)) as [Hin|Hout].
  - rewrite put_Some by lia. cbn [mbind option_bind].
    apply IH; [|lia|lia|fields; lia].
    eapply (wf_put_memory s (I s + i) (Vget s i));
      [done|by apply Vget_byte_any|by apply put_Some; lia].
  - by rewrite put_None by lia.
Qed.

Lemma load_regs_oob n i s :
  wf s → 0 <= i → (0 < n)%nat → 4096 < I s + i + Z.of_nat n →
  load_regs n i s = None.
Proof.
  revert i s. induction n as [|n IH]; intros i s Hwf Hi Hpos Hn; [lia|].
  pose proof (wf_word_I s Hwf) as HI. unfold word in HI.
  pose proof (wf_memory_length s Hwf) as HL.
  cbn [load_regs].
  destruct (decide (I s + i < 4096)) as [Hin|Hout].
  - rewrite get_total by lia. cbn [mbind option_bind].
    apply IH; [by apply wf_Vset|lia|lia|].
    change (I (Vset ?r ?v s)) with (I s). lia.
  - by rewrite get_None by lia.
Qed.

Lemma frameM_I s s' : frameM s' = frameM s → I s' = I s.
Proof. intros H. by apply (f_equal I) in H. Qed.

(** C8.  With [I + 3 < 4096], the word [0xF355] is defined and stores
    [V[0]]..[V[3]] at [memory[I]]..[memory[I + 3]]; when these four registers
    are then set to 0, the word [0xF365], fetched next, is defined and gives
    each of them the value it had before the store. *)
Theorem store_load_roundtrip (rnd : Z) (s : Chip8) :
  wf s → I s + 3 < 4096 → fetch s = Some 0xF355 →
  ∃ s1, Cycle rnd s = Some s1 ∧
    (∀ r, 0 <= r <= 3 → Vget (zero_V03 s1) r = 0) ∧
    (fetch (zero_V03 s1) = Some 0xF365 →
     ∃ s3, Cycle rnd (zero_V03 s1) = Some s3 ∧
           ∀ r, 0 <= r <= 3 → Vget s3 r = Vget s r).
Proof.
  intros Hwf HI Hf.
  pose proof (wf_word_I s Hwf) as HIw. unfold word in HIw.
  rewrite (Cycle_dispatch _ _ _ Hf), dispatch_F by done.
  change (regX_of 0xF355) with 3. change (val_of 0xF355) with 0x55.
  unfold OpcodeFxxx. cbn [Z.eqb Pos.eqb]. change (Z.to_nat (3 + 1)) with 4%nat.
  destruct (store_regs_spec 4 0 (skip s)) as (s1 & Hs1 & Hm);
    [by apply wf_skip|lia|change (I (skip s)) with (I s); lia|].
  change (I (skip s)) with (I s) in Hm.
  change (memory (skip s)) with (memory s) in Hm.
  pose proof (store_regs_wf _ _ _ _ (wf_skip s Hwf) Hs1) as Hwf1.
  pose proof (frameM_I _ _ (store_regs_frame _ _ _ _ Hs1)) as HI1.
  change (I (skip s)) with (I s) in HI1.
  exists s1. split; [exact Hs1|].
  pose proof (wf_V_length s1 Hwf1) as HL1.
  split.
  - intros r Hr. unfold zero_V03.
    assert (r = 0 ∨ r = 1 ∨ r = 2 ∨ r = 3) as [ -> | [ -> | [ -> | -> ] ] ] by lia;
      repeat first [ rewrite Vget_Vset_eq by (rewrite ?Vset_length; lia)
                   | rewrite Vget_Vset_ne by lia ]; done.
  - intros Hf2.
    assert (wf (zero_V03 s1)) as Hwf2 by (unfold zero_V03; by repeat apply wf_Vset).
    rewrite (Cycle_dispatch _ _ _ Hf2), dispatch_F by done.
    change (regX_of 0xF365) with 3. change (val_of 0xF365) with 0x65.
    unfold OpcodeFxxx. cbn [Z.eqb Pos.eqb]. change (Z.to_nat (3 + 1)) with 4%nat.
    destruct (load_regs_spec 4 0 (skip (zero_V03 s1))) as (s3 & Hs3 & HV3);
      [by apply wf_skip|lia|simpl; lia| |].
    { change (I (skip (zero_V03 s1))) with (I s1). rewrite HI1. lia. }
    exists s3. split; [exact Hs3|]. intros r Hr.
    rewrite HV3 by lia. rewrite decide_True by (simpl; lia).
    change (I (skip (zero_V03 s1))) with (I s1).
    change (memory (skip (zero_V03 s1))) with (memory s1).
    rewrite HI1, Hm by lia. rewrite decide_True by (simpl; lia).
    change (Vget (skip s) ?x) with (Vget s x). f_equal. lia.
Qed.

Lemma store_load_roundtrip_witness :
  let s := set_I 0x300
             (Vset 3 44 (Vset 2 33 (Vset 1 22 (Vset 0 11
                (boot [0xF3; 0x55; 0xF3; 0x65]))))) in
  ∃ s1 s3, Cycle 0 s = Some s1 ∧ Cycle 0 (zero_V03 s1) = Some s3 ∧
           Vget s3 0 = 11 ∧ Vget s3 1 = 22 ∧ Vget s3 2 = 33 ∧ Vget s3 3 = 44.
Proof.
  intros s.
  destruct (store_load_roundtrip 0 s) as (s1 & E1 & _ & H);
    [compute_done|by vm_compute|by vm_compute|].
  destruct H as (s3 & E3 & HV3).
  { assert (Cycle 0 s = Some (set_pc 0x202 (set_memory
              (<[771%nat := 44]> (<[770%nat := 33]> (<[769%nat := 22]>
                 (<[768%nat := 11]> (memory s))))) s))) as E by (by vm_compute).
    rewrite E in E1. injection E1 as <-. by vm_compute. }
  exists s1, s3. split; [exact E1|]. split; [exact E3|].
  repeat split; rewrite HV3 by lia; by vm_compute.
Defined.

(** ** Memory accesses through the index register *)

Lemma draw_rows_oob n row x y s r :
  wf s → 0 <= x → 0 <= y → 0 <= row →
  row <= r < row + Z.of_nat n → y + r < 32 → 4096 <= I s + r →
  draw_rows n row x y s = None.
Proof.
  revert row s. induction n as [|n IH]; intros row s Hwf Hx Hy Hrow Hr Hyr Hout;
    [lia|].
  pose proof (wf_memory_length s Hwf) as HL.
  cbn [draw_rows]. unfold DISPLAY_HEIGHT.
  destruct (Z.geb_spec (y + row) 32) as [|Hin]; [lia|].
  destruct (decide (I s + row < 4096)) as [Hmem|Hmem].
  - pose proof (wf_word_I s Hwf) as HI. unfold word in HI.
    rewrite get_total by lia. cbn [mbind option_bind].
    set (b := memory s !!! Z.to_nat (I s + row)).
    pose proof (frameVD_I _ _ (draw_cols_frame 8 0 x y row b s)) as HI1.
    apply IH; [apply draw_cols_wf; [done|lia..]|lia..|].
    rewrite HI1. lia.
  - by rewrite get_None by lia.
Qed.

(** The draw loop is defined exactly when every row it reads is in memory. *)
Lemma draw_rows_defined n x y s :
  wf s → 0 <= x < 64 → 0 <= y →
  is_Some (draw_rows n 0 x y s) ↔
  (∀ r, 0 <= r < Z.of_nat n → y + r < 32 → I s + r < 4096).
Proof.
  intros Hwf Hx Hy. split.
  - intros [s' Hs'] r Hr Hyr.
    destruct (decide (I s + r < 4096)) as [|Hout]; [done|].
    rewrite (draw_rows_oob n 0 x y s r) in Hs'; [done|done|lia..].
  - intros Hmem.
    destruct (draw_rows_spec n 0 x y s Hwf Hx Hy) as (s' & Hs' & _); [lia| |by eexists].
    intros r Hr. apply Hmem. lia.
Qed.

(** C9 (as the code has it).  The draw, BCD and register-block words
    address memory from the 16-bit [I] as it is.  [0xDXYN] reads
    [memory[I + row]] for the rows it draws, that is for
    [row < min(N, 32 - y)] with [y = V[Y] mod 32] (a row clipped at the
    bottom edge is not read), and is defined exactly when there is no such
    row or the last of them is below 4096; [0xFX33] is defined exactly when
    [I + 2 < 4096]; [0xFX55] and [0xFX65] exactly when [I + X < 4096]. *)
Theorem index_bounds_spec (rnd : Z) (s : Chip8) (op : Z) :
  wf s → fetch s = Some op →
  let X := regX_of op in
  let N := nib4_of op in
  let y := Vget s (regY_of op) mod 32 in
  let rows := Z.min N (32 - y) in
  (nib1_of op = 0xD →
     (is_Some (Cycle rnd s) ↔ rows = 0 ∨ I s + (rows - 1) < 4096)) ∧
  (nib1_of op = 0xF → val_of op = 0x33 →
     (is_Some (Cycle rnd s) ↔ I s + 2 < 4096)) ∧
  (nib1_of op = 0xF → val_of op = 0x55 ∨ val_of op = 0x65 →
     (is_Some (Cycle rnd s) ↔ I s + X < 4096)).
Proof.
  intros Hwf Hf X N y rows.
  pose proof (wf_word_I s Hwf) as HI. unfold word in HI.
  pose proof (wf_memory_length s Hwf) as HL.
  pose proof (regX_of_range op) as HX. fold X in HX.
  pose proof (nib4_of_range op) as HN. fold N in HN.
  rewrite (Cycle_dispatch _ _ _ Hf).
  split; [|split].
  - intros H1. rewrite dispatch_D by done.
    pose proof (Vget_byte s _ Hwf (regX_of_range op)) as HbX.
    pose proof (Vget_byte s _ Hwf (regY_of_range op)) as HbY.
    pose proof (Z.mod_pos_bound (Vget s (regX_of op)) 64 ltac:(lia)) as Hx.
    pose proof (Z.mod_pos_bound (Vget s (regY_of op)) 32 ltac:(lia)) as Hy.
    fold y in Hy.
    unfold OpcodeDxxx, DISPLAY_WIDTH, DISPLAY_HEIGHT. fold N.
    change (Vget (skip s) ?r) with (Vget s r). fold y.
    rewrite !u8_small by (unfold byte; lia).
    set (s0 := Vset 15 0 (skip s)).
    assert (wf s0) as Hwf0 by (by apply wf_Vset, wf_skip).
    pose proof (draw_rows_defined (Z.to_nat N) _ y s0 Hwf0 Hx ltac:(lia)) as Hdef.
    rewrite Z2Nat.id in Hdef by lia. change (I s0) with (I s) in Hdef.
    transitivity (is_Some (draw_rows (Z.to_nat N) 0
                             (Vget s (regX_of op) mod 64) y s0)).
    { destruct (draw_rows _ _ _ _ _); cbn [mbind option_bind]; split;
        intros [? ?]; by eauto. }
    rewrite Hdef. unfold rows. split.
    + intros Hmem. destruct (decide (Z.min N (32 - y) = 0)) as [|Hpos]; [by left|].
      right. apply Hmem; lia.
    + intros [H0|Hlast] r Hr Hyr; lia.
  - intros H1 Hv. rewrite dispatch_F by done.
    unfold OpcodeFxxx. rewrite Hv. cbn [Z.eqb Pos.eqb]. fields.
    destruct (decide (I s + 2 < 4096)) as [Hin|Hout].
    + rewrite put_Some by (change (memory (skip s)) with (memory s); change (I (skip s)) with (I s); lia).
      cbn [mbind option_bind]. fields.
      rewrite put_Some by (rewrite length_insert; change (memory (skip s)) with (memory s); change (I (skip s)) with (I s); lia).
      cbn [mbind option_bind]. fields.
      rewrite put_Some by (rewrite !length_insert; change (memory (skip s)) with (memory s); change (I (skip s)) with (I s); lia).
      split; [done|]. intros _. by eexists.
    + split; [|done]. intros [s' Hs']. exfalso.
      change (memory (skip s)) with (memory s) in Hs'.
      change (I (skip s)) with (I s) in Hs'.
      destruct (decide (I s < 4096)) as [H0|H0];
        [|by rewrite put_None in Hs' by lia].
      rewrite put_Some in Hs' by lia. cbn [mbind option_bind] in Hs'. fields.
      destruct (decide (I s + 1 < 4096)) as [H1'|H1'];
        [|by rewrite put_None in Hs' by (rewrite length_insert; lia)].
      rewrite put_Some in Hs' by (rewrite length_insert; lia).
      cbn [mbind option_bind] in Hs'. fields.
      by rewrite put_None in Hs' by (rewrite !length_insert; lia).
  - intros H1 Hv. rewrite dispatch_F by done. fold X.
    unfold OpcodeFxxx.
    assert (Z.to_nat (X + 1) = S (Z.to_nat X)) as HS by lia.
    destruct (decide (I s + X < 4096)) as [Hin|Hout].
    + split; [done|]. intros _.
      destruct Hv as [-> | ->]; cbn [Z.eqb Pos.eqb].
      * destruct (store_regs_spec (Z.to_nat (X + 1)) 0 (skip s))
          as (s' & Hs' & _);
          [by apply wf_skip|lia|change (I (skip s)) with (I s); lia|].
        rewrite Hs'. by eexists.
      * destruct (load_regs_spec (Z.to_nat (X + 1)) 0 (skip s))
          as (s' & Hs' & _);
          [by apply wf_skip|lia|lia|change (I (skip s)) with (I s); lia|].
        rewrite Hs'. by eexists.
    + split; [|done]. intros [s' Hs']. exfalso.
      destruct Hv as [Hv|Hv]; rewrite Hv in Hs'; cbn [Z.eqb Pos.eqb] in Hs'.
      * rewrite store_regs_oob in Hs';
          [done|by apply wf_skip|lia|lia|change (I (skip s)) with (I s); lia].
      * rewrite load_regs_oob in Hs';
          [done|by apply wf_skip|lia|lia|change (I (skip s)) with (I s); lia].
Qed.

Lemma index_bounds_spec_witness :
  is_Some (Cycle 0 (set_I 0xFFD (boot [0xF0; 0x33]))) ∧
  Cycle 0 (set_I 0xFFE (boot [0xF0; 0x33])) = None ∧
  is_Some (Cycle 0 (set_I 0xFFC (boot [0xF3; 0x65]))) ∧
  is_Some (Cycle 0 (set_I 0xFFF (boot [0xD0; 0x11]))).
Proof.
  split; [|split; [|split]].
  - destruct (index_bounds_spec 0 (set_I 0xFFD (boot [0xF0; 0x33])) 0xF033)
      as (_ & H & _); [compute_done|by vm_compute|].
    apply H; by vm_compute.
  - destruct (index_bounds_spec 0 (set_I 0xFFE (boot [0xF0; 0x33])) 0xF033)
      as (_ & H & _); [compute_done|by vm_compute|].
    destruct (Cycle 0 (set_I 0xFFE (boot [0xF0; 0x33]))) as [s'|] eqn:E; [|done].
    exfalso. assert (I (set_I 0xFFE (boot [0xF0; 0x33])) + 2 < 4096) as Hlt.
    { apply H; [by vm_compute|by vm_compute|by eexists]. }
    by vm_compute in Hlt.
  - destruct (index_bounds_spec 0 (set_I 0xFFC (boot [0xF3; 0x65])) 0xF365)
      as (_ & _ & H); [compute_done|by vm_compute|].
    apply H; [by vm_compute|right; by vm_compute|by vm_compute].
  - destruct (index_bounds_spec 0 (set_I 0xFFF (boot [0xD0; 0x11])) 0xD011)
      as (H & _ & _); [compute_done|by vm_compute|].
    apply H; [by vm_compute|]. right. by vm_compute.
Defined.

(** C9, where it fails.  The program [611F AFFF D012] draws a sprite of
    N = 2 rows at [y = 31] with [I = 0xFFF].  The second row is off the
    bottom edge, so only [memory[0xFFF]] is read and the [Cycle] is defined,
    although [I + (N - 1)] is 0x1000, not below 4096. *)
Lemma draw_clipped_row_not_read :
  ∃ s2 s3, Cycles 0 2 (boot [0x61; 0x1F; 0xAF; 0xFF; 0xD0; 0x12]) = Some s2 ∧
           wf s2 ∧ fetch s2 = Some 0xD012 ∧ I s2 = 0xFFF ∧
           Vget s2 (regY_of 0xD012) = 31 ∧
           Cycle 0 s2 = Some s3 ∧
           ¬ (I s2 + (nib4_of 0xD012 - 1) < 4096).
Proof.
  eexists. eexists. split; [by vm_compute|]. split; [compute_done|].
  do 3 (split; [by vm_compute|]). split; [by vm_compute|]. by vm_compute.
Qed.

(** ** More of the dispatch *)

Lemma dispatch_1 rnd op s :
  nib1_of op = 0x1 → dispatch rnd op s = Opcode1xxx (addr_of op) s.
Proof. intros H. unfold dispatch. by rewrite H. Qed.

Lemma dispatch_2 rnd op s :
  nib1_of op = 0x2 → dispatch rnd op s = Opcode2xxx (addr_of op) s.
Proof. intros H. unfold dispatch. by rewrite H. Qed.

Lemma dispatch_3 rnd op s :
  nib1_of op = 0x3 → dispatch rnd op s = Opcode3xxx (regX_of op) (val_of op) s.
Proof. intros H. unfold dispatch. by rewrite H. Qed.

Lemma dispatch_4 rnd op s :
  nib1_of op = 0x4 → dispatch rnd op s = Opcode4xxx (regX_of op) (val_of op) s.
Proof. intros H. unfold dispatch. by rewrite H. Qed.

Lemma dispatch_7 rnd op s :
  nib1_of op = 0x7 → dispatch rnd op s = Opcode7xxx (regX_of op) (val_of op) s.
Proof. intros H. unfold dispatch. by rewrite H. Qed.

Lemma dispatch_C rnd op s :
  nib1_of op = 0xC →
  dispatch rnd op s = OpcodeCxxx rnd (regX_of op) (val_of op) s.
Proof. intros H. unfold dispatch. by rewrite H. Qed.

(** ** The invariant over the whole driver *)

Lemma UpdateTimers_wf s : wf s → wf (UpdateTimers s).
Proof.
  intros Hwf. unfold UpdateTimers.
  destruct (delay_timer s >? 0).
  - destruct (sound_timer _ >? 0).
    + apply wf_set_sound_timer; [apply u8_byte|].
      apply wf_set_delay_timer; [apply u8_byte|done].
    + apply wf_set_delay_timer; [apply u8_byte|done].
  - destruct (sound_timer s >? 0); [|done].
    apply wf_set_sound_timer; [apply u8_byte|done].
Qed.

Lemma SetKey_wf key pressed s s' : wf s → SetKey key pressed s = Some s' → wf s'.
Proof.
  intros Hwf. unfold SetKey, put.
  destruct ((0 <=? key) && (key <? Z.of_nat (length (keypad s)))); [|done].
  cbn [mbind option_bind]. intros [= <-].
  destruct Hwf as (Hm & HV' & Hr & Hst & Ht & [HkL HkB] & Hd).
  unfold wf. fields. do 5 (split; [done|]). split; [|done]. split.
  - by rewrite length_insert.
  - apply Forall_insert; [done|]. unfold byte. destruct pressed; lia.
Qed.

Lemma wf_set_memory m s :
  length m = 4096%nat → Forall byte m → wf s → wf (set_memory m s).
Proof. unfold wf. fields. tauto. Qed.

Lemma LoadROM_wf file s :
  match file with Some bytes => Forall byte bytes | None => True end →
  wf (LoadROM file s).1.
Proof.
  intros Hb. unfold LoadROM. pose proof (Reset_wf s) as Hwf.
  generalize dependent (Reset s). intros r Hwf.
  destruct file as [bytes|]; [|done].
  destruct (Z.gtb_spec (Z.of_nat (length bytes)) (MEMORY_SIZE - START_ADDR))
    as [Hgt|Hle]; [done|].
  unfold MEMORY_SIZE, START_ADDR in Hle. cbn [fst].
  pose proof (wf_memory_length r Hwf) as HL.
  assert (Forall byte (memory r)) as HM by (by destruct Hwf as ([_ ?] & _)).
  apply wf_set_memory; [| |done]; unfold memcpy, START_ADDR.
  - rewrite !length_app, length_take, length_drop. lia.
  - repeat apply Forall_app_2; [by apply Forall_take|done|by apply Forall_drop].
Qed.

(** X1.  Whatever the program does with its machine (construct, [Reset],
    [LoadROM], [Cycle], [UpdateTimers], [SetKey], [ClearDrawFlag], in any
    order and number), as long as every [Cycle] is defined the state is
    well-formed: the arrays keep their sizes, every member is in the range of
    its C++ type, and every display cell is 0 or 1. *)
Theorem reachable_wf (s : Chip8) : reachable s → wf s.
Proof.
  induction 1 as [|s _ _|s bytes _ _ Hb|s _ _|s rnd s' _ IH Hc|s _ IH
                 |s key pressed s' _ IH Hk|s _ IH].
  - apply Reset_wf.
  - apply Reset_wf.
  - by apply (LoadROM_wf (Some bytes)).
  - by apply (LoadROM_wf None).
  - by eapply Cycle_wf.
  - by apply UpdateTimers_wf.
  - by eapply SetKey_wf.
  - by apply wf_set_drawFlag.
Qed.

Lemma reachable_wf_witness :
  wf (UpdateTimers
        (set_drawFlag true
           (set_display (zeros 2048) (set_pc 0x202 (boot [0x00; 0xE0]))))).
Proof.
  apply reachable_wf. apply reach_UpdateTimers.
  apply (reach_Cycle (boot [0x00; 0xE0]) 0); [|by vm_compute].
  apply (reach_LoadROM Chip8_new [0x00; 0xE0]); [apply reach_new|].
  unfold byte. repeat constructor; lia.
Defined.

(** ** Fetch and decode, arithmetically *)

Lemma lor_shiftl_byte hi lo :
  0 <= hi → 0 <= lo < 256 → Z.lor (Z.shiftl hi 8) lo = 256 * hi + lo.
Proof.
  intros Hhi Hlo.
  assert (Z.land (Z.shiftl hi 8) lo = 0) as Hdisj.
  { apply Z.bits_inj'. intros n Hn.
    rewrite Z.land_spec, Z.bits_0.
    destruct (Z.lt_ge_cases n 8) as [Hlt|Hge].
    - rewrite Z.shiftl_spec_low by lia. done.
    - rewrite <- (Z.mod_small lo (2 ^ 8)) by (change (2 ^ 8) with 256; lia).
      rewrite Z.mod_pow2_bits_high by lia. by rewrite andb_false_r. }
  rewrite <- Z.lxor_lor, <- Z.add_nocarry_lxor by done.
  rewrite Z.shiftl_mul_pow2 by lia. change (2 ^ 8) with 256. lia.
Qed.

(** X2.  [Cycle] reads its instruction word big-endian from [memory[pc]] and
    [memory[pc + 1]]; the fetch, and with it the [Cycle], is defined exactly
    when [pc + 1] is below 4096, so a [pc] of 0xFFF or more (which the
    interpreter can produce) ends the defined behaviour. *)
Theorem fetch_spec (rnd : Z) (s : Chip8) :
  wf s →
  (is_Some (fetch s) ↔ pc s + 1 < 4096) ∧
  (∀ op, fetch s = Some op →
         op = 256 * (memory s !!! Z.to_nat (pc s))
              + memory s !!! Z.to_nat (pc s + 1)
         ∧ 0 <= op < 65536) ∧
  (4096 <= pc s + 1 → Cycle rnd s = None).
Proof.
  intros Hwf. pose proof (wf_memory_length s Hwf) as HL.
  pose proof (wf_word_pc s Hwf) as Hpc. unfold word in Hpc.
  assert (Hiff : is_Some (fetch s) ↔ pc s + 1 < 4096).
  { split.
    - intros [op Hf]. by destruct (fetch_Some s op Hwf Hf).
    - intros. apply fetch_total; [done|lia|done]. }
  split; [exact Hiff|]. split.
  - intros op Hf. destruct (fetch_Some s op Hwf Hf) as [H0 H1].
    unfold fetch in Hf. rewrite !get_total in Hf by lia.
    cbn [mbind option_bind] in Hf. injection Hf as <-.
    destruct Hwf as ([_ HM] & _).
    assert (byte (memory s !!! Z.to_nat (pc s))) as Hhi
      by (apply Forall_total; [done|lia]).
    assert (byte (memory s !!! Z.to_nat (pc s + 1))) as Hlo
      by (apply Forall_total; [done|lia]).
    unfold byte in Hhi, Hlo.
    rewrite lor_shiftl_byte by lia.
    rewrite u16_small by (unfold word; lia). lia.
  - intros Hout. unfold Cycle.
    destruct (decide (is_Some (fetch s))) as [Hs|Hn].
    + apply Hiff in Hs. lia.
    + destruct (fetch s) as [op|]; [|done]. exfalso. apply Hn. by eexists.
Qed.

Lemma fetch_spec_witness :
  fetch (boot [0xA2; 0xF0]) = Some (256 * 0xA2 + 0xF0) ∧
  Cycle 0 (set_pc 0xFFF Chip8_new) = None.
Proof.
  destruct (fetch_spec 0 (boot [0xA2; 0xF0])) as (_ & H & _); [compute_done|].
  destruct (fetch_spec 0 (set_pc 0xFFF Chip8_new)) as (_ & _ & H');
    [compute_done|].
  split.
  - destruct (fetch (boot [0xA2; 0xF0])) as [op|] eqn:E; [|by vm_compute in E].
    destruct (H op eq_refl) as [-> _]. by vm_compute.
  - apply H'. by vm_compute.
Defined.

(** X3.  The six fields [Cycle] decodes are the hexadecimal digits of the
    16-bit instruction word: the word is [nib1 regX regY nib4], [addr] is its
    low three digits and [val] its low two. *)
Theorem decode_spec (op : Z) :
  0 <= op < 65536 →
  op = 4096 * nib1_of op + 256 * regX_of op + 16 * regY_of op + nib4_of op ∧
  addr_of op = 256 * regX_of op + 16 * regY_of op + nib4_of op ∧
  val_of op = 16 * regY_of op + nib4_of op.
Proof.
  intros Hop.
  rewrite nib1_of_spec, regX_of_spec, regY_of_spec, nib4_of_spec,
    addr_of_spec, val_of_spec.
  Z.to_euclidean_division_equations. lia.
Qed.

Lemma decode_spec_witness :
  0xD12A = 4096 * nib1_of 0xD12A + 256 * regX_of 0xD12A
           + 16 * regY_of 0xD12A + nib4_of 0xD12A.
Proof. destruct (decode_spec 0xD12A) as (H & _); [lia|exact H]. Defined.

(** ** Call and return *)

(** X4.  With fewer than 16 calls pending, [2NNN] is defined, stores the
    address of the next instruction in [stack[sp]], increments [sp] and
    jumps to NNN, changing nothing else; a [00EE] executed in that state
    returns to the instruction after the call and restores [sp], so that
    the pair changes nothing but that one stack slot and [pc]. *)
Theorem call_return_roundtrip (rnd : Z) (s : Chip8) (op : Z) :
  wf s → fetch s = Some op → nib1_of op = 0x2 → sp s < 16 →
  let k := <[Z.to_nat (sp s) := pc s + 2]> (stack s) in
  let s1 := set_pc (addr_of op) (set_sp (sp s + 1) (set_stack k s)) in
  Cycle rnd s = Some s1 ∧
  (fetch s1 = Some 0x00EE →
   Cycle rnd s1 = Some (set_pc (pc s + 2) (set_stack k s))).
Proof.
  intros Hwf Hf H1 Hsp k s1.
  destruct Hwf as (Hm & HV' & (HI & Hpc & Hspb) & [HsL HsF] & Hrest).
  assert (wf s) as Hwf by (unfold wf; tauto).
  unfold byte in Hspb.
  pose proof (skip_pc s op Hwf Hf) as Hskip.
  assert (E1 : Cycle rnd s = Some s1).
  { rewrite (Cycle_dispatch _ _ _ Hf), dispatch_2 by done.
    unfold Opcode2xxx. change (stack (skip s)) with (stack s).
    change (sp (skip s)) with (sp s). rewrite put_Some by lia.
    cbn [mbind option_bind]. fields. rewrite Hskip.
    rewrite u8_small by (unfold byte; lia). reflexivity. }
  split; [exact E1|]. intros Hf1.
  rewrite (Cycle_dispatch _ _ _ Hf1), dispatch_0 by done.
  unfold Opcode0xxx. cbn [Z.eqb Pos.eqb]. unfold s1, skip. fields.
  replace (sp s + 1 - 1) with (sp s) by lia.
  rewrite u8_small by (unfold byte; lia).
  rewrite get_total by (unfold k; rewrite length_insert; lia).
  cbn [mbind option_bind]. unfold k.
  rewrite list_lookup_total_insert_eq by lia.
  destruct s. reflexivity.
Qed.

Lemma call_return_roundtrip_witness :
  let s := boot [0x22; 0x04; 0x00; 0x00; 0x00; 0xEE] in
  ∃ s1 s2, Cycle 0 s = Some s1 ∧ pc s1 = 0x204 ∧ sp s1 = 1 ∧
           Cycle 0 s1 = Some s2 ∧ pc s2 = 0x202 ∧ sp s2 = 0.
Proof.
  intros s.
  destruct (call_return_roundtrip 0 s 0x2204) as [E1 E2];
    [compute_done|by vm_compute|by vm_compute|by vm_compute|].
  eexists. eexists. split; [exact E1|]. split; [by vm_compute|].
  split; [by vm_compute|]. split; [apply E2; by vm_compute|].
  split; by vm_compute.
Defined.

(** X5.  Neither [2NNN] nor [00EE] checks the stack pointer: a call is
    defined exactly when [sp <= 15], a return exactly when
    [1 <= sp <= 16].  The 17th nested call and a return with nothing pending
    (where [--sp] wraps to 255) index [stack] out of bounds. *)
Theorem stack_bounds_spec (rnd : Z) (s : Chip8) (op : Z) :
  wf s → fetch s = Some op →
  (nib1_of op = 0x2 → (is_Some (Cycle rnd s) ↔ sp s <= 15)) ∧
  (op = 0x00EE → (is_Some (Cycle rnd s) ↔ 1 <= sp s <= 16)).
Proof.
  intros Hwf Hf.
  destruct Hwf as (Hm & HV' & (HI & Hpc & Hspb) & [HsL HsF] & Hrest).
  assert (wf s) as Hwf by (unfold wf; tauto).
  unfold byte in Hspb.
  rewrite (Cycle_dispatch _ _ _ Hf). split.
  - intros H1. rewrite dispatch_2 by done. unfold Opcode2xxx.
    change (stack (skip s)) with (stack s). change (sp (skip s)) with (sp s).
    destruct (decide (sp s <= 15)) as [Hin|Hout].
    + rewrite put_Some by lia. cbn [mbind option_bind].
      split; [done|]. intros _. by eexists.
    + rewrite put_None by lia. cbn [mbind option_bind].
      split; [intros [? ?]; done|lia].
  - intros ->. rewrite dispatch_0 by done. unfold Opcode0xxx.
    cbn [Z.eqb Pos.eqb]. unfold skip. fields.
    destruct (decide (1 <= sp s <= 16)) as [Hin|Hout].
    + rewrite u8_small by (unfold byte; lia).
      rewrite get_total by lia. cbn [mbind option_bind].
      split; [done|]. intros _. by eexists.
    + rewrite get_None.
      * cbn [mbind option_bind]. split; [intros [? ?]; done|lia].
      * unfold u8. destruct (decide (sp s = 0)) as [->|Hne].
        -- change ((0 - 1) mod 256) with 255. lia.
        -- rewrite Z.mod_small by lia. lia.
Qed.

Lemma stack_bounds_spec_witness :
  Cycle 0 (boot [0x00; 0xEE]) = None ∧
  Cycle 0 (set_sp 16 (boot [0x22; 0x00])) = None ∧
  is_Some (Cycle 0 (set_sp 15 (boot [0x22; 0x00]))).
Proof.
  split; [|split].
  - destruct (stack_bounds_spec 0 (boot [0x00; 0xEE]) 0x00EE) as [_ H];
      [compute_done|by vm_compute|].
    destruct (Cycle 0 (boot [0x00; 0xEE])) as [s'|] eqn:E; [|done].
    exfalso. assert (1 <= sp (boot [0x00; 0xEE]) <= 16) as Hsp
      by (apply H; [done|by eexists]).
    vm_compute in Hsp. by destruct Hsp as [Hsp _].
  - destruct (stack_bounds_spec 0 (set_sp 16 (boot [0x22; 0x00])) 0x2200)
      as [H _]; [compute_done|by vm_compute|].
    destruct (Cycle 0 (set_sp 16 (boot [0x22; 0x00]))) as [s'|] eqn:E; [|done].
    exfalso. assert (sp (set_sp 16 (boot [0x22; 0x00])) <= 15) as Hsp
      by (apply H; [by vm_compute|by eexists]).
    by vm_compute in Hsp.
  - destruct (stack_bounds_spec 0 (set_sp 15 (boot [0x22; 0x00])) 0x2200)
      as [H _]; [compute_done|by vm_compute|].
    apply H; by vm_compute.
Defined.

(** ** Arithmetic of class 8 *)

Lemma Cycle_8 rnd s op :
  wf s → fetch s = Some op → nib1_of op = 0x8 →
  Cycle rnd s
  = Opcode8xxx (regX_of op) (regY_of op) (nib4_of op) (set_pc (pc s + 2) s).
Proof.
  intros Hwf Hf H1.
  by rewrite (Cycle_dispatch _ _ _ Hf), dispatch_8, (skip_eq s op Hwf Hf).
Qed.

Lemma Vget_set_pc p s r : Vget (set_pc p s) r = Vget s r.
Proof. reflexivity. Qed.

Lemma V_length_set_pc p s : length (V (set_pc p s)) = length (V s).
Proof. reflexivity. Qed.

(** Reads of the register file after the stores of a handler. *)
Ltac vget :=
  repeat first
    [ rewrite Vget_set_pc
    | rewrite Vget_Vset_eq
        by (rewrite ?Vset_length, ?V_length_set_pc; lia)
    | rewrite Vget_Vset_ne by lia ].

(** X6.  [8XY5] with X other than 0xF: the flag register becomes 1 if
    [V[X] > V[Y]] and 0 otherwise (0 also when they are equal), and [V[X]]
    becomes [V[X] - V[Y]] modulo 256; the flag is stored first, so with
    Y = 0xF it is the new flag that is subtracted.  No other register and
    nothing else but [pc] changes. *)
Theorem sub_borrow_spec (rnd : Z) (s : Chip8) (op : Z) :
  wf s → fetch s = Some op → nib1_of op = 0x8 → nib4_of op = 0x5 →
  let X := regX_of op in
  let Y := regY_of op in
  let f := if Vget s X >? Vget s Y then 1 else 0 in
  let vy := if decide (Y = 0xF) then f else Vget s Y in
  X ≠ 0xF →
  ∃ s', Cycle rnd s = Some s' ∧
    Vget s' X = (Vget s X - vy) mod 256 ∧
    Vget s' 0xF = f ∧
    (∀ r, 0 <= r < 16 → r ≠ X → r ≠ 0xF → Vget s' r = Vget s r) ∧
    s' = set_V (V s') (set_pc (pc s + 2) s).
Proof.
  intros Hwf Hf H1 H4 X Y f vy HX.
  pose proof (regX_of_range op) as HXr. fold X in HXr.
  pose proof (regY_of_range op) as HYr. fold Y in HYr.
  pose proof (wf_V_length s Hwf) as HL.
  assert (u8 f = f) as Hf8 by (unfold f; by destruct (_ >? _)).
  rewrite (Cycle_8 _ _ _ Hwf Hf H1). unfold Opcode8xxx.
  rewrite H4. cbn [Z.eqb Pos.eqb]. fold X Y. rewrite !Vget_set_pc. fold f.
  eexists. split; [reflexivity|]. split; [|split; [|split]].
  - vget. unfold vy. destruct (decide (Y = 15)) as [->|HY]; vget; by rewrite ?Hf8.
  - by vget.
  - intros r Hr HrX HrF. by vget.
  - reflexivity.
Qed.

(** The instance of the specification: [V[0] = 0x01], [V[1] = 0x02]. *)
Lemma sub_borrow_spec_witness :
  let s := Vset 1 0x02 (Vset 0 0x01 (boot [0x80; 0x15])) in
  ∃ s', Cycle 0 s = Some s' ∧ Vget s' 0 = 0xFF ∧ Vget s' 0xF = 0.
Proof.
  intros s.
  destruct (sub_borrow_spec 0 s 0x8015) as (s' & E & HX & HF & _);
    [compute_done|by vm_compute|by vm_compute|by vm_compute|by vm_compute|].
  exists s'. split; [exact E|]. split; [exact HX|exact HF].
Defined.

(** X7.  [8XY7] with X other than 0xF: the flag register becomes 1 if
    [V[Y] > V[X]] and 0 otherwise, and [V[X]] becomes [V[Y] - V[X]] modulo
    256, where with Y = 0xF the [V[Y]] read is the flag just stored. *)
Theorem subn_borrow_spec (rnd : Z) (s : Chip8) (op : Z) :
  wf s → fetch s = Some op → nib1_of op = 0x8 → nib4_of op = 0x7 →
  let X := regX_of op in
  let Y := regY_of op in
  let f := if Vget s Y >? Vget s X then 1 else 0 in
  let vy := if decide (Y = 0xF) then f else Vget s Y in
  X ≠ 0xF →
  ∃ s', Cycle rnd s = Some s' ∧
    Vget s' X = (vy - Vget s X) mod 256 ∧
    Vget s' 0xF = f ∧
    (∀ r, 0 <= r < 16 → r ≠ X → r ≠ 0xF → Vget s' r = Vget s r) ∧
    s' = set_V (V s') (set_pc (pc s + 2) s).
Proof.
  intros Hwf Hf H1 H4 X Y f vy HX.
  pose proof (regX_of_range op) as HXr. fold X in HXr.
  pose proof (regY_of_range op) as HYr. fold Y in HYr.
  pose proof (wf_V_length s Hwf) as HL.
  assert (u8 f = f) as Hf8 by (unfold f; by destruct (_ >? _)).
  rewrite (Cycle_8 _ _ _ Hwf Hf H1). unfold Opcode8xxx.
  rewrite H4. cbn [Z.eqb Pos.eqb]. fold X Y. rewrite !Vget_set_pc. fold f.
  eexists. split; [reflexivity|]. split; [|split; [|split]].
  - vget. unfold vy. destruct (decide (Y = 15)) as [->|HY]; vget; by rewrite ?Hf8.
  - by vget.
  - intros r Hr HrX HrF. by vget.
  - reflexivity.
Qed.

Lemma subn_borrow_spec_witness :
  let s := Vset 1 0x05 (Vset 0 0x03 (boot [0x80; 0x17])) in
  ∃ s', Cycle 0 s = Some s' ∧ Vget s' 0 = 0x02 ∧ Vget s' 0xF = 1.
Proof.
  intros s.
  destruct (subn_borrow_spec 0 s 0x8017) as (s' & E & HX & HF & _);
    [compute_done|by vm_compute|by vm_compute|by vm_compute|by vm_compute|].
  exists s'. split; [exact E|]. split; [exact HX|exact HF].
Defined.

(** X8.  [8XY6] shifts [V[Y]], not [V[X]]: with X and Y other than 0xF,
    [V[X]] becomes [V[Y] / 2] and the flag register the bit shifted out, so
    that [V[Y] = 2 * V[X] + V[0xF]] afterwards. *)
Theorem shift_right_spec (rnd : Z) (s : Chip8) (op : Z) :
  wf s → fetch s = Some op → nib1_of op = 0x8 → nib4_of op = 0x6 →
  let X := regX_of op in
  let Y := regY_of op in
  X ≠ 0xF → Y ≠ 0xF →
  ∃ s', Cycle rnd s = Some s' ∧
    Vget s' X = Vget s Y / 2 ∧
    Vget s' 0xF = Vget s Y mod 2 ∧
    Vget s Y = 2 * Vget s' X + Vget s' 0xF ∧
    (∀ r, 0 <= r < 16 → r ≠ X → r ≠ 0xF → Vget s' r = Vget s r) ∧
    s' = set_V (V s') (set_pc (pc s + 2) s).
Proof.
  intros Hwf Hf H1 H4 X Y HX HY.
  pose proof (regX_of_range op) as HXr. fold X in HXr.
  pose proof (regY_of_range op) as HYr. fold Y in HYr.
  pose proof (wf_V_length s Hwf) as HL.
  pose proof (Vget_byte s Y Hwf HYr) as Hb. unfold byte in Hb.
  rewrite (Cycle_8 _ _ _ Hwf Hf H1). unfold Opcode8xxx.
  rewrite H4. cbn [Z.eqb Pos.eqb]. fold X Y. rewrite !Vget_set_pc.
  assert (Hlow : Z.land (Vget s Y) 1 = Vget s Y mod 2)
    by (change 1 with (Z.ones 1); by rewrite Z.land_ones by lia).
  assert (Hhigh : Z.shiftr (Vget s Y) 1 = Vget s Y / 2)
    by (by rewrite Z.shiftr_div_pow2 by lia).
  assert (HX' : u8 (Vget s Y / 2) = Vget s Y / 2)
    by (apply u8_small; unfold byte; Z.to_euclidean_division_equations; lia).
  assert (HF' : u8 (Vget s Y mod 2) = Vget s Y mod 2)
    by (apply u8_small; unfold byte; Z.to_euclidean_division_equations; lia).
  eexists. split; [reflexivity|].
  set (s' := Vset X _ _).
  assert (EX : Vget s' X = Vget s Y / 2)
    by (unfold s'; vget; by rewrite Hhigh, HX').
  assert (EF : Vget s' 15 = Vget s Y mod 2)
    by (unfold s'; vget; by rewrite Hlow, HF').
  split; [exact EX|]. split; [exact EF|]. split; [|split].
  - rewrite EX, EF. Z.to_euclidean_division_equations. lia.
  - intros r Hr HrX HrF. unfold s'. by vget.
  - reflexivity.
Qed.

Lemma shift_right_spec_witness :
  let s := Vset 1 0x07 (boot [0x80; 0x16]) in
  ∃ s', Cycle 0 s = Some s' ∧ Vget s' 0 = 3 ∧ Vget s' 0xF = 1.
Proof.
  intros s.
  destruct (shift_right_spec 0 s 0x8016) as (s' & E & HX & HF & _);
    [compute_done|by vm_compute|by vm_compute|by vm_compute|by vm_compute
    |by vm_compute|].
  exists s'. split; [exact E|]. split; [exact HX|exact HF].
Defined.

(** X9.  [8XYE] shifts [V[Y]] left: with X and Y other than 0xF, [V[X]]
    becomes [2 * V[Y]] modulo 256 and the flag register bit 7 of [V[Y]], so
    that [2 * V[Y] = 256 * V[0xF] + V[X]] afterwards. *)
Theorem shift_left_spec (rnd : Z) (s : Chip8) (op : Z) :
  wf s → fetch s = Some op → nib1_of op = 0x8 → nib4_of op = 0xE →
  let X := regX_of op in
  let Y := regY_of op in
  X ≠ 0xF → Y ≠ 0xF →
  ∃ s', Cycle rnd s = Some s' ∧
    Vget s' X = (2 * Vget s Y) mod 256 ∧
    Vget s' 0xF = Vget s Y / 128 ∧
    2 * Vget s Y = 256 * Vget s' 0xF + Vget s' X ∧
    (∀ r, 0 <= r < 16 → r ≠ X → r ≠ 0xF → Vget s' r = Vget s r) ∧
    s' = set_V (V s') (set_pc (pc s + 2) s).
Proof.
  intros Hwf Hf H1 H4 X Y HX HY.
  pose proof (regX_of_range op) as HXr. fold X in HXr.
  pose proof (regY_of_range op) as HYr. fold Y in HYr.
  pose proof (wf_V_length s Hwf) as HL.
  pose proof (Vget_byte s Y Hwf HYr) as Hb. unfold byte in Hb.
  rewrite (Cycle_8 _ _ _ Hwf Hf H1). unfold Opcode8xxx.
  rewrite H4. cbn [Z.eqb Pos.eqb]. fold X Y. rewrite !Vget_set_pc.
  assert (Htop : Z.shiftr (Z.land (Vget s Y) 0x80) 7 = Vget s Y / 128).
  { rewrite Z.shiftr_land. change (Z.shiftr 128 7) with (Z.ones 1).
    rewrite Z.land_ones, Z.shiftr_div_pow2 by lia.
    change (2 ^ 7) with 128. change (2 ^ 1) with 2.
    Z.to_euclidean_division_equations. lia. }
  assert (Hshl : Z.shiftl (Vget s Y) 1 = 2 * Vget s Y)
    by (rewrite Z.shiftl_mul_pow2 by lia; change (2 ^ 1) with 2; lia).
  assert (HF' : u8 (Vget s Y / 128) = Vget s Y / 128)
    by (apply u8_small; unfold byte; Z.to_euclidean_division_equations; lia).
  eexists. split; [reflexivity|].
  set (s' := Vset X _ _).
  assert (EX : Vget s' X = (2 * Vget s Y) mod 256)
    by (unfold s'; vget; by rewrite Hshl).
  assert (EF : Vget s' 15 = Vget s Y / 128)
    by (unfold s'; vget; by rewrite Htop, HF').
  split; [exact EX|]. split; [exact EF|]. split; [|split].
  - rewrite EX, EF. Z.to_euclidean_division_equations. lia.
  - intros r Hr HrX HrF. unfold s'. by vget.
  - reflexivity.
Qed.

Lemma shift_left_spec_witness :
  let s := Vset 1 0x81 (boot [0x80; 0x1E]) in
  ∃ s', Cycle 0 s = Some s' ∧ Vget s' 0 = 2 ∧ Vget s' 0xF = 1.
Proof.
  intros s.
  destruct (shift_left_spec 0 s 0x801E) as (s' & E & HX & HF & _);
    [compute_done|by vm_compute|by vm_compute|by vm_compute|by vm_compute
    |by vm_compute|].
  exists s'. split; [exact E|]. split; [exact HX|exact HF].
Defined.

(** ** Bitwise operations on bytes *)

Lemma byte_bits x : 0 <= x → (byte x ↔ ∀ n, 8 <= n → Z.testbit x n = false).
Proof.
  intros Hx. unfold byte. split.
  - intros Hb n Hn.
    rewrite <- (Z.mod_small x (2 ^ 8)) by (change (2 ^ 8) with 256; lia).
    by rewrite Z.mod_pow2_bits_high by lia.
  - intros Hbits. split; [done|].
    destruct (decide (x = 0)) as [->|Hne]; [lia|].
    assert (Z.log2 x < 8) as Hlog.
    { destruct (Z.lt_ge_cases (Z.log2 x) 8) as [|Hge]; [done|].
      pose proof (Z.bit_log2 x ltac:(lia)) as Hb.
      rewrite Hbits in Hb by done. discriminate. }
    apply Z.log2_lt_pow2 in Hlog; [|lia]. change (2 ^ 8) with 256 in Hlog. lia.
Qed.

Lemma byte_lor a b : byte a → byte b → byte (Z.lor a b).
Proof.
  intros Ha Hb.
  assert (0 <= Z.lor a b) as H0 by (apply Z.lor_nonneg; unfold byte in *; lia).
  apply byte_bits; [done|]. intros n Hn. rewrite Z.lor_spec.
  rewrite (proj1 (byte_bits a ltac:(unfold byte in *; lia)) Ha n Hn).
  by rewrite (proj1 (byte_bits b ltac:(unfold byte in *; lia)) Hb n Hn).
Qed.

Lemma byte_land a b : byte a → byte b → byte (Z.land a b).
Proof.
  intros Ha Hb.
  assert (0 <= Z.land a b) as H0 by (apply Z.land_nonneg; unfold byte in *; lia).
  apply byte_bits; [done|]. intros n Hn. rewrite Z.land_spec.
  by rewrite (proj1 (byte_bits a ltac:(unfold byte in *; lia)) Ha n Hn).
Qed.

Lemma byte_lxor a b : byte a → byte b → byte (Z.lxor a b).
Proof.
  intros Ha Hb.
  assert (0 <= Z.lxor a b) as H0 by (apply Z.lxor_nonneg; unfold byte in *; lia).
  apply byte_bits; [done|]. intros n Hn. rewrite Z.lxor_spec.
  rewrite (proj1 (byte_bits a ltac:(unfold byte in *; lia)) Ha n Hn).
  by rewrite (proj1 (byte_bits b ltac:(unfold byte in *; lia)) Hb n Hn).
Qed.

(** X10.  [8XY1], [8XY2] and [8XY3] store the bitwise OR, AND and XOR of
    [V[X]] and [V[Y]] in [V[X]], exactly (the result is a byte, nothing is
    cut off), and change no other register: unlike the arithmetic words
    they leave the flag register alone. *)
Theorem logic_spec (rnd : Z) (s : Chip8) (op : Z) :
  wf s → fetch s = Some op → nib1_of op = 0x8 →
  let X := regX_of op in
  let Y := regY_of op in
  ∀ f : Z → Z → Z,
    (nib4_of op = 0x1 ∧ f = Z.lor) ∨ (nib4_of op = 0x2 ∧ f = Z.land) ∨
    (nib4_of op = 0x3 ∧ f = Z.lxor) →
    ∃ s', Cycle rnd s = Some s' ∧
      Vget s' X = f (Vget s X) (Vget s Y) ∧
      (∀ r, 0 <= r < 16 → r ≠ X → Vget s' r = Vget s r) ∧
      s' = set_V (V s') (set_pc (pc s + 2) s).
Proof.
  intros Hwf Hf H1 X Y f Hop.
  pose proof (regX_of_range op) as HXr. fold X in HXr.
  pose proof (regY_of_range op) as HYr. fold Y in HYr.
  pose proof (wf_V_length s Hwf) as HL.
  pose proof (Vget_byte s X Hwf HXr) as HbX.
  pose proof (Vget_byte s Y Hwf HYr) as HbY.
  rewrite (Cycle_8 _ _ _ Hwf Hf H1). unfold Opcode8xxx. fold X Y.
  destruct Hop as [[H4 ->]|[[H4 ->]|[H4 ->]]]; rewrite H4;
    cbn [Z.eqb Pos.eqb]; rewrite !Vget_set_pc;
    (eexists; split; [reflexivity|]; split; [|split; [|reflexivity]]);
    try (intros r Hr HrX; by vget); vget; apply u8_small.
  - by apply byte_lor.
  - by apply byte_land.
  - by apply byte_lxor.
Qed.

Lemma logic_spec_witness :
  let s := Vset 0xF 0x01 (Vset 1 0x0F (Vset 0 0x3C (boot [0x80; 0x13]))) in
  ∃ s', Cycle 0 s = Some s' ∧ Vget s' 0 = 0x33 ∧ Vget s' 0xF = 0x01.
Proof.
  intros s.
  destruct (logic_spec 0 s 0x8013) with (f := Z.lxor)
    as (s' & E & HX & Hr & _);
    [compute_done|by vm_compute|by vm_compute
    |right; right; split; [by vm_compute|done]|].
  exists s'. split; [exact E|]. split; [exact HX|].
  rewrite Hr; [by vm_compute|lia|by vm_compute].
Defined.

(** ** Random numbers *)

Lemma land_le_r a b : 0 <= a → 0 <= b → Z.land a b <= b.
Proof.
  intros Ha Hb.
  assert (Z.land (Z.ldiff b a) (Z.land b a) = 0) as Hdisj.
  { apply Z.bits_inj'. intros n Hn.
    rewrite !Z.land_spec, Z.ldiff_spec, Z.bits_0.
    by destruct (Z.testbit b n), (Z.testbit a n). }
  assert (Z.ldiff b a + Z.land b a = b) as Hsum.
  { rewrite Z.add_nocarry_lxor, Z.lxor_lor by done. apply Z.lor_ldiff_and. }
  assert (0 <= Z.ldiff b a) by (apply Z.ldiff_nonneg; lia).
  rewrite (Z.land_comm a b). lia.
Qed.

(** X11.  [CXNN] stores [(rand() mod 256) AND NN] in [V[X]]: whatever
    [rand()] answers, the result is at most NN and has no bit outside NN (so
    it is 0 when NN is 0), and nothing but [V[X]] and [pc] changes. *)
Theorem random_mask_spec (rnd : Z) (s : Chip8) (op : Z) :
  wf s → fetch s = Some op → nib1_of op = 0xC →
  let X := regX_of op in
  let NN := val_of op in
  ∃ s', Cycle rnd s = Some s' ∧
    Vget s' X = Z.land (rnd mod 256) NN ∧
    0 <= Vget s' X <= NN ∧
    Z.land (Vget s' X) NN = Vget s' X ∧
    (∀ r, 0 <= r < 16 → r ≠ X → Vget s' r = Vget s r) ∧
    s' = set_V (V s') (set_pc (pc s + 2) s).
Proof.
  intros Hwf Hf H1 X NN.
  pose proof (regX_of_range op) as HXr. fold X in HXr.
  pose proof (val_of_range op) as HN. fold NN in HN.
  pose proof (wf_V_length s Hwf) as HL.
  pose proof (Z.mod_pos_bound rnd 256 ltac:(lia)) as Hr.
  rewrite (Cycle_dispatch _ _ _ Hf), dispatch_C, (skip_eq s op Hwf Hf) by done.
  unfold OpcodeCxxx. fold X NN.
  assert (byte (Z.land (rnd mod 256) NN)) as Hb
    by (by apply byte_land).
  pose proof (land_le_r (rnd mod 256) NN ltac:(lia) ltac:(lia)) as Hle.
  eexists. split; [reflexivity|].
  set (s' := Vset X _ _).
  assert (EX : Vget s' X = Z.land (rnd mod 256) NN)
    by (unfold s'; vget; by apply u8_small).
  split; [exact EX|]. rewrite EX. split; [unfold byte in Hb; lia|].
  split; [by rewrite <- Z.land_assoc, Z.land_diag|]. split; [|reflexivity].
  intros r Hr0 HrX. unfold s'. by vget.
Qed.

Lemma random_mask_spec_witness :
  ∃ s', Cycle 0x1234 (boot [0xC3; 0x0F]) = Some s' ∧ Vget s' 3 = 0x04.
Proof.
  destruct (random_mask_spec 0x1234 (boot [0xC3; 0x0F]) 0xC30F)
    as (s' & E & HX & _); [compute_done|by vm_compute|by vm_compute|].
  exists s'. split; [exact E|exact HX].
Defined.

(** ** Skips *)

(** X12.  [3XNN] leaves [pc] 4 past the instruction when [V[X] = NN] and 2
    past it otherwise; [4XNN] does the opposite; neither changes anything
    else. *)
Theorem skip_immediate_spec (rnd : Z) (s : Chip8) (op : Z) :
  wf s → fetch s = Some op →
  let X := regX_of op in
  let NN := val_of op in
  (nib1_of op = 0x3 →
     Cycle rnd s
     = Some (set_pc (pc s + (if Vget s X =? NN then 4 else 2)) s)) ∧
  (nib1_of op = 0x4 →
     Cycle rnd s
     = Some (set_pc (pc s + (if Vget s X =? NN then 2 else 4)) s)).
Proof.
  intros Hwf Hf X NN.
  pose proof (skip_eq s op Hwf Hf) as Hs2.
  pose proof (skip_skip_eq s op Hwf Hf) as Hs4.
  rewrite (Cycle_dispatch _ _ _ Hf). split; intros H1.
  - rewrite dispatch_3 by done. unfold Opcode3xxx. fold X NN.
    change (Vget (skip s) X) with (Vget s X).
    destruct (Vget s X =? NN); by rewrite ?Hs4, ?Hs2.
  - rewrite dispatch_4 by done. unfold Opcode4xxx. fold X NN.
    change (Vget (skip s) X) with (Vget s X).
    destruct (Vget s X =? NN); by rewrite ?Hs4, ?Hs2.
Qed.

Lemma skip_immediate_spec_witness :
  (∃ s', Cycle 0 (boot [0x30; 0x00]) = Some s' ∧ pc s' = 0x204) ∧
  (∃ s', Cycle 0 (boot [0x40; 0x00]) = Some s' ∧ pc s' = 0x202).
Proof.
  split.
  - destruct (skip_immediate_spec 0 (boot [0x30; 0x00]) 0x3000) as [H _];
      [compute_done|by vm_compute|].
    eexists. split; [apply H; by vm_compute|by vm_compute].
  - destruct (skip_immediate_spec 0 (boot [0x40; 0x00]) 0x4000) as [_ H];
      [compute_done|by vm_compute|].
    eexists. split; [apply H; by vm_compute|by vm_compute].
Defined.

(** X13.  With [V[X] <= 0xF], [EX9E] leaves [pc] 4 past the instruction when
    key [V[X]] is down and 2 past it when it is up, [EXA1] the opposite, and
    neither changes anything else; a key is down from a [SetKey] with
    [pressed = true] to the next [SetKey] of that key. *)
Theorem key_skip_spec (rnd : Z) (s : Chip8) (op : Z) :
  wf s → fetch s = Some op → nib1_of op = 0xE →
  let k := Vget s (regX_of op) in
  k <= 0xF →
  let down := negb (keypad s !!! Z.to_nat k =? 0) in
  (val_of op = 0x9E →
     Cycle rnd s = Some (set_pc (pc s + (if down then 4 else 2)) s)) ∧
  (val_of op = 0xA1 →
     Cycle rnd s = Some (set_pc (pc s + (if down then 2 else 4)) s)) ∧
  (∀ pressed, ∃ s1,
     SetKey k pressed s = Some s1 ∧
     negb (keypad s1 !!! Z.to_nat k =? 0) = pressed ∧
     fetch s1 = fetch s ∧ Vget s1 (regX_of op) = k).
Proof.
  intros Hwf Hf H1 k Hk down.
  pose proof (skip_eq s op Hwf Hf) as Hs2.
  pose proof (skip_skip_eq s op Hwf Hf) as Hs4.
  pose proof (wf_keypad_length s Hwf) as HL.
  pose proof (Vget_byte s _ Hwf (regX_of_range op)) as Hb.
  fold k in Hb. unfold byte in Hb.
  rewrite (Cycle_dispatch _ _ _ Hf), dispatch_E by done.
  unfold OpcodeExxx. change (Vget (skip s) (regX_of op)) with k.
  change (keypad (skip s)) with (keypad s).
  rewrite get_total by lia. cbn [mbind option_bind]. fold down.
  split; [|split].
  - intros ->. cbn [Z.eqb Pos.eqb mbind option_bind].
    destruct down; cbn [negb]; by rewrite ?Hs4, ?Hs2.
  - intros ->. cbn [Z.eqb Pos.eqb mbind option_bind].
    unfold down. destruct (_ =? 0); cbn [negb]; by rewrite ?Hs4, ?Hs2.
  - intros pressed. unfold SetKey. rewrite put_Some by lia.
    cbn [mbind option_bind]. eexists. split; [reflexivity|]. fields.
    rewrite list_lookup_total_insert_eq by lia.
    split; [by destruct pressed|]. by split.
Qed.

Lemma key_skip_spec_witness :
  let s := Vset 2 7 (boot [0xE2; 0x9E]) in
  ∃ s0 s1 s', Cycle 0 s = Some s0 ∧ pc s0 = 0x202 ∧
              SetKey 7 true s = Some s1 ∧
              Cycle 0 s1 = Some s' ∧ pc s' = 0x204.
Proof.
  intros s.
  destruct (key_skip_spec 0 s 0xE29E) as (H & _ & HK);
    [compute_done|by vm_compute|by vm_compute|by vm_compute|].
  eexists. eexists. eexists. split; [apply H; by vm_compute|].
  split; [by vm_compute|]. split; [by vm_compute|].
  split; by vm_compute.
Defined.

(** ** Class F: BCD, font, timers *)

Lemma Cycle_F rnd s op :
  wf s → fetch s = Some op → nib1_of op = 0xF →
  Cycle rnd s = OpcodeFxxx (regX_of op) (val_of op) (set_pc (pc s + 2) s).
Proof.
  intros Hwf Hf H1.
  by rewrite (Cycle_dispatch _ _ _ Hf), dispatch_F, (skip_eq s op Hwf Hf).
Qed.

Lemma Vget_set_memory m s r : Vget (set_memory m s) r = Vget s r.
Proof. reflexivity. Qed.

(** X14.  With [I + 2 < 4096], [FX33] writes three decimal digits to
    [memory[I]], [memory[I + 1]], [memory[I + 2]] (hundreds at most 2, tens and
    ones at most 9) whose value [100 h + 10 t + o] is [V[X]]; no other byte of
    memory, no register, not [I], changes. *)
Theorem bcd_spec (rnd : Z) (s : Chip8) (op : Z) :
  wf s → fetch s = Some op → nib1_of op = 0xF → val_of op = 0x33 →
  I s + 2 < 4096 →
  ∃ s', Cycle rnd s = Some s' ∧
    let h := memory s' !!! Z.to_nat (I s) in
    let t := memory s' !!! Z.to_nat (I s + 1) in
    let o := memory s' !!! Z.to_nat (I s + 2) in
    100 * h + 10 * t + o = Vget s (regX_of op) ∧
    0 <= h <= 2 ∧ 0 <= t <= 9 ∧ 0 <= o <= 9 ∧
    (∀ a, 0 <= a → ¬ (I s <= a <= I s + 2) →
          memory s' !!! Z.to_nat a = memory s !!! Z.to_nat a) ∧
    s' = set_memory (memory s') (set_pc (pc s + 2) s).
Proof.
  intros Hwf Hf H1 Hv HI.
  pose proof (wf_word_I s Hwf) as HIw. unfold word in HIw.
  pose proof (wf_memory_length s Hwf) as HL.
  pose proof (Vget_byte s _ Hwf (regX_of_range op)) as Hb. unfold byte in Hb.
  rewrite (Cycle_F _ _ _ Hwf Hf H1), Hv. unfold OpcodeFxxx.
  cbn [Z.eqb Pos.eqb]. fields. rewrite !Vget_set_pc.
  set (v := Vget s (regX_of op)) in *.
  rewrite put_Some by lia. cbn [mbind option_bind]. fields.
  rewrite put_Some by (rewrite length_insert; lia).
  cbn [mbind option_bind]. fields.
  rewrite put_Some by (rewrite !length_insert; lia).
  cbn [mbind option_bind].
  rewrite !Vget_set_memory, !Vget_set_pc.
  eexists. split; [reflexivity|]. cbn zeta. fields. fold v.
  rewrite (list_lookup_total_insert_ne _ (Z.to_nat (I s + 2)) (Z.to_nat (I s)))
    by lia.
  rewrite (list_lookup_total_insert_ne _ (Z.to_nat (I s + 1)) (Z.to_nat (I s)))
    by lia.
  rewrite (list_lookup_total_insert_eq _ (Z.to_nat (I s))) by lia.
  rewrite (list_lookup_total_insert_ne _ (Z.to_nat (I s + 2))
             (Z.to_nat (I s + 1))) by lia.
  rewrite (list_lookup_total_insert_eq _ (Z.to_nat (I s + 1)))
    by (rewrite length_insert; lia).
  rewrite (list_lookup_total_insert_eq _ (Z.to_nat (I s + 2)))
    by (rewrite !length_insert; lia).
  split; [Z.to_euclidean_division_equations; lia|].
  split; [Z.to_euclidean_division_equations; lia|].
  split; [Z.to_euclidean_division_equations; lia|].
  split; [Z.to_euclidean_division_equations; lia|].
  split; [|reflexivity].
  intros a Ha Hout. by rewrite !list_lookup_total_insert_ne by lia.
Qed.

Lemma bcd_spec_witness :
  let s := set_I 0x300 (Vset 4 254 (boot [0xF4; 0x33])) in
  ∃ s', Cycle 0 s = Some s' ∧
        memory s' !!! 768%nat = 2 ∧ memory s' !!! 769%nat = 5 ∧
        memory s' !!! 770%nat = 4.
Proof.
  intros s.
  destruct (bcd_spec 0 s 0xF433) as (s' & E & _);
    [compute_done|by vm_compute|by vm_compute|by vm_compute|by vm_compute|].
  exists s'. split; [exact E|].
  assert (Cycle 0 s = Some (set_memory (<[770%nat := 4]> (<[769%nat := 5]>
            (<[768%nat := 2]> (memory s)))) (set_pc 0x202 s))) as E'
    by (by vm_compute).
  rewrite E' in E. injection E as <-. repeat split; by vm_compute.
Defined.

(** X15.  [FX29] sets [I] to [5 * V[X]], using all eight bits of [V[X]].  For
    [V[X] <= 0xF] that is the address of the 5-byte glyph of digit [V[X]]
    inside the 80-byte font table, and as long as memory below 0x50 is as
    [Reset] left it the five bytes at [I] are that glyph; for
    [V[X] > 0xF] it is an address past the font table. *)
Theorem font_glyph_spec (rnd : Z) (s : Chip8) (op : Z) :
  wf s → fetch s = Some op → nib1_of op = 0xF → val_of op = 0x29 →
  let v := Vget s (regX_of op) in
  ∃ s', Cycle rnd s = Some s' ∧
    s' = set_I (5 * v) (set_pc (pc s + 2) s) ∧
    (v <= 0xF → I s' + 4 < FONTSET_SIZE) ∧
    (0xF < v → FONTSET_SIZE <= I s') ∧
    (v <= 0xF → take 80 (memory s) = fontset →
       ∀ k, 0 <= k < 5 →
         memory s' !!! Z.to_nat (I s' + k) = fontset !!! Z.to_nat (5 * v + k)).
Proof.
  intros Hwf Hf H1 Hv v.
  pose proof (Vget_byte s _ Hwf (regX_of_range op)) as Hb.
  fold v in Hb. unfold byte in Hb.
  rewrite (Cycle_F _ _ _ Hwf Hf H1), Hv. unfold OpcodeFxxx.
  cbn [Z.eqb Pos.eqb]. fields. rewrite !Vget_set_pc. fold v.
  unfold FONTSET_ADDR, FONTSET_SIZE.
  rewrite u16_small by (unfold word; lia).
  replace (0 + v * 5) with (5 * v) by lia.
  eexists. split; [reflexivity|]. split; [reflexivity|]. fields.
  split; [lia|]. split; [lia|].
  intros Hle Hfont k Hk. rewrite <- Hfont.
  rewrite lookup_total_take_lt by lia. done.
Qed.

Lemma font_glyph_spec_witness :
  let s := Vset 1 0x0A (boot [0xF1; 0x29]) in
  ∃ s', Cycle 0 s = Some s' ∧ I s' = 50 ∧
        memory s' !!! 50%nat = 0xF0 ∧ memory s' !!! 54%nat = 0x90.
Proof.
  intros s.
  destruct (font_glyph_spec 0 s 0xF129) as (s' & E & -> & _ & _ & Hg);
    [compute_done|by vm_compute|by vm_compute|by vm_compute|].
  eexists. split; [exact E|]. split; [by vm_compute|].
  split.
  - exact (Hg ltac:(by vm_compute) ltac:(by vm_compute) 0 ltac:(lia)).
  - exact (Hg ltac:(by vm_compute) ltac:(by vm_compute) 4 ltac:(lia)).
Defined.

(** ** Timers over time *)

Lemma UpdateTimers_fields s :
  byte (delay_timer s) → byte (sound_timer s) →
  UpdateTimers s
  = set_sound_timer (Z.max 0 (sound_timer s - 1))
      (set_delay_timer (Z.max 0 (delay_timer s - 1)) s).
Proof.
  intros Hd Ht. destruct s as [m v i p k st d t kp dp df].
  unfold byte in *. fields. unfold UpdateTimers. fields.
  destruct (Z.gtb_spec d 0); fields; destruct (Z.gtb_spec t 0);
    unfold set_sound_timer, set_delay_timer; fields;
    rewrite ?u8_small by (unfold byte; lia); f_equal; lia.
Qed.

Lemma Ticks_wf n s : wf s → wf (Ticks n s).
Proof.
  revert s. induction n as [|n IH]; intros s Hwf; [done|].
  cbn [Ticks]. by apply IH, UpdateTimers_wf.
Qed.

Lemma Ticks_timers (n : nat) (s : Chip8) :
  byte (delay_timer s) → byte (sound_timer s) →
  Ticks n s
  = set_sound_timer (Z.max 0 (sound_timer s - Z.of_nat n))
      (set_delay_timer (Z.max 0 (delay_timer s - Z.of_nat n)) s).
Proof.
  revert s. induction n as [|n IH]; intros s Hd Ht.
  - unfold byte in *. cbn [Ticks]. rewrite !Z.sub_0_r.
    rewrite !Z.max_r by lia. by destruct s.
  - cbn [Ticks]. rewrite (UpdateTimers_fields s Hd Ht).
    unfold byte in *. rewrite IH by (unfold byte; fields; lia).
    unfold set_sound_timer, set_delay_timer. fields. f_equal; lia.
Qed.

Lemma sound_gate t n :
  0 <= t → (Z.max 0 (t - Z.of_nat n) >? 0) = (Z.of_nat n <? t).
Proof.
  intros Ht.
  destruct (Z.gtb_spec (Z.max 0 (t - Z.of_nat n)) 0),
           (Z.ltb_spec (Z.of_nat n) t); lia || done.
Qed.

(** X16.  [n] calls of [UpdateTimers] take [n] off each timer, stopping at 0:
    the delay timer ends as [max 0 (delay - n)], the sound timer as
    [max 0 (sound - n)], nothing else changes; so the sound gate
    [GetSoundState] is open during the first [sound] ticks exactly. *)
Theorem Ticks_spec (n : nat) (s : Chip8) :
  byte (delay_timer s) → byte (sound_timer s) →
  Ticks n s
  = set_sound_timer (Z.max 0 (sound_timer s - Z.of_nat n))
      (set_delay_timer (Z.max 0 (delay_timer s - Z.of_nat n)) s) ∧
  GetSoundState (Ticks n s) = (Z.of_nat n <? sound_timer s).
Proof.
  intros Hd Ht. pose proof (Ticks_timers n s Hd Ht) as E.
  split; [exact E|]. rewrite E. unfold GetSoundState. fields.
  apply sound_gate. unfold byte in Ht. lia.
Qed.

Lemma Ticks_spec_witness :
  let s := mkChip8 [] [] 0 0 0 [] 200 3 [] [] false in
  delay_timer (Ticks 5 s) = 195 ∧ sound_timer (Ticks 5 s) = 0 ∧
  GetSoundState (Ticks 2 s) = true ∧ GetSoundState (Ticks 3 s) = false.
Proof.
  intros s.
  destruct (Ticks_spec 5 s) as [E5 _]; [by compute|by compute|].
  destruct (Ticks_spec 2 s) as [_ G2]; [by compute|by compute|].
  destruct (Ticks_spec 3 s) as [_ G3]; [by compute|by compute|].
  rewrite E5, G2, G3. repeat split.
Defined.

(** X17.  [FX15] sets the delay timer to [V[X]] and [FX18] the sound timer,
    changing nothing else.  After [FX15] and [n] timer ticks, an [FY07]
    reads [max 0 (V[X] - n)] into [V[Y]]; after [FX18] the sound gate is
    open for the next [V[X]] ticks exactly. *)
Theorem timer_opcodes_spec (rnd : Z) (s : Chip8) (op : Z) :
  wf s → fetch s = Some op → nib1_of op = 0xF →
  let v := Vget s (regX_of op) in
  (val_of op = 0x15 →
     let s1 := set_delay_timer v (set_pc (pc s + 2) s) in
     Cycle rnd s = Some s1 ∧
     ∀ (n : nat) op2,
       fetch (Ticks n s1) = Some op2 → nib1_of op2 = 0xF →
       val_of op2 = 0x07 →
       ∃ s2, Cycle rnd (Ticks n s1) = Some s2 ∧
             Vget s2 (regX_of op2) = Z.max 0 (v - Z.of_nat n) ∧
             (∀ r, 0 <= r < 16 → r ≠ regX_of op2 → Vget s2 r = Vget s r)) ∧
  (val_of op = 0x18 →
     let s1 := set_sound_timer v (set_pc (pc s + 2) s) in
     Cycle rnd s = Some s1 ∧
     ∀ n : nat, GetSoundState (Ticks n s1) = (Z.of_nat n <? v)).
Proof.
  intros Hwf Hf H1 v.
  pose proof (Vget_byte s _ Hwf (regX_of_range op)) as Hb. fold v in Hb.
  pose proof (wf_word_pc _ (wf_skip s Hwf)) as Hpc.
  rewrite (skip_pc s op Hwf Hf) in Hpc.
  rewrite (Cycle_F _ _ _ Hwf Hf H1). unfold OpcodeFxxx.
  split; intros Hv; rewrite Hv; cbn [Z.eqb Pos.eqb]; rewrite Vget_set_pc;
    fold v; (split; [reflexivity|]).
  - set (s1 := set_delay_timer v (set_pc (pc s + 2) s)).
    intros n op2 Hf2 H12 Hv2.
    assert (wf s1) as Hwf1
      by (apply wf_set_delay_timer; [done|by apply wf_set_pc]).
    pose proof (Ticks_wf n s1 Hwf1) as Hwfn.
    pose proof (Ticks_timers n s1 Hb
                  ltac:(by destruct Hwf as (_ & _ & _ & _ & [_ ?] & _))) as E.
    change (delay_timer s1) with v in E.
    rewrite (Cycle_F _ _ _ Hwfn Hf2 H12), Hv2. unfold OpcodeFxxx.
    cbn [Z.eqb Pos.eqb]. eexists. split; [reflexivity|].
    pose proof (regX_of_range op2) as HX2.
    pose proof (wf_V_length _ Hwfn) as HLn.
    assert (HVn : ∀ r, Vget (Ticks n s1) r = Vget s r) by (by rewrite E).
    split.
    + rewrite Vget_Vset_eq by (rewrite V_length_set_pc; lia).
      assert (delay_timer (set_pc (pc (Ticks n s1) + 2) (Ticks n s1))
              = Z.max 0 (v - Z.of_nat n)) as -> by (by rewrite E).
      apply u8_small. unfold byte in *. lia.
    + intros r Hr Hne. rewrite Vget_Vset_ne by lia.
      by rewrite Vget_set_pc, HVn.
  - set (s1 := set_sound_timer v (set_pc (pc s + 2) s)). intros n.
    rewrite (Ticks_timers n s1
               ltac:(by destruct Hwf as (_ & _ & _ & _ & [? _] & _)) Hb).
    unfold GetSoundState, s1. fields. apply sound_gate. unfold byte in Hb. lia.
Qed.

Lemma timer_opcodes_spec_witness :
  let s := Vset 2 9 (boot [0xF2; 0x15; 0xF5; 0x07]) in
  ∃ s1 s2, Cycle 0 s = Some s1 ∧ Cycle 0 (Ticks 4 s1) = Some s2 ∧
           Vget s2 5 = 5.
Proof.
  intros s.
  destruct (timer_opcodes_spec 0 s 0xF215) as [H _];
    [compute_done|by vm_compute|by vm_compute|].
  destruct H as [E1 H2]; [by vm_compute|].
  destruct (H2 4%nat 0xF507) as (s2 & E2 & HV2 & _);
    [by vm_compute|by vm_compute|by vm_compute|].
  eexists. exists s2. split; [exact E1|]. split; [exact E2|exact HV2].
Defined.

(** ** Clear screen, reset, load *)

(** X18.  [00E0] puts every cell of the display out and sets the draw flag;
    nothing else but [pc] changes. *)
Theorem clear_screen_spec (rnd : Z) (s : Chip8) :
  wf s → fetch s = Some 0x00E0 →
  ∃ s', Cycle rnd s = Some s' ∧
    (∀ cx cy, 0 <= cx < 64 → 0 <= cy < 32 → dget s' (cy * 64 + cx) = 0) ∧
    length (display s') = 2048%nat ∧
    drawFlag s' = true ∧
    s' = set_drawFlag true (set_display (display s') (set_pc (pc s + 2) s)).
Proof.
  intros Hwf Hf.
  rewrite (Cycle_dispatch _ _ _ Hf), dispatch_0, (skip_eq s _ Hwf Hf) by done.
  unfold Opcode0xxx. cbn [Z.eqb Pos.eqb]. eexists. split; [reflexivity|].
  fields. split; [|split; [|split]]; [| |reflexivity|reflexivity].
  - intros cx cy Hcx Hcy. unfold dget, zeros. fields.
    apply lookup_total_replicate_2. unfold DISPLAY_WIDTH, DISPLAY_HEIGHT. lia.
  - unfold zeros. rewrite length_replicate. done.
Qed.

Lemma clear_screen_spec_witness :
  let s := set_display (display sprite_drawn) (boot [0x00; 0xE0]) in
  dget s 60 = 1 ∧ ∃ s', Cycle 0 s = Some s' ∧ dget s' 60 = 0.
Proof.
  intros s. split; [by vm_compute|].
  destruct (clear_screen_spec 0 s) as (s' & E & H & _);
    [compute_done|by vm_compute|].
  exists s'. split; [exact E|]. apply (H 60 0); lia.
Defined.

(** X19.  [Reset] forgets the state it is given: its result is the state of
    a freshly constructed machine, so a [Reset] after any [LoadROM] gives
    that state back.  After [LoadROM], whatever the file, the font table is
    in memory at 0x000-0x04F, [pc] is 0x200 and the registers, stack, timers,
    keypad and display are zero. *)
Theorem Reset_baseline (file : option (list Z)) (s : Chip8) :
  Reset s = Chip8_new ∧
  Reset (LoadROM file s).1 = Chip8_new ∧
  take 80 (memory (LoadROM file s).1) = fontset ∧
  set_memory [] (LoadROM file s).1 = set_memory [] Chip8_new ∧
  pc Chip8_new = 0x200 ∧ display Chip8_new = zeros 2048 ∧
  V Chip8_new = zeros 16.
Proof.
  split; [by vm_compute|]. split; [by vm_compute|].
  split; [|split; [|by vm_compute]].
  - unfold LoadROM.
    assert (take 80 (memory (Reset s)) = fontset) as Hfont by (by vm_compute).
    assert (length (memory (Reset s)) = 4096%nat) as HL
      by apply (wf_memory_length _ (Reset_wf s)).
    generalize dependent (Reset s). intros r Hfont HL.
    destruct file as [bytes|]; [|done].
    destruct (_ >? _); [done|]. cbn [fst]. fields.
    unfold memcpy, START_ADDR.
    rewrite take_app_le by (rewrite length_take; lia).
    rewrite take_take. exact Hfont.
  - unfold LoadROM.
    assert (set_memory [] (Reset s) = set_memory [] Chip8_new) as E
      by (by vm_compute).
    generalize dependent (Reset s). intros r E.
    destruct file as [bytes|]; [|done].
    destruct (_ >? _); done.
Qed.

(** ** Register block, any X *)



(** X20.  For every X with [I + X < 4096], [FX55] copies [V[0]]..[V[X]] to
    [memory[I]]..[memory[I + X]] and changes no other byte, no register and
    not [I].  From any later well-formed state with that memory and that
    [I], an [FZ65] with [Z <= X] is defined, gives [V[0]]..[V[Z]] the values
    they had at the store, whatever they hold now, and leaves the registers
    above [Z] and [I] as they are. *)
Theorem register_block_roundtrip (rnd : Z) (s : Chip8) (op : Z) :
  wf s → fetch s = Some op → nib1_of op = 0xF → val_of op = 0x55 →
  let X := regX_of op in
  I s + X < 4096 →
  ∃ s1, Cycle rnd s = Some s1 ∧
    (∀ r, 0 <= r <= X → memory s1 !!! Z.to_nat (I s + r) = Vget s r) ∧
    (∀ a, 0 <= a → ¬ (I s <= a <= I s + X) →
          memory s1 !!! Z.to_nat a = memory s !!! Z.to_nat a) ∧
    s1 = set_memory (memory s1) (set_pc (pc s + 2) s) ∧
    I s1 = I s ∧
    ∀ s2 op2,
      wf s2 → memory s2 = memory s1 → I s2 = I s →
      fetch s2 = Some op2 → nib1_of op2 = 0xF → val_of op2 = 0x65 →
      regX_of op2 <= X →
      ∃ s3, Cycle rnd s2 = Some s3 ∧
        (∀ r, 0 <= r <= regX_of op2 → Vget s3 r = Vget s r) ∧
        (∀ r, regX_of op2 < r < 16 → Vget s3 r = Vget s2 r) ∧
        s3 = set_V (V s3) (set_pc (pc s2 + 2) s2).
Proof.
  intros Hwf Hf H1 Hv X HI.
  pose proof (wf_word_I s Hwf) as HIw. unfold word in HIw.
  pose proof (regX_of_range op) as HX. fold X in HX.
  assert (wf (set_pc (pc s + 2) s)) as Hwf0
    by (rewrite <- (skip_eq s op Hwf Hf); by apply wf_skip).
  rewrite (Cycle_F _ _ _ Hwf Hf H1), Hv. unfold OpcodeFxxx.
  cbn [Z.eqb Pos.eqb]. fold X.
  destruct (store_regs_spec (Z.to_nat (X + 1)) 0 (set_pc (pc s + 2) s))
    as (s1 & Hs1 & Hm); [done|lia|fields; lia|].
  fields. rewrite Z2Nat.id in Hm by lia.
  exists s1. split; [exact Hs1|].
  pose proof (store_regs_frame _ _ _ _ Hs1) as Hfr.
  split; [|split; [|split; [|split]]].
  - intros r Hr. rewrite Hm by lia. rewrite decide_True by lia.
    rewrite Vget_set_pc. f_equal. lia.
  - intros a Ha Hout. rewrite Hm by lia. by rewrite decide_False by lia.
  - by apply frameM_eq.
  - by apply frameM_I in Hfr.
  - intros s2 op2 Hwf2 Hmem2 HI2 Hf2 H12 Hv2 HZ.
    pose proof (regX_of_range op2) as HZr.
    assert (wf (set_pc (pc s2 + 2) s2)) as Hwf2'
      by (rewrite <- (skip_eq s2 op2 Hwf2 Hf2); by apply wf_skip).
    rewrite (Cycle_F _ _ _ Hwf2 Hf2 H12), Hv2. unfold OpcodeFxxx.
    cbn [Z.eqb Pos.eqb].
    destruct (load_regs_spec (Z.to_nat (regX_of op2 + 1)) 0
                (set_pc (pc s2 + 2) s2))
      as (s3 & Hs3 & HV3); [done|lia|lia|fields; lia|].
    fields. rewrite Z2Nat.id in HV3 by lia.
    exists s3. split; [exact Hs3|]. split; [|split].
    + intros r Hr. rewrite HV3 by lia. rewrite decide_True by lia.
      rewrite Hmem2, HI2, Hm by lia. rewrite decide_True by lia.
      rewrite Vget_set_pc. f_equal. lia.
    + intros r Hr. rewrite HV3 by lia. by rewrite decide_False by lia.
    + apply frameV_eq. by eapply load_regs_frame.
Qed.

Lemma register_block_roundtrip_witness :
  ∃ s1 s3, Cycle 0 block_demo = Some s1 ∧
           Cycle 0 (Vset 0 99 s1) = Some s3 ∧ Vget s3 0 = 11.
Proof.
  destruct (register_block_roundtrip 0 block_demo 0xF155)
    as (s1 & E1 & _ & _ & _ & HI1 & Hback);
    [compute_done|vm_compute; reflexivity|vm_compute; reflexivity
    |vm_compute; reflexivity|vm_compute; reflexivity|].
  assert (wf s1) as Hwf1 by (eapply Cycle_wf; [|exact E1]; compute_done).
  assert (fetch (Vset 0 99 s1) = Some 0xF065) as Hf2.
  { assert (Cycle 0 block_demo = Some (set_pc 0x202 (set_memory
              (<[769%nat := 22]> (<[768%nat := 11]> (memory block_demo)))
              block_demo))) as E by (vm_compute; reflexivity).
    rewrite E in E1. apply (inj Some) in E1. rewrite <- E1.
    vm_compute. reflexivity. }
  destruct (Hback (Vset 0 99 s1) 0xF065) as (s3 & E3 & HV3 & _);
    [by apply wf_Vset|reflexivity|exact HI1|exact Hf2
    |vm_compute; reflexivity|vm_compute; reflexivity
    |vm_compute; discriminate|].
  exists s1, s3. split; [exact E1|]. split; [exact E3|].
  rewrite (HV3 0); [vm_compute; reflexivity|].
  vm_compute. split; discriminate.
Defined.

(** ** More about the draw opcode *)

(** One draw, for the proofs below: the cells, the flag, the frame. *)
Lemma draw_step rnd s op :
  wf s → fetch s = Some op → nib1_of op = 0xD →
  let N := nib4_of op in
  let x := Vget s (regX_of op) mod 64 in
  let y := Vget s (regY_of op) mod 32 in
  let collision :=
    ∃ cx cy, 0 <= cx < 64 ∧ 0 <= cy < 32 ∧
             sprite_bit s N x y cx cy = true ∧ dget s (cy * 64 + cx) = 1 in
  (∀ r, 0 <= r < N → y + r < 32 → I s + r < 4096) →
  ∃ s', Cycle rnd s = Some s' ∧
    (∀ cx cy, 0 <= cx < 64 → 0 <= cy < 32 →
       dget s' (cy * 64 + cx)
       = Z.lxor (dget s (cy * 64 + cx)) (Z.b2z (sprite_bit s N x y cx cy))) ∧
    (collision → Vget s' 0xF = 1) ∧
    (¬ collision → Vget s' 0xF = 0) ∧
    (∀ r, 0 <= r < 0xF → Vget s' r = Vget s r) ∧
    s' = set_drawFlag true
           (set_display (display s') (set_V (V s') (set_pc (pc s + 2) s))).
Proof.
  intros Hwf Hf H1 N x y collision Hmem.
  pose proof (Vget_byte s _ Hwf (regX_of_range op)) as HbX.
  pose proof (Vget_byte s _ Hwf (regY_of_range op)) as HbY.
  pose proof (Z.mod_pos_bound (Vget s (regX_of op)) 64 ltac:(lia)) as Hx.
  pose proof (Z.mod_pos_bound (Vget s (regY_of op)) 32 ltac:(lia)) as Hy.
  fold x in Hx. fold y in Hy.
  pose proof (nib4_of_range op) as HN. fold N in HN.
  rewrite (Cycle_dispatch _ _ _ Hf), dispatch_D by done.
  unfold OpcodeDxxx, DISPLAY_WIDTH, DISPLAY_HEIGHT. fold N.
  change (Vget (skip s) ?r) with (Vget s r). fold x y.
  rewrite !u8_small by (unfold byte; lia).
  set (s0 := Vset 15 0 (skip s)).
  assert (wf s0) as Hwf0 by (by apply wf_Vset, wf_skip).
  destruct (draw_rows_spec (Z.to_nat N) 0 x y s0 Hwf0 Hx)
    as (s1 & Hs1 & Hd & Hflag & Hv); [lia|lia| |].
  { intros r Hr Hyr. change (I s0) with (I s). apply Hmem; lia. }
  cbn zeta in Hd, Hflag. rewrite Z2Nat.id in Hd, Hflag by lia.
  pose proof (draw_rows_frame _ _ _ _ _ _ Hs1) as Hfr.
  pose proof (draw_rows_flag _ _ _ _ _ _ (wf_V_length _ Hwf0) Hs1) as Hmono.
  assert (Vget s0 15 = 0) as H0.
  { unfold s0. rewrite Vget_Vset_eq; [done|].
    change (V (skip s)) with (V s). rewrite (wf_V_length s Hwf). lia. }
  rewrite Hs1. cbn [mbind option_bind]. eexists. split; [reflexivity|].
  assert (Hbits : ∀ cx cy, rows_bit s0 x y 0 N cx cy = sprite_bit s N x y cx cy)
    by (intros; rewrite <- rows_bit_sprite; reflexivity).
  split; [|split; [|split; [|split]]].
  - intros cx cy Hcx Hcy.
    change (dget (set_drawFlag true s1) ?k) with (dget s1 k).
    by rewrite Hd, Hbits.
  - intros (cx & cy & Hcx & Hcy & Hb & Hon).
    change (Vget (set_drawFlag true s1) 15) with (Vget s1 15).
    apply Hflag. right. exists cx, cy. by rewrite Hbits.
  - intros Hno. change (Vget (set_drawFlag true s1) 15) with (Vget s1 15).
    destruct Hmono as [E|E]; [by rewrite E|].
    exfalso. apply Hno. apply Hflag in E as [E|(cx & cy & Hcx & Hcy & Hb & Hon)].
    + rewrite H0 in E. discriminate.
    + exists cx, cy. by rewrite <- Hbits.
  - intros r Hr. change (Vget (set_drawFlag true s1) r) with (Vget s1 r).
    rewrite Hv by lia. unfold s0. by rewrite Vget_Vset_ne by lia.
  - apply frameVD_eq in Hfr. rewrite Hfr at 1.
    rewrite <- (skip_pc s op Hwf Hf). reflexivity.
Qed.

(** Two displays that agree on every cell of the grid are equal. *)
Lemma display_ext s s' :
  wf s → wf s' →
  (∀ cx cy, 0 <= cx < 64 → 0 <= cy < 32 →
            dget s' (cy * 64 + cx) = dget s (cy * 64 + cx)) →
  display s' = display s.
Proof.
  intros Hwf Hwf' Hcells.
  pose proof (wf_display_length s Hwf) as HL.
  pose proof (wf_display_length s' Hwf') as HL'.
  apply list_eq. intros i.
  destruct (decide (i < 2048)%nat) as [Hi|Hi].
  - rewrite !list_lookup_lookup_total_lt by lia. f_equal.
    specialize (Hcells (Z.of_nat i mod 64) (Z.of_nat i / 64)).
    unfold dget in Hcells.
    replace (Z.to_nat (Z.of_nat i / 64 * 64 + Z.of_nat i mod 64)) with i
      in Hcells by (Z.to_euclidean_division_equations; lia).
    apply Hcells; Z.to_euclidean_division_equations; lia.
  - by rewrite !lookup_ge_None_2 by lia.
Qed.

(** X21.  Drawing is its own inverse: when X and Y are not 0xF, a second
    [DXYN] with the same word, executed right after the first, is defined
    and gives back the display as it was before the first. *)
Theorem draw_twice_restores (rnd : Z) (s : Chip8) (op : Z) :
  wf s → fetch s = Some op → nib1_of op = 0xD →
  regX_of op ≠ 0xF → regY_of op ≠ 0xF →
  (∀ r, 0 <= r < nib4_of op →
        Vget s (regY_of op) mod 32 + r < 32 → I s + r < 4096) →
  ∃ s1, Cycle rnd s = Some s1 ∧
    (fetch s1 = Some op →
     ∃ s2, Cycle rnd s1 = Some s2 ∧ display s2 = display s ∧
           ∀ r, 0 <= r < 0xF → Vget s2 r = Vget s r).
Proof.
  intros Hwf Hf H1 HX HY Hmem.
  pose proof (regX_of_range op) as HXr. pose proof (regY_of_range op) as HYr.
  destruct (draw_step rnd s op Hwf Hf H1 Hmem)
    as (s1 & E1 & Hd1 & _ & _ & HV1 & Hfr1).
  exists s1. split; [exact E1|]. intros Hf1.
  pose proof (Cycle_wf _ _ _ Hwf E1) as Hwf1.
  assert (memory s1 = memory s) as Hm1 by (by rewrite Hfr1).
  assert (I s1 = I s) as HI1 by (by rewrite Hfr1).
  assert (Hbit : ∀ n x y cx cy,
            sprite_bit s1 n x y cx cy = sprite_bit s n x y cx cy)
    by (intros; unfold sprite_bit; by rewrite Hm1, HI1).
  destruct (draw_step rnd s1 op Hwf1 Hf1 H1)
    as (s2 & E2 & Hd2 & _ & _ & HV2 & _).
  { intros r Hr Hy. rewrite HV1 in Hy by lia. rewrite HI1. by apply Hmem. }
  exists s2. split; [exact E2|].
  pose proof (Cycle_wf _ _ _ Hwf1 E2) as Hwf2. split.
  - apply display_ext; [done|done|]. intros cx cy Hcx Hcy.
    rewrite Hd2, Hd1, Hbit by done. rewrite !HV1 by lia.
    rewrite Z.lxor_assoc, Z.lxor_nilpotent. apply Z.lxor_0_r.
  - intros r Hr. by rewrite HV2, HV1.
Qed.

Lemma draw_twice_restores_witness :
  ∃ s1 s2, Cycle 0 sprite_ready = Some s1 ∧ Cycle 0 s1 = Some s2 ∧
           display s2 = display sprite_ready.
Proof.
  destruct (draw_twice_restores 0 sprite_ready 0xD012) as (s1 & E1 & H);
    [compute_done|vm_compute; reflexivity|vm_compute; reflexivity
    |vm_compute; discriminate|vm_compute; discriminate| |].
  { intros r Hr _. change (nib4_of 0xD012) with 2 in Hr.
    change (I sprite_ready) with 0x20A. lia. }
  destruct H as (s2 & E2 & Hd & _).
  { pose proof draw_clip_example as (_ & E & _).
    rewrite E in E1. apply (inj Some) in E1. rewrite <- E1.
    vm_compute. reflexivity. }
  exists s1, s2. split; [exact E1|]. split; [exact E2|exact Hd].
Defined.

(** X22.  A sprite that has no set bit in the rows that are read (in
    particular a sprite of N = 0 rows, for which no memory is read whatever
    [I] is) leaves the display as it is; the draw still resets the flag
    register to 0 and sets the draw flag. *)
Theorem draw_blank_spec (rnd : Z) (s : Chip8) (op : Z) :
  wf s → fetch s = Some op → nib1_of op = 0xD →
  (∀ r, 0 <= r < nib4_of op → Vget s (regY_of op) mod 32 + r < 32 →
        I s + r < 4096 ∧ memory s !!! Z.to_nat (I s + r) = 0) →
  ∃ s', Cycle rnd s = Some s' ∧
    display s' = display s ∧ Vget s' 0xF = 0 ∧ drawFlag s' = true ∧
    s' = set_drawFlag true (Vset 0xF 0 (set_pc (pc s + 2) s)).
Proof.
  intros Hwf Hf H1 Hrows.
  pose proof (Z.mod_pos_bound (Vget s (regY_of op)) 32 ltac:(lia)) as Hy.
  pose proof (nib4_of_range op) as HN.
  destruct (draw_step rnd s op Hwf Hf H1)
    as (s' & E & Hd & _ & Hno & HV & Hfr).
  { intros r Hr Hyr. by apply Hrows. }
  assert (Hblank : ∀ cx cy, 0 <= cx < 64 → 0 <= cy < 32 →
            sprite_bit s (nib4_of op) (Vget s (regX_of op) mod 64)
              (Vget s (regY_of op) mod 32) cx cy = false).
  { intros cx cy Hcx Hcy. unfold sprite_bit.
    set (y := Vget s (regY_of op) mod 32) in *.
    destruct (Z.leb_spec y cy); [|done].
    destruct (Z.ltb_spec cy (y + nib4_of op)); [|done].
    destruct (Hrows (cy - y)) as [_ ->]; [lia|lia|].
    rewrite Z.bits_0. by rewrite andb_false_r. }
  pose proof (Cycle_wf _ _ _ Hwf E) as Hwf'.
  assert (display s' = display s) as Hdisp.
  { apply display_ext; [done|done|]. intros cx cy Hcx Hcy.
    rewrite Hd, Hblank by done. apply Z.lxor_0_r. }
  assert (Vget s' 15 = 0) as HF.
  { apply Hno. intros (cx & cy & Hcx & Hcy & Hb & _).
    rewrite Hblank in Hb by done. discriminate. }
  exists s'. split; [exact E|]. split; [exact Hdisp|]. split; [exact HF|].
  split; [by rewrite Hfr|].
  rewrite Hfr. rewrite Hdisp. unfold Vset. fields. f_equal.
  destruct s as [m v i p k st d t kp dp df]. unfold set_display, set_V. fields.
  f_equal.
  pose proof (wf_V_length _ Hwf') as HL'.
  pose proof (wf_V_length _ Hwf) as HL. fields.
  apply list_eq. intros j.
  destruct (decide (j = 15%nat)) as [->|Hne].
  - rewrite list_lookup_insert_eq by lia.
    rewrite list_lookup_lookup_total_lt by lia. f_equal.
    change (V s' !!! 15%nat) with (Vget s' 15). rewrite HF. done.
  - rewrite list_lookup_insert_ne by done.
    destruct (decide (j < 16)%nat) as [Hj|Hj].
    + rewrite !list_lookup_lookup_total_lt by lia. f_equal.
      specialize (HV (Z.of_nat j) ltac:(lia)). unfold Vget in HV. fields.
      by rewrite Nat2Z.id in HV.
    + by rewrite !lookup_ge_None_2 by lia.
Qed.

Lemma draw_blank_spec_witness :
  let s := set_I 0xFFFF (boot [0xD0; 0x10]) in
  ∃ s', Cycle 0 s = Some s' ∧ display s' = display s ∧ drawFlag s' = true.
Proof.
  intros s.
  destruct (draw_blank_spec 0 s 0xD010) as (s' & E & Hd & _ & Hf & _);
    [compute_done|vm_compute; reflexivity|vm_compute; reflexivity| |].
  { intros r Hr. change (nib4_of 0xD010) with 0 in Hr. lia. }
  exists s'. split; [exact E|]. split; [exact Hd|exact Hf].
Defined.

(** ** Keyboard *)

(** X23.  [GUI::HandleEvents] never indexes the keypad out of bounds: every
    key event is handled in every well-formed state and leaves it
    well-formed.  A bound key acts as [SetKey] on its keypad index; the
    bindings reach each of the 16 keypad keys from exactly one key symbol;
    F5 resets the machine, on key-down and on key-up alike; F1 and unbound
    keys leave it alone. *)
Theorem HandleKey_spec :
  (∀ sym pressed s, wf s →
     ∃ s', HandleKey sym pressed s = Some s' ∧ wf s') ∧
  (∀ sym pressed s,
     HandleKey sym pressed s
     = match key_of sym with
       | Some k => SetKey k pressed s
       | None => Some (match sym with SDLK_F5 => Reset s | _ => s end)
       end) ∧
  (∀ sym k, key_of sym = Some k → 0 <= k <= 0xF) ∧
  (∀ k, 0 <= k <= 0xF → ∃ sym, key_of sym = Some k) ∧
  (∀ sym1 sym2 k, key_of sym1 = Some k → key_of sym2 = Some k → sym1 = sym2).
Proof.
  assert (Hmap : ∀ sym pressed s,
            HandleKey sym pressed s
            = match key_of sym with
              | Some k => SetKey k pressed s
              | None => Some (match sym with SDLK_F5 => Reset s | _ => s end)
              end) by (by intros []).
  assert (Hrange : ∀ sym k, key_of sym = Some k → 0 <= k <= 0xF)
    by (intros [] k [= <-]; lia).
  split; [|split; [exact Hmap|split; [exact Hrange|split]]].
  - intros sym pressed s Hwf. rewrite Hmap.
    destruct (key_of sym) as [k|] eqn:Ek.
    + pose proof (Hrange _ _ Ek) as Hk.
      pose proof (wf_keypad_length s Hwf) as HL.
      unfold SetKey. rewrite put_Some by lia. cbn [mbind option_bind].
      eexists. split; [reflexivity|].
      eapply (SetKey_wf k pressed s); [done|].
      unfold SetKey. by rewrite put_Some by lia.
    + eexists. split; [reflexivity|]. destruct sym; done || apply Reset_wf.
  - intros k Hk.
    assert (k = 0 ∨ k = 1 ∨ k = 2 ∨ k = 3 ∨ k = 4 ∨ k = 5 ∨ k = 6 ∨ k = 7 ∨
            k = 8 ∨ k = 9 ∨ k = 10 ∨ k = 11 ∨ k = 12 ∨ k = 13 ∨ k = 14 ∨
            k = 15) as Hcases by lia.
    repeat destruct Hcases as [->|Hcases]; try subst k;
      [exists SDLK_x|exists SDLK_1|exists SDLK_2|exists SDLK_3
      |exists SDLK_q|exists SDLK_w|exists SDLK_e|exists SDLK_a
      |exists SDLK_s|exists SDLK_d|exists SDLK_z|exists SDLK_c
      |exists SDLK_4|exists SDLK_r|exists SDLK_f|exists SDLK_v]; reflexivity.
  - intros sym1 sym2 k H1 H2.
    destruct sym1; injection H1 as <- || discriminate H1;
      destruct sym2; (reflexivity || discriminate H2).
Qed.

Lemma HandleKey_spec_witness :
  ∃ s', HandleKey SDLK_q true Chip8_new = Some s' ∧
        keypad s' !!! 4%nat = 1.
Proof.
  destruct HandleKey_spec as (Hdef & _).
  destruct (Hdef SDLK_q true Chip8_new) as (s' & E & _); [compute_done|].
  exists s'. split; [exact E|].
  assert (HandleKey SDLK_q true Chip8_new
          = Some (set_keypad (<[4%nat := 1]> (keypad Chip8_new)) Chip8_new))
    as E' by (vm_compute; reflexivity).
  rewrite E' in E. apply (inj Some) in E. rewrite <- E.
  vm_compute. reflexivity.
Defined.

(** ** Audio *)

Lemma audio_loop_spec n beep p :
  0 <= p → p + Z.of_nat n <= 2147483647 →
  ∃ l, audio_loop n beep p
       = Some (l, if beep then p + Z.of_nat n else p) ∧
    length l = n ∧
    ∀ i, (i < n)%nat →
      l !! i = Some (if beep then square_wave (p + Z.of_nat i) else 0).
Proof.
  revert p. induction n as [|n IH]; intros p Hp Hn.
  { exists []. split; [|split; [done|intros i Hi; lia]].
    cbn [audio_loop]. destruct beep; do 2 f_equal; lia. }
  cbn [audio_loop]. destruct beep.
  - destruct (Z.geb_spec p 2147483647) as [|_]; [lia|].
    destruct (IH (p + 1)) as (l & -> & HL & Hl); [lia|lia|].
    cbn [mbind option_bind fst snd]. eexists. split; [|split].
    + do 2 f_equal. lia.
    + cbn [length]. by rewrite HL.
    + intros [|i] Hi; cbn [lookup list_lookup].
      * f_equal. unfold square_wave.
        rewrite Z.quot_div_nonneg, Z.rem_mod_nonneg, Z.add_0_r;
          [done|apply Z.div_pos; lia|lia|lia|lia].
      * rewrite Hl by lia. do 2 f_equal. lia.
  - destruct (IH p) as (l & -> & HL & Hl); [lia|lia|].
    cbn [mbind option_bind fst snd]. eexists. split; [reflexivity|split].
    + cbn [length]. by rewrite HL.
    + intros [|i] Hi; cbn [lookup list_lookup]; [done|]. by rewrite Hl by lia.
Qed.

(** X24.  One call of [audio_callback] with [phase] at [p >= 0] and
    [p + len] within [int] writes [len] samples.  With the beep off they
    are all 0 and [phase] stays; with the beep on sample [i] is 0 or 255 as
    [(p + i) / 50] is even or odd (a square wave, 50 samples low and 50
    high, so the samples repeat every 100) and [phase] ends as [p + len]. *)
Theorem audio_callback_spec (beep : bool) (len p : Z) :
  0 <= p → 0 <= len → p + len <= 2147483647 →
  ∃ stream, audio_callback beep len p
            = Some (stream, if beep then p + len else p) ∧
    Z.of_nat (length stream) = len ∧
    (∀ i, 0 <= i < len →
       stream !!! Z.to_nat i = if beep then square_wave (p + i) else 0) ∧
    (∀ i, 0 <= i → i + 100 < len →
       stream !!! Z.to_nat (i + 100) = stream !!! Z.to_nat i).
Proof.
  intros Hp Hlen Hmax. unfold audio_callback.
  destruct (audio_loop_spec (Z.to_nat len) beep p) as (l & E & HL & Hl);
    [done|lia|].
  rewrite Z2Nat.id in E by lia.
  assert (Hat : ∀ i, 0 <= i < len →
            l !!! Z.to_nat i = if beep then square_wave (p + i) else 0).
  { intros i Hi. apply list_lookup_total_correct.
    rewrite Hl by lia. by rewrite Z2Nat.id by lia. }
  exists l. split; [exact E|]. split; [lia|]. split; [exact Hat|].
  intros i Hi Hi'. rewrite !Hat by lia. destruct beep; [|done].
  unfold square_wave.
  replace (p + (i + 100)) with (p + i + 2 * 50) by lia.
  rewrite Z.div_add by lia.
  replace ((p + i) / 50 + 2) with ((p + i) / 50 + 1 * 2) by lia.
  by rewrite Z.mod_add by lia.
Qed.

Lemma audio_callback_spec_witness :
  ∃ stream, audio_callback true 2048 0 = Some (stream, 2048) ∧
            stream !!! 49%nat = 0 ∧ stream !!! 50%nat = 255 ∧
            stream !!! 100%nat = 0.
Proof.
  destruct (audio_callback_spec true 2048 0) as (l & E & _ & Hat & _);
    [lia|lia|lia|].
  exists l. split; [exact E|]. split; [|split].
  - exact (Hat 49 ltac:(lia)).
  - exact (Hat 50 ltac:(lia)).
  - exact (Hat 100 ltac:(lia)).
Defined.

(** ** Screen *)

Lemma render_cols_spec n x y d r :
  r ∈ render_cols n x y d ↔
  ∃ cx, x <= cx < x + Z.of_nat n ∧ d !!! Z.to_nat (y * 64 + cx) ≠ 0 ∧
        r = cell_rect cx y.
Proof.
  revert x. induction n as [|n IH]; intros x.
  { cbn [render_cols]. split; [by intros ?%elem_of_nil|].
    intros (cx & Hcx & _). lia. }
  cbn [render_cols]. rewrite elem_of_app, IH.
  unfold DISPLAY_WIDTH, GAME_X_OFFSET, GAME_Y_OFFSET, TOP_BAR_HEIGHT,
    WINDOW_WIDTH, GAME_WIDTH, DISPLAY_WIDTH, SCALE_FACTOR.
  change ((800 - 64 * 8) / 2) with 144.
  split.
  - intros [Hhere|(cx & Hcx & Hon & ->)].
    + destruct (Z.eqb_spec (d !!! Z.to_nat (y * 64 + x)) 0) as [|Hon];
        [by apply elem_of_nil in Hhere|].
      apply list_elem_of_singleton in Hhere as ->.
      exists x. split; [lia|]. split; [done|].
      unfold cell_rect. f_equal; lia.
    + exists cx. split; [lia|done].
  - intros (cx & Hcx & Hon & ->).
    destruct (decide (cx = x)) as [->|Hne].
    + left. rewrite (proj2 (Z.eqb_neq _ _) Hon).
      apply list_elem_of_singleton. unfold cell_rect. f_equal; lia.
    + right. exists cx. split; [lia|done].
Qed.

Lemma render_rows_spec n y d r :
  r ∈ render_rows n y d ↔
  ∃ cx cy, 0 <= cx < 64 ∧ y <= cy < y + Z.of_nat n ∧
           d !!! Z.to_nat (cy * 64 + cx) ≠ 0 ∧ r = cell_rect cx cy.
Proof.
  revert y. induction n as [|n IH]; intros y.
  { cbn [render_rows]. split; [by intros ?%elem_of_nil|].
    intros (cx & cy & _ & Hcy & _). lia. }
  cbn [render_rows]. rewrite elem_of_app, IH, render_cols_spec.
  change (Z.of_nat (Z.to_nat DISPLAY_WIDTH)) with 64.
  split.
  - intros [(cx & Hcx & Hon & ->)|(cx & cy & Hcx & Hcy & Hon & ->)].
    + exists cx, y. split; [lia|]. split; [lia|done].
    + exists cx, cy. split; [done|]. split; [lia|done].
  - intros (cx & cy & Hcx & Hcy & Hon & ->).
    destruct (decide (cy = y)) as [->|Hne].
    + left. exists cx. split; [lia|done].
    + right. exists cx, cy. split; [done|]. split; [lia|done].
Qed.

Lemma cell_rect_inj cx cy cx' cy' :
  cell_rect cx cy = cell_rect cx' cy' → cx = cx' ∧ cy = cy'.
Proof. unfold cell_rect. intros E. injection E as Ex Ey. lia. Qed.

(** A row of the game screen never fills a rectangle twice: the rectangle of
    column [x] is not among those of the columns after it. *)
Lemma render_cols_NoDup n x y d : NoDup (render_cols n x y d).
Proof.
  revert x. induction n as [|n IH]; intros x; cbn [render_cols].
  { apply NoDup_nil_2. }
  apply NoDup_app. split; [|split; [|apply IH]].
  - destruct (_ =? 0); [apply NoDup_nil_2|apply NoDup_singleton].
  - intros r Hr (cx & Hcx & _ & ->)%render_cols_spec.
    destruct (_ =? 0); [by apply elem_of_nil in Hr|].
    apply list_elem_of_singleton in Hr.
    unfold cell_rect, GAME_X_OFFSET, WINDOW_WIDTH, GAME_WIDTH, DISPLAY_WIDTH,
      SCALE_FACTOR in Hr.
    change ((800 - 64 * 8) / 2) with 144 in Hr.
    injection Hr as Ex _. lia.
Qed.

Lemma render_rows_NoDup n y d : NoDup (render_rows n y d).
Proof.
  revert y. induction n as [|n IH]; intros y; cbn [render_rows].
  { apply NoDup_nil_2. }
  apply NoDup_app. split; [apply render_cols_NoDup|split; [|apply IH]].
  intros r (cx & _ & _ & ->)%render_cols_spec
           (cx' & cy' & _ & Hcy & _ & E)%render_rows_spec.
  apply cell_rect_inj in E. lia.
Qed.

(** X25.  [GUI::Render] fills exactly one 8x8 rectangle for each lit cell of
    the display and none for the others: the list of the rectangles it fills
    has no rectangle twice; the rectangle of cell ([cx], [cy]), at
    ([144 + 8 cx], [40 + 8 cy]), is in the list exactly when the cell is not
    0; every rectangle of the list is the rectangle of such a cell.  Every
    rectangle lies inside the game area, between the top bar and the bottom
    bar of the 800x600 window. *)
Theorem Render_screen_spec (s : Chip8) (r : SDL_Rect) :
  NoDup (Render_screen s) ∧
  (∀ cx cy, 0 <= cx < 64 → 0 <= cy < 32 →
     (cell_rect cx cy ∈ Render_screen s ↔ dget s (cy * 64 + cx) ≠ 0)) ∧
  (r ∈ Render_screen s ↔
   ∃ cx cy, 0 <= cx < 64 ∧ 0 <= cy < 32 ∧ dget s (cy * 64 + cx) ≠ 0 ∧
            r = cell_rect cx cy) ∧
  (r ∈ Render_screen s →
   GAME_X_OFFSET <= rect_x r ∧
   rect_x r + rect_w r <= GAME_X_OFFSET + GAME_WIDTH <= WINDOW_WIDTH ∧
   TOP_BAR_HEIGHT <= rect_y r ∧
   rect_y r + rect_h r <= GAME_Y_OFFSET + GAME_HEIGHT
                       <= WINDOW_HEIGHT - BOTTOM_BAR_HEIGHT).
Proof.
  assert (Hiff : ∀ r', r' ∈ Render_screen s ↔
            ∃ cx cy, 0 <= cx < 64 ∧ 0 <= cy < 32 ∧
                     dget s (cy * 64 + cx) ≠ 0 ∧ r' = cell_rect cx cy).
  { intros r'. unfold Render_screen. rewrite render_rows_spec.
    change (Z.of_nat (Z.to_nat DISPLAY_HEIGHT)) with 32.
    split; intros (cx & cy & Hcx & Hcy & Hon & ->); exists cx, cy;
      (split; [done|]); (split; [lia|done]). }
  split; [apply render_rows_NoDup|].
  split.
  { intros cx cy Hcx Hcy. rewrite Hiff. split.
    - intros (cx' & cy' & _ & _ & Hon & [-> ->]%cell_rect_inj). exact Hon.
    - intros Hon. exists cx, cy. split; [done|]. split; [done|]. by split. }
  split; [apply Hiff|].
  intros (cx & cy & Hcx & Hcy & _ & ->)%Hiff.
  unfold cell_rect, GAME_X_OFFSET, GAME_Y_OFFSET, GAME_WIDTH, GAME_HEIGHT,
    WINDOW_WIDTH, WINDOW_HEIGHT, TOP_BAR_HEIGHT, BOTTOM_BAR_HEIGHT,
    DISPLAY_WIDTH, DISPLAY_HEIGHT, SCALE_FACTOR.
  cbn [rect_x rect_y rect_w rect_h].
  change ((800 - 64 * 8) / 2) with 144. lia.
Qed.

Lemma Render_screen_spec_witness :
  NoDup (Render_screen sprite_drawn) ∧
  cell_rect 60 1 ∈ Render_screen sprite_drawn ∧
  cell_rect 59 1 ∉ Render_screen sprite_drawn.
Proof.
  destruct (Render_screen_spec sprite_drawn (cell_rect 60 1))
    as (Hnd & Hcell & _ & _).
  split; [exact Hnd|]. split.
  - apply Hcell; [lia|lia|]. vm_compute. discriminate.
  - intros Hin%Hcell; [|lia|lia]. apply Hin. vm_compute. reflexivity.
Defined.

(** ** Jumps *)

Lemma dispatch_B rnd op s :
  nib1_of op = 0xB → dispatch rnd op s = OpcodeBxxx (addr_of op) s.
Proof. intros H. unfold dispatch. by rewrite H. Qed.

(** X26.  [1NNN] sets [pc] to NNN and changes nothing else, so a [1NNN]
    stored at address NNN (the usual way a program halts) is a fixed point
    of [Cycle].  [BNNN] sets [pc] to [NNN + V[0]], which is not reduced
    modulo 4096: from 0xFFF on, the next [Cycle] is undefined. *)
Theorem jump_spec (rnd : Z) (s : Chip8) (op : Z) :
  wf s → fetch s = Some op →
  (nib1_of op = 0x1 →
     Cycle rnd s = Some (set_pc (addr_of op) s) ∧
     (addr_of op = pc s → ∀ n, Cycles rnd n s = Some s)) ∧
  (nib1_of op = 0xB →
     let target := addr_of op + Vget s 0 in
     Cycle rnd s = Some (set_pc target s) ∧
     (0xFFF <= target → ∀ rnd', Cycles rnd' 2 s = None)).
Proof.
  intros Hwf Hf. rewrite (Cycle_dispatch _ _ _ Hf).
  pose proof (addr_of_range op) as Ha. split; intros H1.
  - rewrite dispatch_1 by done. unfold Opcode1xxx.
    assert (E : Cycle rnd s = Some (set_pc (addr_of op) s))
      by (by rewrite (Cycle_dispatch _ _ _ Hf), dispatch_1).
    split; [reflexivity|]. intros Hself n. apply Cycles_fixed.
    rewrite E, Hself. by destruct s.
  - rewrite dispatch_B by done. unfold OpcodeBxxx.
    pose proof (Vget_byte s 0 Hwf ltac:(lia)) as Hb. unfold byte in Hb.
    change (Vget (skip s) 0) with (Vget s 0). cbn zeta.
    rewrite u16_small by (unfold word; lia).
    assert (E : ∀ r, Cycle r s
                     = Some (set_pc (addr_of op + Vget s 0) s)).
    { intros r. rewrite (Cycle_dispatch _ _ _ Hf), dispatch_B by done.
      unfold OpcodeBxxx. change (Vget (skip s) 0) with (Vget s 0).
      by rewrite u16_small by (unfold word; lia). }
    split; [reflexivity|]. intros Hfar rnd'.
    cbn [Cycles]. rewrite E. cbn [mbind option_bind].
    assert (wf (set_pc (addr_of op + Vget s 0) s)) as Hwf'
      by (apply wf_set_pc; [unfold word; lia|done]).
    assert (fetch (set_pc (addr_of op + Vget s 0) s) = None) as Hnone.
    { destruct (fetch (set_pc (addr_of op + Vget s 0) s)) as [op'|] eqn:Hf';
        [|done].
      apply (fetch_Some _ _ Hwf') in Hf'. fields. lia. }
    unfold Cycle. by rewrite Hnone.
Qed.

Lemma jump_spec_witness :
  Cycles 0 9 (boot [0x12; 0x00]) = Some (boot [0x12; 0x00]) ∧
  Cycles 0 2 (Vset 0 0xFF (boot [0xBF; 0xFE])) = None.
Proof.
  split.
  - destruct (jump_spec 0 (boot [0x12; 0x00]) 0x1200) as [H _];
      [compute_done|vm_compute; reflexivity|].
    destruct H as [_ H]; [vm_compute; reflexivity|].
    apply H. vm_compute. reflexivity.
  - destruct (jump_spec 0 (Vset 0 0xFF (boot [0xBF; 0xFE])) 0xBFFE) as [_ H];
      [compute_done|vm_compute; reflexivity|].
    destruct H as [_ H]; [vm_compute; reflexivity|].
    apply H. vm_compute. discriminate.
Defined.
